(** * cltv_flo: customer-lifetime-value segmentation pipeline (src/cltv.py)

    A shallow embedding of the pipeline of [src/cltv.py] and of the pandas
    primitives it calls, followed by the properties of the pipeline.

    Conventions of the model.
    - A [float64] cell is a rational, an infinity or NaN: arithmetic on
      finite cells is exact (the rounding of binary floating point is not
      modelled), the special values follow IEEE 754.
    - A column of dates holds timestamps in nanoseconds; a missing date
      (NaT) arises only as the maximum of an empty column.  A column of
      strings holds strings.
    - A data frame is a mutable object: frames live in a heap and functions
      receive references, so that aliasing between the caller's table, the
      function parameter and the module variable [df] is visible.  A
      computation returns a value or raises, and carries the heap, the
      module variables and the file system along.
    - [pd.to_datetime] and the [lifetimes] estimators are an interface
      (class [Libraries]); the properties hold for every implementation. *)

From Stdlib Require Import ZArith QArith Qround Lqa Lia List String Bool.
From Stdlib Require Import DecimalString Permutation Sorted.
From Stdlib Require DecimalZ DecimalPos.
From stdpp Require Import base option list strings gmap.

Local Open Scope Z_scope.

(** ** Floating-point cells *)

Inductive float64 : Type :=
  | Fin (q : Q)
  | PInf
  | NInf
  | NaN.

Module F64.

Definition isnan (x : float64) : bool :=
  match x with NaN => true | _ => false end.

Definition neg (x : float64) : float64 :=
  match x with
  | Fin q => Fin (- q)
  | PInf => NInf
  | NInf => PInf
  | NaN => NaN
  end.

Definition add (x y : float64) : float64 :=
  match x, y with
  | NaN, _ | _, NaN => NaN
  | Fin a, Fin b => Fin (a + b)
  | PInf, NInf | NInf, PInf => NaN
  | PInf, _ | _, PInf => PInf
  | NInf, _ | _, NInf => NInf
  end.

Definition sub (x y : float64) : float64 := add x (neg y).

(** Sign of a rational: [Gt] positive, [Lt] negative, [Eq] zero. *)
Definition sgn (q : Q) : comparison := (q ?= 0)%Q.

Definition inf_of_sign (c : comparison) : float64 :=
  match c with Gt => PInf | Lt => NInf | Eq => NaN end.

Definition mul (x y : float64) : float64 :=
  match x, y with
  | NaN, _ | _, NaN => NaN
  | Fin a, Fin b => Fin (a * b)
  | Fin a, PInf | PInf, Fin a => inf_of_sign (sgn a)
  | Fin a, NInf | NInf, Fin a => inf_of_sign (CompOpp (sgn a))
  | PInf, PInf | NInf, NInf => PInf
  | PInf, NInf | NInf, PInf => NInf
  end.

(** True division.  A finite value divided by zero is an infinity of the
    sign of the dividend, and [0 / 0] is NaN: pandas raises nothing. *)
Definition div (x y : float64) : float64 :=
  match x, y with
  | NaN, _ | _, NaN => NaN
  | Fin a, Fin b =>
      match sgn b with
      | Eq => inf_of_sign (sgn a)
      | _ => Fin (a / b)
      end
  | Fin _, (PInf | NInf) => Fin 0
  | PInf, Fin b => match sgn b with Lt => NInf | _ => PInf end
  | NInf, Fin b => match sgn b with Lt => PInf | _ => NInf end
  | (PInf | NInf), (PInf | NInf) => NaN
  end.

Definition ltb (x y : float64) : bool :=
  match x, y with
  | NaN, _ | _, NaN => false
  | Fin a, Fin b => match (a ?= b)%Q with Lt => true | _ => false end
  | NInf, (Fin _ | PInf) => true
  | Fin _, PInf => true
  | _, _ => false
  end.

Definition gtb (x y : float64) : bool := ltb y x.

Definition eqb (x y : float64) : bool :=
  match x, y with
  | Fin a, Fin b => Qeq_bool a b
  | PInf, PInf | NInf, NInf => true
  | _, _ => false
  end.

Definition leb (x y : float64) : bool := ltb x y || eqb x y.

Definition geb (x y : float64) : bool := leb y x.

(** Round half to even, the rounding of [round(x, 0)] on a float. *)
Definition round_half_even (q : Q) : Z :=
  let f := Qfloor q in
  match (q - inject_Z f ?= 1 # 2)%Q with
  | Lt => f
  | Gt => f + 1
  | Eq => if Z.even f then f else f + 1
  end.

Definition round0 (x : float64) : float64 :=
  match x with
  | Fin q => Fin (inject_Z (round_half_even q))
  | _ => x
  end.

Definition of_Z (z : Z) : float64 := Fin (inject_Z z).

Definition is_finite (x : float64) : bool :=
  match x with Fin _ => true | _ => false end.

(** The order of non-NaN values, as a proposition. *)
Definition le (x y : float64) : Prop :=
  isnan x = false /\ isnan y = false /\ ltb y x = false.

End F64.

(** ** Columns and data frames *)

(** A column (a pandas Series) with its dtype: [ColNum] is a numeric dtype
  (int64 or float64), [ColObj] is dtype ["O"] (strings), [ColDate] is
  datetime64 (nanoseconds since the epoch), [ColCat] is the categorical
  dtype produced by [pd.qcut] ([None] is a missing label). *)
Inductive column : Type :=
  | ColNum (xs : list float64)
  | ColObj (xs : list string)
  | ColDate (xs : list Z)
  | ColCat (xs : list (option string)).

(** Columns in order, as [dataframe.columns] lists them. *)
Definition DataFrame : Type := list (string * column).

Module Pd.

Definition columns (d : DataFrame) : list string := map fst d.

(** [dataframe[col]] *)
Fixpoint getitem (d : DataFrame) (col : string) : option column :=
  match d with
  | [] => None
  | (k, c) :: d' => if String.eqb k col then Some c else getitem d' col
  end.

(** [dataframe[col] = c]: overwrite in place, or append a new column. *)
Fixpoint setitem (d : DataFrame) (col : string) (c : column) : DataFrame :=
  match d with
  | [] => [(col, c)]
  | (k, c0) :: d' =>
      if String.eqb k col then (k, c) :: d' else (k, c0) :: setitem d' col c
  end.

(** [series.dtypes == "O"] *)
Definition is_object (c : column) : bool :=
  match c with ColObj _ => true | _ => false end.

Definition dropna (xs : list float64) : list float64 :=
  List.filter (fun x => negb (F64.isnan x)) xs.

(** Distinct elements for a boolean equality, first occurrences kept. *)
Fixpoint unique {A} (eqb : A -> A -> bool) (xs : list A) : list A :=
  match xs with
  | [] => []
  | x :: xs' => x :: List.filter (fun y => negb (eqb x y)) (unique eqb xs')
  end.

(** [series.nunique()]: missing values are not counted. *)
Definition nunique (c : column) : nat :=
  match c with
  | ColNum xs => length (unique F64.eqb (dropna xs))
  | ColObj xs => length (unique String.eqb xs)
  | ColDate xs => length (unique Z.eqb xs)
  | ColCat xs => length (unique String.eqb (omap id xs))
  end.

(** Ascending sort of NaN-free cells. *)
Fixpoint insert_sorted (x : float64) (xs : list float64) : list float64 :=
  match xs with
  | [] => [x]
  | y :: ys => if F64.ltb y x then y :: insert_sorted x ys else x :: y :: ys
  end.

Definition sort (xs : list float64) : list float64 :=
  foldr insert_sorted [] xs.

(** numpy's linear interpolation between the two neighbours of the
    virtual index: [a + (b - a) * t], computed from [b] when [t >= 0.5]. *)
Definition lerp (a b : float64) (t : Q) : float64 :=
  let diff_b_a := F64.sub b a in
  if Qle_bool (1 # 2) t
  then F64.sub b (F64.mul diff_b_a (Fin (1 - t)))
  else F64.add a (F64.mul diff_b_a (Fin t)).

(** [np.percentile(values, q, method="linear")] on sorted NaN-free
    values, for [0 <= q <= 1]: the virtual index is [q * (n - 1)]. *)
Definition percentile (sorted : list float64) (q : Q) : float64 :=
  let n := length sorted in
  let virtual_index := (q * inject_Z (Z.of_nat (n - 1)))%Q in
  let previous := Z.to_nat (Qfloor virtual_index) in
  let next := Nat.min (S previous) (n - 1) in
  let gamma := (virtual_index - inject_Z (Qfloor virtual_index))%Q in
  lerp (nth previous sorted NaN) (nth next sorted NaN) gamma.

(** [series.quantile(q)] on a numeric column: NaN cells are skipped, an
    empty column gives NaN. *)
Definition quantile (xs : list float64) (q : Q) : float64 :=
  match sort (dropna xs) with
  | [] => NaN
  | v :: vs => percentile (v :: vs) q
  end.

(** [dataframe.loc[mask, col] = value] on the cells of the column. *)
Definition loc_assign {A} (mask : list bool) (xs : list A) (value : A) : list A :=
  zip_with (fun (m : bool) x => if m then value else x) mask xs.

(** [columns.str.contains(pat)] for a pattern without metacharacters. *)
Fixpoint prefix_of (p s : string) : bool :=
  match p, s with
  | EmptyString, _ => true
  | String a p', String b s' => Ascii.eqb a b && prefix_of p' s'
  | String _ _, EmptyString => false
  end.

Fixpoint contains (s pat : string) : bool :=
  prefix_of pat s ||
  match s with
  | EmptyString => false
  | String _ s' => contains s' pat
  end.

(** [series.max()] of a datetime column; [None] is NaT (empty column). *)
Definition max_date (xs : list Z) : option Z :=
  match xs with
  | [] => None
  | x :: xs' => Some (fold_left Z.max xs' x)
  end.

(** Nanoseconds in a day, and [pd.Timedelta(days=n)]. *)
Definition ns_per_day : Z := 86400 * 1000000000.
Definition Timedelta_days (n : Z) : Z := n * ns_per_day.

(** [timedelta.days]: whole days, rounded towards minus infinity. *)
Definition days (delta : Z) : Z := delta / ns_per_day.

(** [series[mask]]: the cells at which the boolean mask holds. *)
Fixpoint take_rows {A} (mask : list bool) (xs : list A) : list A :=
  match mask, xs with
  | m :: mask', x :: xs' =>
      if m then x :: take_rows mask' xs' else take_rows mask' xs'
  | _, _ => []
  end.

(** [dataframe[mask]]: the rows at which the mask holds, in every column. *)
Definition select_rows (d : DataFrame) (mask : list bool) : DataFrame :=
  map (fun '(k, c) =>
         (k, match c with
             | ColNum xs => ColNum (take_rows mask xs)
             | ColObj xs => ColObj (take_rows mask xs)
             | ColDate xs => ColDate (take_rows mask xs)
             | ColCat xs => ColCat (take_rows mask xs)
             end)) d.

End Pd.

(** ** Program state: heap of frames, module variables, file system *)

(** References are positions in the heap. *)
Abbreviation loc := nat (only parsing).

Inductive exn : Type :=
  | KeyError (key : string)
  | NameError (name : string)
  | FileNotFoundError (path : string)
  | TypeError
  | ValueError
  | IndexError
  | AttributeError.

Record state : Type := mkState {
  heap : list DataFrame;          (* objects, addressed by position *)
  g_df_org : option loc;          (* module variable [df_org] *)
  g_df : option loc;              (* module variable [df] *)
  files : gmap string DataFrame   (* CSV files by path *)
}.

Definition with_heap (s : state) (h : list DataFrame) : state :=
  mkState h (g_df_org s) (g_df s) (files s).

Inductive outcome (A : Type) : Type :=
  | Ok (a : A) (s : state)
  | Raise (e : exn) (s : state).
Arguments Ok {A} a s.
Arguments Raise {A} e s.

Definition M (A : Type) : Type := state -> outcome A.

#[export] Instance M_ret : MRet M := fun A a s => Ok a s.
#[export] Instance M_bind : MBind M := fun A B f m s =>
  match m s with
  | Ok a s' => f a s'
  | Raise e s' => Raise e s'
  end.

Definition raise {A} (e : exn) : M A := fun s => Raise e s.

Definition lift {A} (r : exn + A) : M A :=
  match r with inl e => raise e | inr a => mret a end.

Definition final_state {A} (o : outcome A) : state :=
  match o with Ok _ s | Raise _ s => s end.

Module Heap.

(** Dereference.  References handed out by [alloc] are always live; a
    reference to nothing is reported as an unbound name. *)
Definition load (r : loc) : M DataFrame := fun s =>
  match heap s !! r with
  | Some d => Ok d s
  | None => Raise (NameError "<dangling>") s
  end.

Definition store (r : loc) (d : DataFrame) : M unit := fun s =>
  Ok tt (with_heap s (<[r := d]> (heap s))).

Definition alloc (d : DataFrame) : M loc := fun s =>
  Ok (length (heap s)) (with_heap s (heap s ++ [d])).

(** [dataframe[col]] through a reference. *)
Definition getitem (r : loc) (col : string) : M column :=
  d ← load r;
  match Pd.getitem d col with
  | Some c => mret c
  | None => raise (KeyError col)
  end.

(** [dataframe[col] = c] through a reference. *)
Definition setitem (r : loc) (col : string) (c : column) : M unit :=
  d ← load r; store r (Pd.setitem d col c).

(** The module variable [df], looked up when the statement runs. *)
Definition global_df : M loc := fun s =>
  match g_df s with
  | Some r => Ok r s
  | None => Raise (NameError "df") s
  end.

Definition write_file (path : string) (d : DataFrame) : M unit := fun s =>
  Ok tt (mkState (heap s) (g_df_org s) (g_df s) (<[path := d]> (files s))).

Definition read_file (path : string) : M DataFrame := fun s =>
  match files s !! path with
  | Some d => Ok d s
  | None => Raise (FileNotFoundError path) s
  end.

End Heap.

(** [for x in xs: body(x)] *)
Fixpoint for_each {A} (xs : list A) (body : A -> M unit) : M unit :=
  match xs with
  | [] => mret tt
  | x :: xs' => body x ;; for_each xs' body
  end.

(** [[f(x) for x in xs]] *)
Fixpoint for_list {A B} (xs : list A) (f : A -> M B) : M (list B) :=
  match xs with
  | [] => mret []
  | x :: xs' => y ← f x; ys ← for_list xs' f; mret (y :: ys)
  end.

(** ** Series operations used by the pipeline *)

Module Series.

(** [a + b]: numbers are added, strings are concatenated. *)
Definition add (a b : column) : exn + column :=
  match a, b with
  | ColNum xs, ColNum ys => inr (ColNum (zip_with F64.add xs ys))
  | ColObj xs, ColObj ys => inr (ColObj (zip_with String.append xs ys))
  | _, _ => inl TypeError
  end.

(** [a / b] *)
Definition div (a b : column) : exn + column :=
  match a, b with
  | ColNum xs, ColNum ys => inr (ColNum (zip_with F64.div xs ys))
  | _, _ => inl TypeError
  end.

(** [(a - b).dt.days / 7]: only a difference of dates has [.dt.days]. *)
Definition weeks_between (a b : column) : exn + column :=
  match a, b with
  | ColDate xs, ColDate ys =>
      inr (ColNum (zip_with (fun x y => F64.div (F64.of_Z (Pd.days (x - y))) (F64.of_Z 7)) xs ys))
  | ColNum _, ColNum _ => inl AttributeError
  | _, _ => inl TypeError
  end.

(** [(t - b).dt.days / 7] for a scalar timestamp [t]; NaT gives NaN. *)
Definition weeks_since (t : option Z) (b : column) : exn + column :=
  match b with
  | ColDate ys =>
      inr (ColNum (map (fun y =>
             match t with
             | Some x => F64.div (F64.of_Z (Pd.days (x - y))) (F64.of_Z 7)
             | None => NaN
             end) ys))
  | _ => inl TypeError
  end.

(** [series.max() + pd.Timedelta(days=n)]: [max] of dates is a timestamp
    (NaT on an empty column); on any other column the sum with a
    Timedelta is a TypeError. *)
Definition max_plus_days (a : column) (n : Z) : exn + option Z :=
  match a with
  | ColDate xs => inr ((fun t => t + Pd.Timedelta_days n) <$> Pd.max_date xs)
  | _ => inl TypeError
  end.

(** Truth value of a numeric cell under [any]: a missing value is skipped
    ([skipna=True]), zero is false, anything else is true. *)
Definition truthy (x : float64) : bool :=
  negb (F64.isnan x) && negb (F64.eqb x (Fin 0)).

(** [series.any()] as pandas 2 computes it: numbers are true when
    non-zero, strings when non-empty, dates when they differ from the
    epoch (with a FutureWarning); categories do not support the
    reduction. *)
Definition any (c : column) : exn + bool :=
  match c with
  | ColNum xs => inr (existsb truthy xs)
  | ColObj xs => inr (existsb (fun s => negb (String.eqb s "")) xs)
  | ColDate xs => inr (existsb (fun t => negb (t =? 0)) xs)
  | ColCat _ => inl TypeError
  end.

End Series.

Module Frame.

(** [dataframe.any(axis=None)]: every column is reduced, then the
    results. *)
Fixpoint any (d : DataFrame) : exn + bool :=
  match d with
  | [] => inr false
  | (_, c) :: d' =>
      match Series.any c, any d' with
      | inl e, _ | inr _, inl e => inl e
      | inr a, inr b => inr (a || b)
      end
  end.

End Frame.

(** ** Quantile cut

    [pd.qcut(x, q, labels)] as pandas 1.x and 2.x compute it: the edges are
    the quantiles [0, 1/q, ..., 1] of the non-missing scores, duplicate
    edges raise, a bin is open on the left and closed on the right, and
    the lowest edge belongs to the first bin. *)

Module Qcut.

(** [np.linspace(0, 1, q + 1)] *)
Definition linspace (q : nat) : list Q :=
  map (fun k => (inject_Z (Z.of_nat k) / inject_Z (Z.of_nat q))%Q) (seq 0 (S q)).

(** Bin edges: the quantiles of the non-missing scores. *)
Definition bins (x : list float64) (q : nat) : list float64 :=
  map (Pd.quantile x) (linspace q).

(** Equality of edges as [algos.unique] sees it: NaN equals NaN. *)
Definition same_edge (a b : float64) : bool :=
  F64.eqb a b || (F64.isnan a && F64.isnan b).

(** [bins.searchsorted(v, side="left")]: the number of edges below [v]. *)
Definition searchsorted_left (edges : list float64) (v : float64) : nat :=
  length (List.filter (fun b => F64.ltb b v) edges).

(** Bin number of a score, 1-based; [include_lowest] puts the lowest
    edge in the first bin. *)
Definition bin_id (edges : list float64) (v : float64) : nat :=
  match edges with
  | b0 :: _ => if F64.eqb v b0 then 1%nat else searchsorted_left edges v
  | [] => searchsorted_left edges v
  end.

(** Label of a score: missing for NaN and for scores outside the edges. *)
Definition label_of (edges : list float64) (labels : list string) (v : float64)
  : option string :=
  let id := bin_id edges v in
  if F64.isnan v || (id =? length edges)%nat || (id =? 0)%nat
  then None
  else labels !! (id - 1)%nat.

(** [pd.qcut(x, q, labels)] for an integer [q] and a list of labels. *)
Definition qcut (x : list float64) (q : Z) (labels : list string)
  : exn + list (option string) :=
  if q <? -1 then inl ValueError            (* np.linspace: negative count *)
  else if q =? -1 then inl IndexError       (* no edges: bins[0] *)
  else
    let edges := bins x (Z.to_nat q) in
    if (length (Pd.unique same_edge edges) <? length edges)%nat
       && negb (length edges =? 2)%nat
    then inl ValueError                     (* bin edges must be unique *)
    else if negb (length (Pd.unique String.eqb labels) =? length labels)%nat
    then inl ValueError                     (* labels must be unique *)
    else if negb (length labels =? length edges - 1)%nat
    then inl ValueError                     (* one label per bin *)
    else inr (map (label_of edges labels) x).

End Qcut.

(** ** External libraries

    The pipeline calls [pd.to_datetime] and the estimators of [lifetimes];
    their code is not part of the repository, so they are an interface:
    each function returns its result or the exception it raises. *)
Class Libraries : Type := {
  (** [pd.to_datetime] on a whole column: the parsed timestamps. *)
  to_datetime : column -> exn + list Z;
  (** Fitted [BetaGeoFitter] and [GammaGammaFitter] models. *)
  BGF : Type;
  GGF : Type;
  (** [BetaGeoFitter(penalizer_coef).fit(frequency, recency, T)] *)
  BetaGeoFitter_fit : Q -> column -> column -> column -> exn + BGF;
  (** [bgf.predict(t, frequency, recency, T)] *)
  BetaGeoFitter_predict : BGF -> Z -> column -> column -> column -> exn + list float64;
  (** [GammaGammaFitter(penalizer_coef).fit(frequency, monetary_value)] *)
  GammaGammaFitter_fit : Q -> column -> column -> exn + GGF;
  (** [ggf.conditional_expected_average_profit(frequency)] *)
  conditional_expected_average_profit : GGF -> column -> exn + list float64;
  (** [ggf.customer_lifetime_value(bgf, frequency, recency, T,
      monetary_value, time, freq, discount_rate)] *)
  customer_lifetime_value :
    GGF -> BGF -> column -> column -> column -> column ->
    Z -> string -> Q -> exn + list float64
}.

(** ** Sample data and stand-ins for the external libraries

    The pipeline is stated for any date parser and any estimator.  The
    instances below are used to run it on sample tables: a parser of
    ISO dates ([YYYY-MM-DD]) and naive estimators. *)

Module Example.

Definition digit (a : Ascii.ascii) : option Z :=
  let n := Z.of_nat (Ascii.nat_of_ascii a) in
  if (48 <=? n) && (n <=? 57) then Some (n - 48) else None.

Fixpoint number (s : string) (acc : Z) : option Z :=
  match s with
  | EmptyString => Some acc
  | String a s' =>
      match digit a with
      | Some d => number s' (10 * acc + d)
      | None => None
      end
  end.

(** Days from 1970-01-01 to the given civil date. *)
Definition days_from_civil (y m d : Z) : Z :=
  let y := if m <=? 2 then y - 1 else y in
  let era := y / 400 in
  let yoe := y - era * 400 in
  let doy := (153 * (if 2 <? m then m - 3 else m + 9) + 2) / 5 + d - 1 in
  let doe := yoe * 365 + yoe / 4 - yoe / 100 + doy in
  era * 146097 + doe - 719468.

Definition parse_date (s : string) : option Z :=
  if negb (String.length s =? 10)%nat then None
  else if negb (String.eqb (String.substring 4 1 s) "-"
                && String.eqb (String.substring 7 1 s) "-") then None
  else
    match number (String.substring 0 4 s) 0,
          number (String.substring 5 2 s) 0,
          number (String.substring 8 2 s) 0 with
    | Some y, Some m, Some d => Some (Pd.Timedelta_days (days_from_civil y m d))
    | _, _, _ => None
    end.

Fixpoint parse_dates (xs : list string) : option (list Z) :=
  match xs with
  | [] => Some []
  | x :: xs' =>
      match parse_date x, parse_dates xs' with
      | Some t, Some ts => Some (t :: ts)
      | _, _ => None
      end
  end.

(** [pd.to_datetime]: dates stay as they are, strings are parsed. *)
Definition iso_to_datetime (c : column) : exn + list Z :=
  match c with
  | ColDate xs => inr xs
  | ColObj xs =>
      match parse_dates xs with
      | Some ts => inr ts
      | None => inl ValueError
      end
  | _ => inl TypeError
  end.

Definition date (s : string) : Z := default 0 (parse_date s).

(** Naive estimators: expected sales are the past rate of purchase times
    the period, the expected value of an order is its past average, the
    lifetime value is their product over the horizon. *)
Definition naive_bgf_fit (penalizer : Q) (frequency recency T : column)
  : exn + unit :=
  match frequency, recency, T with
  | ColNum _, ColNum _, ColNum _ => inr tt
  | _, _, _ => inl TypeError
  end.

Definition naive_predict (bgf : unit) (t : Z) (frequency recency T : column)
  : exn + list float64 :=
  match frequency, T with
  | ColNum f, ColNum w =>
      inr (zip_with (fun x y => F64.div (F64.mul (F64.of_Z t) x) y) f w)
  | _, _ => inl TypeError
  end.

Definition naive_ggf_fit (penalizer : Q) (frequency monetary : column)
  : exn + list float64 :=
  match frequency, monetary with
  | ColNum _, ColNum m => inr m
  | _, _ => inl TypeError
  end.

Definition naive_average_profit (ggf : list float64) (frequency : column)
  : exn + list float64 := inr ggf.

Definition naive_lifetime_value (ggf : list float64) (bgf : unit)
    (frequency recency T monetary : column) (time : Z) (freq : string)
    (discount_rate : Q) : exn + list float64 :=
  match naive_predict bgf (time * 4) frequency recency T with
  | inr sales => inr (zip_with F64.mul sales ggf)
  | inl e => inl e
  end.

Definition libraries : Libraries := {|
  to_datetime := iso_to_datetime;
  BGF := unit;
  GGF := list float64;
  BetaGeoFitter_fit := naive_bgf_fit;
  BetaGeoFitter_predict := naive_predict;
  GammaGammaFitter_fit := naive_ggf_fit;
  conditional_expected_average_profit := naive_average_profit;
  customer_lifetime_value := naive_lifetime_value
|}.

Definition nums (xs : list Z) : column := ColNum (map F64.of_Z xs).

(** Two customers: one with three online orders over ten weeks, one with
    a single order. *)
Definition customers : DataFrame :=
  [("master_id", ColObj ["c-001"; "c-002"]);
   ("order_channel", ColObj ["Mobile"; "Desktop"]);
   ("first_order_date", ColObj ["2021-01-01"; "2021-03-01"]);
   ("last_order_date", ColObj ["2021-03-12"; "2021-03-01"]);
   ("last_order_date_online", ColObj ["2021-03-12"; "2021-03-01"]);
   ("order_num_total_ever_online", nums [3; 1]);
   ("order_num_total_ever_offline", nums [0; 0]);
   ("customer_value_total_ever_offline", nums [0; 0]);
   ("customer_value_total_ever_online", nums [300; 50])].

(** The same table with a later last order for the second customer. *)
Definition customers_later : DataFrame :=
  Pd.setitem customers "last_order_date" (ColObj ["2021-03-12"; "2021-05-30"]).

(** The customers table once prepared. *)
Definition customers_prepared : DataFrame :=
  [("master_id", ColObj ["c-001"; "c-002"]);
   ("order_channel", ColObj ["Mobile"; "Desktop"]);
   ("first_order_date", ColDate [date "2021-01-01"; date "2021-03-01"]);
   ("last_order_date", ColDate [date "2021-03-12"; date "2021-03-01"]);
   ("last_order_date_online", ColDate [date "2021-03-12"; date "2021-03-01"]);
   ("order_num_total_ever_online", nums [3; 1]);
   ("order_num_total_ever_offline", nums [0; 0]);
   ("customer_value_total_ever_offline", nums [0; 0]);
   ("customer_value_total_ever_online", nums [300; 50]);
   ("total_order_num", nums [3; 1]);
   ("customer_value_total", nums [300; 50])].

(** Two other customers, not yet prepared. *)
Definition other_customers : DataFrame :=
  [("master_id", ColObj ["c-101"; "c-102"]);
   ("order_channel", ColObj ["Desktop"; "Desktop"]);
   ("first_order_date", ColObj ["2020-06-01"; "2020-09-15"]);
   ("last_order_date", ColObj ["2021-02-01"; "2021-04-20"]);
   ("last_order_date_online", ColObj ["2021-02-01"; "2021-04-20"]);
   ("order_num_total_ever_online", nums [5; 2]);
   ("order_num_total_ever_offline", nums [2; 0]);
   ("customer_value_total_ever_offline", nums [80; 0]);
   ("customer_value_total_ever_online", nums [410; 120])].


(** 101 customers, one of them with 100 online orders, the others with
    none: two distinct values only. *)
Definition skewed_counts : list float64 :=
  map F64.of_Z (repeat 0 100 ++ [100]).

(** 101 customers: ten each with 1, 2, ..., 10 online orders, and one with
    1000: eleven distinct values. *)
Definition spread_counts : list float64 :=
  map F64.of_Z (flat_map (fun _ => [1; 2; 3; 4; 5; 6; 7; 8; 9; 10]) (seq 0 10) ++ [1000]).

Definition zeros : column := nums (repeat 0 101).

Definition table_of_counts (online : list float64) : DataFrame :=
  [("first_order_date", ColObj (repeat "2021-01-01" 101));
   ("last_order_date", ColObj (repeat "2021-03-01" 101));
   ("order_num_total_ever_online", ColNum online);
   ("order_num_total_ever_offline", zeros);
   ("customer_value_total_ever_offline", zeros);
   ("customer_value_total_ever_online", zeros)].

Definition skewed : DataFrame := table_of_counts skewed_counts.
Definition spread : DataFrame := table_of_counts spread_counts.

(** The spread counts followed by a missing value. *)
Definition counts_with_gap : list float64 := spread_counts ++ [NaN].

Definition gapped : DataFrame :=
  [("order_num_total_ever_online", ColNum counts_with_gap)].


(** Two customers with the same history. *)
Definition twins : DataFrame :=
  [("master_id", ColObj ["c-021"; "c-022"]);
   ("first_order_date", ColObj ["2021-01-01"; "2021-01-01"]);
   ("last_order_date", ColObj ["2021-03-12"; "2021-03-12"]);
   ("order_num_total_ever_online", nums [2; 2]);
   ("order_num_total_ever_offline", nums [0; 0]);
   ("customer_value_total_ever_offline", nums [0; 0]);
   ("customer_value_total_ever_online", nums [100; 100])].

(** Twelve customers, each with a last order on a day of its own. *)
Definition twelve_customers : DataFrame :=
  [("master_id",
    ColObj ["c-101"; "c-102"; "c-103"; "c-104"; "c-105"; "c-106";
            "c-107"; "c-108"; "c-109"; "c-110"; "c-111"; "c-112"]);
   ("first_order_date",
    ColObj ["2020-01-01"; "2020-02-01"; "2020-03-01"; "2020-04-01";
            "2020-05-01"; "2020-06-01"; "2020-07-01"; "2020-08-01";
            "2020-09-01"; "2020-10-01"; "2020-11-01"; "2020-12-01"]);
   ("last_order_date",
    ColObj ["2021-01-05"; "2021-01-06"; "2021-01-07"; "2021-01-08";
            "2021-01-09"; "2021-01-10"; "2021-01-11"; "2021-01-12";
            "2021-01-13"; "2021-01-14"; "2021-01-15"; "2021-01-16"]);
   ("order_num_total_ever_online", nums [1; 2; 3; 4; 5; 6; 7; 8; 9; 10; 11; 12]);
   ("order_num_total_ever_offline", nums [0; 0; 0; 0; 0; 0; 0; 0; 0; 0; 0; 0]);
   ("customer_value_total_ever_offline", nums [0; 0; 0; 0; 0; 0; 0; 0; 0; 0; 0; 0]);
   ("customer_value_total_ever_online",
    nums [100; 200; 300; 400; 500; 600; 700; 800; 900; 1000; 1100; 1200])].

(** States: one table bound to [df]; [df] prepared and two other tables;
    [df] prepared and a table of other customers; the file system before
    the script runs. *)
Definition state_of (d : DataFrame) : state := mkState [d] None (Some 0%nat) ∅.

Definition three_tables : state :=
  mkState [customers_prepared; customers; customers_later] None (Some 0%nat) ∅.

Definition two_tables : state :=
  mkState [customers_prepared; other_customers] None (Some 0%nat) ∅.

Definition before_script : state :=
  mkState [] None None {[ "dataset/flo_data_20k.csv"%string := customers ]}.

End Example.

(** ** The pipeline of [src/cltv.py] *)

Section Pipeline.

Context {lib : Libraries}.

(** [x in xs] *)
Definition mem (x : string) (xs : list string) : bool :=
  existsb (String.eqb x) xs.

(** [grab_col_names(dataframe, cat_th=10, car_th=20)] (lines 9-42): the
    categorical columns, the categorical columns of high cardinality and
    the numeric columns.  It only reads, so it takes the frame itself. *)
Definition grab_col_names (dataframe : DataFrame) (cat_th car_th : nat)
  : list string * list string * list string :=
  let dtype_O col := from_option Pd.is_object false (Pd.getitem dataframe col) in
  let nunique col := from_option Pd.nunique 0%nat (Pd.getitem dataframe col) in
  let cat_cols := List.filter dtype_O (Pd.columns dataframe) in
  let num_but_cat :=
    List.filter (fun col => (nunique col <? cat_th)%nat && negb (dtype_O col))
      (Pd.columns dataframe) in
  let cat_but_car :=
    List.filter (fun col => (car_th <? nunique col)%nat && dtype_O col)
      (Pd.columns dataframe) in
  let cat_cols := cat_cols ++ num_but_cat in
  let cat_cols := List.filter (fun col => negb (mem col cat_but_car)) cat_cols in
  let num_cols := List.filter (fun col => negb (dtype_O col)) (Pd.columns dataframe) in
  let num_cols := List.filter (fun col => negb (mem col num_but_cat)) num_cols in
  (cat_cols, cat_but_car, num_cols).

(** Cells of a numeric column.  On a column of strings or categories
    [quantile] raises TypeError.  On a column of dates pandas computes the
    quantiles and limits as timestamps, and the TypeError comes two lines
    later from [round(low_limit, 0)], before anything is assigned: the
    model raises it where the cells are read, so [outlier_thresholds] on
    its own is modelled for numeric columns only. *)
Definition numeric_cells (c : column) : exn + list float64 :=
  match c with
  | ColNum xs => inr xs
  | _ => inl TypeError
  end.

(** [outlier_thresholds(dataframe, column, low_quantile=0.01,
    up_quantile=0.99)] (lines 45-71) *)
Definition low_quantile_default : Q := 1 # 100.
Definition up_quantile_default : Q := 99 # 100.

Definition outlier_thresholds (dataframe : loc) (column : string)
    (low_quantile up_quantile : Q) : M (float64 * float64) :=
  cells ← Heap.getitem dataframe column ≫= (fun c => lift (numeric_cells c));
  let quantile1 := Pd.quantile cells low_quantile in
  let quantile3 := Pd.quantile cells up_quantile in
  let interquantile_range := F64.sub quantile3 quantile1 in
  let up_limit := F64.add quantile3 (F64.mul (Fin (3 # 2)) interquantile_range) in
  let low_limit := F64.sub quantile1 (F64.mul (Fin (3 # 2)) interquantile_range) in
  mret (low_limit, up_limit).

(** [dataframe.loc[cmp(dataframe[column], limit), column] = value] *)
Definition loc_setitem (dataframe : loc) (column : string)
    (cmp : float64 -> float64 -> bool) (limit value : float64) : M unit :=
  cells ← Heap.getitem dataframe column ≫= (fun c => lift (numeric_cells c));
  let mask := map (fun x => cmp x limit) cells in
  Heap.setitem dataframe column (ColNum (Pd.loc_assign mask cells value)).

(** [replace_with_thresholds(dataframe, column)] (lines 74-92): two
    assignments in turn, the second on the column as the first left it. *)
Definition replace_with_thresholds (dataframe : loc) (column : string) : M unit :=
  '(low_limit, up_limit) ←
    outlier_thresholds dataframe column low_quantile_default up_quantile_default;
  loc_setitem dataframe column F64.ltb low_limit (F64.round0 low_limit) ;;
  loc_setitem dataframe column F64.gtb up_limit (F64.round0 up_limit).

(** [data_prep(dataframe)] (lines 95-120): caps the numeric columns, adds
    the two totals, converts the columns named [*date*]; all in place, and
    returns the reference it was given.  The conversions are all computed
    before any is assigned.  The table is taken to have rows: on a table
    without rows [DataFrame.apply] calls nothing, and the columns keep
    their dtype. *)
Definition data_prep (dataframe : loc) : M loc :=
  d ← Heap.load dataframe;
  let '(_, _, numeric) := grab_col_names d 10 20 in
  for_each numeric (fun col => replace_with_thresholds dataframe col) ;;
  online ← Heap.getitem dataframe "order_num_total_ever_online";
  offline ← Heap.getitem dataframe "order_num_total_ever_offline";
  total ← lift (Series.add online offline);
  Heap.setitem dataframe "total_order_num" total ;;
  value_offline ← Heap.getitem dataframe "customer_value_total_ever_offline";
  value_online ← Heap.getitem dataframe "customer_value_total_ever_online";
  value ← lift (Series.add value_offline value_online);
  Heap.setitem dataframe "customer_value_total" value ;;
  d ← Heap.load dataframe;
  let date_cols := List.filter (fun c => Pd.contains c "date") (Pd.columns d) in
  converted ← for_list date_cols (fun c =>
    col ← Heap.getitem dataframe c;
    ts ← lift (to_datetime col);
    mret (c, ColDate ts));
  for_each converted (fun '(c, col) => Heap.setitem dataframe c col) ;;
  mret dataframe.

(** [create_cltv(dataframe)] (lines 123-149).  The analysis date is read
    from the parameter; every [df] in the source is the module variable,
    looked up each time it is evaluated. *)
Definition create_cltv (dataframe : loc) : M loc :=
  dataframe ← data_prep dataframe;
  last_order ← Heap.getitem dataframe "last_order_date";
  analysis_date ← lift (Series.max_plus_days last_order 2);
  cltv ← Heap.alloc [];
  df ← Heap.global_df;
  master_id ← Heap.getitem df "master_id";
  Heap.setitem cltv "customer_id" master_id ;;
  df ← Heap.global_df;
  last ← Heap.getitem df "last_order_date";
  df ← Heap.global_df;
  first ← Heap.getitem df "first_order_date";
  recency ← lift (Series.weeks_between last first);
  Heap.setitem cltv "recency_cltv_weekly" recency ;;
  df ← Heap.global_df;
  first ← Heap.getitem df "first_order_date";
  T ← lift (Series.weeks_since analysis_date first);
  Heap.setitem cltv "T_weekly" T ;;
  df ← Heap.global_df;
  total_order_num ← Heap.getitem df "total_order_num";
  Heap.setitem cltv "frequency" total_order_num ;;
  df ← Heap.global_df;
  customer_value_total ← Heap.getitem df "customer_value_total";
  frequency ← Heap.getitem cltv "frequency";
  monetary ← lift (Series.div customer_value_total frequency);
  Heap.setitem cltv "monetary_cltv_avg" monetary ;;
  mret cltv.

(** [f"exp_sales_{month}_month"] *)
Definition exp_sales_column (month : Z) : string :=
  "exp_sales_" +:+ NilZero.string_of_int (Z.to_int month) +:+ "_month".

(** [modelling(dataframe, month=6)] (lines 152-187); [None] is an
    omitted argument. *)
Definition modelling (dataframe : loc) (month_arg : option Z) : M loc :=
  let month := default 6 month_arg in
  dataframe ← create_cltv dataframe;
  frequency ← Heap.getitem dataframe "frequency";
  recency ← Heap.getitem dataframe "recency_cltv_weekly";
  T ← Heap.getitem dataframe "T_weekly";
  bgf ← lift (BetaGeoFitter_fit (1 # 1000) frequency recency T);
  frequency ← Heap.getitem dataframe "frequency";
  recency ← Heap.getitem dataframe "recency_cltv_weekly";
  T ← Heap.getitem dataframe "T_weekly";
  sales3 ← lift (BetaGeoFitter_predict bgf 12 frequency recency T);
  Heap.setitem dataframe "exp_sales_3_month" (ColNum sales3) ;;
  frequency ← Heap.getitem dataframe "frequency";
  recency ← Heap.getitem dataframe "recency_cltv_weekly";
  T ← Heap.getitem dataframe "T_weekly";
  sales ← lift (BetaGeoFitter_predict bgf (month * 4) frequency recency T);
  Heap.setitem dataframe (exp_sales_column month) (ColNum sales) ;;
  frequency ← Heap.getitem dataframe "frequency";
  monetary ← Heap.getitem dataframe "monetary_cltv_avg";
  ggf ← lift (GammaGammaFitter_fit (1 # 100) frequency monetary);
  frequency ← Heap.getitem dataframe "frequency";
  average ← lift (conditional_expected_average_profit ggf frequency);
  Heap.setitem dataframe "exp_average_value" (ColNum average) ;;
  frequency ← Heap.getitem dataframe "frequency";
  recency ← Heap.getitem dataframe "recency_cltv_weekly";
  T ← Heap.getitem dataframe "T_weekly";
  monetary ← Heap.getitem dataframe "monetary_cltv_avg";
  clv ← lift (customer_lifetime_value ggf bgf frequency recency T monetary
                month "W" (1 # 100));
  Heap.setitem dataframe "cltv" (ColNum clv) ;;
  mret dataframe.

(** [dataframe.to_csv(path)], for a path that can be written: a write
    that the file system refuses is not modelled. *)
Definition to_csv (dataframe : loc) (path : string) : M unit :=
  d ← Heap.load dataframe; Heap.write_file path d.

(** [cltv_final(dataframe, segment_count, segments, csv=True)] (lines
    190-217); [segment_count] and [segments] have no default. *)
Definition cltv_final (dataframe : loc) (segment_count : Z)
    (segments : list string) (csv_arg : option bool) : M loc :=
  let csv := default true csv_arg in
  dataframe ← modelling dataframe None;
  scores ← Heap.getitem dataframe "cltv" ≫= (fun c => lift (numeric_cells c));
  segment ← lift (Qcut.qcut scores segment_count segments);
  Heap.setitem dataframe "segment" (ColCat segment) ;;
  (if csv then to_csv dataframe "cltv_flo.csv" else mret tt) ;;
  mret dataframe.

(** A call of [cltv_final] as Python binds its arguments to the signature
    of line 190; [None] is an omitted argument.  [segment_count] and
    [segments] have no default there, and a call that leaves one of them
    out raises TypeError before the body runs. *)
Definition call_cltv_final (dataframe : loc) (segment_count : option Z)
    (segments : option (list string)) (csv_arg : option bool) : M loc :=
  match segment_count, segments with
  | Some segment_count, Some segments =>
      cltv_final dataframe segment_count segments csv_arg
  | _, _ => raise TypeError
  end.

(** The statements at module level (lines 220-223): load the data set,
    copy it, bind [df], run the pipeline with 6 segments. *)
Definition set_df_org (r : loc) : M unit := fun s =>
  Ok tt (mkState (heap s) (Some r) (g_df s) (files s)).

Definition set_df (r : loc) : M unit := fun s =>
  Ok tt (mkState (heap s) (g_df_org s) (Some r) (files s)).

Definition default_segments : list string := ["F"; "D"; "C"; "B"; "A"; "S"].

Definition main : M loc :=
  df_org ← Heap.read_file "dataset/flo_data_20k.csv" ≫= Heap.alloc;
  set_df_org df_org ;;
  df ← Heap.load df_org ≫= Heap.alloc;
  set_df df ;;
  df ← Heap.global_df;
  cltv_final df 6 default_segments None.

(** ** The outlier report of [src/research.py]

    [research.py] holds the same [grab_col_names], [outlier_thresholds]
    and [replace_with_thresholds] as [cltv.py] (lines 39-63 and 74-77),
    and [check_outlier] besides. *)

(** [check_outlier(dataframe, column)] (research.py, lines 66-71): the
    rows whose cell of [column] lies outside the limits are selected, and
    the answer is whether any cell of the selection is true. *)
Definition check_outlier (dataframe : loc) (column : string) : M bool :=
  '(low_limit, up_limit) ←
    outlier_thresholds dataframe column low_quantile_default up_quantile_default;
  above ← Heap.getitem dataframe column ≫= (fun c => lift (numeric_cells c));
  below ← Heap.getitem dataframe column ≫= (fun c => lift (numeric_cells c));
  let mask := zip_with orb (map (fun x => F64.gtb x up_limit) above)
                           (map (fun x => F64.ltb x low_limit) below) in
  d ← Heap.load dataframe;
  lift (Frame.any (Pd.select_rows d mask)) ≫= (fun found : bool =>
  if found then mret true else mret false).

(** *** Specification-level definitions *)

Definition nonnan (x : float64) : Prop := F64.isnan x = false.

(** The outlier limits [(low, high)] of a column of cells. *)
Definition limits (cells : list float64) : float64 * float64 :=
  let quantile1 := Pd.quantile cells low_quantile_default in
  let quantile3 := Pd.quantile cells up_quantile_default in
  let interquantile_range := F64.sub quantile3 quantile1 in
  (F64.sub quantile1 (F64.mul (Fin (3 # 2)) interquantile_range),
   F64.add quantile3 (F64.mul (Fin (3 # 2)) interquantile_range)).

(** A cell clipped to the rounded limits. *)
Definition clip (low high x : float64) : float64 :=
  if F64.ltb x low then F64.round0 low
  else if F64.gtb x high then F64.round0 high
  else x.

(** A column of cells capped by its own limits. *)
Definition capped (cells : list float64) : list float64 :=
  map (clip (limits cells).1 (limits cells).2) cells.

(** A computation that leaves the file system as it found it, whether it
    returns or raises. *)
Definition preserves_files {A} (m : M A) : Prop :=
  forall s, files (final_state (m s)) = files s.

(** The columns [data_prep] caps, and the frame after capping them in turn. *)
Definition numeric_columns (d : DataFrame) : list string :=
  (grab_col_names d 10 20).2.

Definition cap_column (d : DataFrame) (c : string) : DataFrame :=
  match Pd.getitem d c with
  | Some (ColNum xs) => Pd.setitem d c (ColNum (capped xs))
  | _ => d
  end.

Definition cap_columns (d : DataFrame) (cols : list string) : DataFrame :=
  fold_left cap_column cols d.

(** The columns [data_prep] converts to dates, and a frame after a series
    of column assignments. *)
Definition date_columns (d : DataFrame) : list string :=
  List.filter (fun c => Pd.contains c "date") (Pd.columns d).

Definition set_columns (d : DataFrame) (cols : list (string * column)) : DataFrame :=
  fold_left (fun d '(c, col) => Pd.setitem d c col) cols d.

(** [col] is the date conversion of column [c] of frame [d]. *)
Definition converted_from (d : DataFrame) (c : string) (col : column) : Prop :=
  exists old ts,
    Pd.getitem d c = Some old /\ to_datetime old = inr ts /\ col = ColDate ts.

(** [prepared d d1]: [d1] is the frame [data_prep] leaves in place of [d]:
    numeric columns capped, the two totals added, date columns converted. *)
Definition prepared (d d1 : DataFrame) : Prop :=
  exists online offline total value_offline value_online value converted,
    let dA := cap_columns d (numeric_columns d) in
    let dB := Pd.setitem (Pd.setitem dA "total_order_num" total)
                "customer_value_total" value in
    Pd.getitem dA "order_num_total_ever_online" = Some online /\
    Pd.getitem dA "order_num_total_ever_offline" = Some offline /\
    Series.add online offline = inr total /\
    Pd.getitem dA "customer_value_total_ever_offline" = Some value_offline /\
    Pd.getitem dA "customer_value_total_ever_online" = Some value_online /\
    Series.add value_offline value_online = inr value /\
    Forall2 (fun c p => p.1 = c /\ converted_from dB c p.2) (date_columns dB) converted /\
    d1 = set_columns dB converted.

(** [features_of G analysis_date cltv]: [cltv] is the feature table that
    [create_cltv] builds from the frame [G] bound to [df] and from the
    analysis date. *)
Definition features_of (G : DataFrame) (analysis_date : option Z)
    (cltv : DataFrame) : Prop :=
  exists master_id last first recency T frequency value monetary,
    Pd.getitem G "master_id" = Some master_id /\
    Pd.getitem G "last_order_date" = Some last /\
    Pd.getitem G "first_order_date" = Some first /\
    Series.weeks_between last first = inr recency /\
    Series.weeks_since analysis_date first = inr T /\
    Pd.getitem G "total_order_num" = Some frequency /\
    Pd.getitem G "customer_value_total" = Some value /\
    Series.div value frequency = inr monetary /\
    cltv = [("customer_id", master_id); ("recency_cltv_weekly", recency);
            ("T_weekly", T); ("frequency", frequency);
            ("monetary_cltv_avg", monetary)].

(** The analysis date read off a prepared table: two days after the
    latest [last_order_date]; [None] is NaT. *)
Definition analysis_date_of (d : DataFrame) : option Z :=
  match Pd.getitem d "last_order_date" with
  | Some (ColDate xs) => (fun t => t + Pd.Timedelta_days 2) <$> Pd.max_date xs
  | _ => None
  end.

(** A computation that, when it returns, has written no object of the heap
    other than [c]. *)
Definition writes_only {A} (c : loc) (m : M A) : Prop :=
  forall s a s', m s = Ok a s' ->
    forall l, l <> c -> heap s' !! l = heap s !! l.

(** Two cells hold the same value: equal rationals (whatever the
    fraction that represents them), the same infinity, or both NaN. *)
Definition feq (a b : float64) : Prop := Qcut.same_edge a b = true.

(** An outcome in which the first [n] objects of the heap [H] are as they
    were, whether it is a result or an exception, and whose result
    satisfies [Q]; a computation all of whose outcomes are such. *)
Definition kept {A} (n : nat) (H : list DataFrame) (o : outcome A)
    (Q : A -> Prop) : Prop :=
  (forall l, (l < n)%nat -> heap (final_state o) !! l = H !! l) /\
  (n <= length (heap (final_state o)))%nat /\
  (forall a s', o = Ok a s' -> Q a).

Definition keeps_below {A} (n : nat) (m : M A) (Q : A -> Prop) : Prop :=
  forall s, (n <= length (heap s))%nat -> kept n (heap s) (m s) Q.

(** A cell outside the limits: what both [check_outlier] and
    [replace_with_thresholds] look for. *)
Definition outside (low high x : float64) : bool :=
  F64.gtb x high || F64.ltb x low.

(** A column of finite cells and missing values: no infinity. *)
Definition finite_or_missing (xs : list float64) : Prop :=
  Forall (fun v => F64.is_finite v || F64.isnan v = true) xs.

(** A cell that holds a whole number. *)
Definition is_integer (x : float64) : Prop :=
  exists z : Z, feq x (F64.of_Z z).

(** A frame of numeric and text columns only, as [pd.read_csv] gives. *)
Definition plain_column (c : column) : bool :=
  match c with ColNum _ | ColObj _ => true | _ => false end.

Definition plain (d : DataFrame) : Prop :=
  Forall (fun p => plain_column p.2 = true) d.

(** The column labels after [dataframe[c] = ...]: [c] is appended unless
    it is there already. *)
Definition with_column (cols : list string) (c : string) : list string :=
  if mem c cols then cols else cols ++ [c].

(** The columns [data_prep] reads to compute the two totals, in the order
    in which it reads them (lines 114-116). *)
Definition required_columns : list string :=
  ["order_num_total_ever_online"; "order_num_total_ever_offline";
   "customer_value_total_ever_offline"; "customer_value_total_ever_online"].


(** * Properties *)

Set Default Proof Using "Type".

(** ** Order and rounding of cells *)

Lemma ltb_Fin a b : F64.ltb (Fin a) (Fin b) = true <-> (a < b)%Q.
Proof. simpl. rewrite Qlt_alt. destruct (a ?= b)%Q; split; congruence. Qed.

Lemma ltb_Fin_false a b : F64.ltb (Fin a) (Fin b) = false <-> (b <= a)%Q.
Proof.
  simpl. destruct (Qcompare_spec a b) as [H|H|H]; split; intros; try congruence; try lra.
Qed.

Lemma le_Fin a b : F64.le (Fin a) (Fin b) <-> (a <= b)%Q.
Proof.
  unfold F64.le. rewrite ltb_Fin_false. simpl. tauto.
Qed.

Lemma le_refl x : F64.isnan x = false -> F64.le x x.
Proof.
  destruct x; intros H; try discriminate; try (repeat split; reflexivity).
  apply le_Fin. lra.
Qed.

Lemma le_trans x y z : F64.le x y -> F64.le y z -> F64.le x z.
Proof.
  destruct x, y, z; intros (?&?&H1) (?&?&H2); try discriminate;
    try (repeat split; reflexivity).
  apply le_Fin. apply ltb_Fin_false in H1, H2. lra.
Qed.

Lemma not_ltb_le x y :
  F64.isnan x = false -> F64.isnan y = false -> F64.ltb y x = false -> F64.le x y.
Proof. unfold F64.le. tauto. Qed.

Lemma ltb_le x y : F64.ltb x y = true -> F64.le x y.
Proof.
  destruct x, y; intros H; try discriminate; try (repeat split; reflexivity).
  apply le_Fin. apply ltb_Fin in H. lra.
Qed.

Lemma le_ltb_false x y : F64.le x y -> F64.ltb y x = false.
Proof. intros (_&_&H). exact H. Qed.

Lemma round_half_even_mono p q :
  (p <= q)%Q -> F64.round_half_even p <= F64.round_half_even q.
Proof.
  intros Hpq. unfold F64.round_half_even.
  pose proof (Qfloor_le p) as Hp1. pose proof (Qlt_floor p) as Hp2.
  pose proof (Qfloor_le q) as Hq1. pose proof (Qlt_floor q) as Hq2.
  assert (Hfl : Qfloor p <= Qfloor q) by (apply Qfloor_resp_le; exact Hpq).
  destruct (Z.eq_dec (Qfloor p) (Qfloor q)) as [E|N].
  - rewrite E in *.
    destruct (Qcompare_spec (p - inject_Z (Qfloor q)) (1#2)) as [H1|H1|H1];
      destruct (Qcompare_spec (q - inject_Z (Qfloor q)) (1#2)) as [H2|H2|H2];
      try lia; try (exfalso; lra); destruct (Z.even (Qfloor q)); lia.
  - assert (Qfloor p + 1 <= Qfloor q) by lia.
    destruct (p - inject_Z (Qfloor p) ?= 1#2)%Q, (q - inject_Z (Qfloor q) ?= 1#2)%Q;
      try destruct (Z.even (Qfloor p)); try destruct (Z.even (Qfloor q)); lia.
Qed.

Lemma round_half_even_Z z : F64.round_half_even (inject_Z z) = z.
Proof.
  unfold F64.round_half_even. rewrite Qfloor_Z.
  destruct (Qcompare_spec (inject_Z z - inject_Z z) (1#2)) as [H|H|H]; try lra.
  reflexivity.
Qed.

(** When the rounded lower limit exceeds the upper limit, both limits
    round to the same value: the second assignment of
    [replace_with_thresholds] cannot undo the first. *)
Lemma round0_squeeze low high :
  F64.le low high ->
  F64.gtb (F64.round0 low) high = true ->
  F64.round0 high = F64.round0 low.
Proof.
  unfold F64.gtb.
  destruct low as [l| | |], high as [h| | |]; intros Hle Hgt;
    try (destruct Hle as (?&?&?); discriminate); try discriminate; try reflexivity.
  apply le_Fin in Hle. simpl in Hgt |- *.
  assert (Hlt : (h < inject_Z (F64.round_half_even l))%Q).
  { apply Qlt_alt. destruct (h ?= inject_Z (F64.round_half_even l))%Q; congruence. }
  pose proof (round_half_even_mono l h Hle) as H1.
  assert (H2 : F64.round_half_even h <= F64.round_half_even l).
  { pose proof (round_half_even_mono h (inject_Z (F64.round_half_even l))) as H2.
    rewrite round_half_even_Z in H2. apply H2. lra. }
  f_equal. f_equal. lia.
Qed.

(** ** Sorting and quantiles *)

Lemma insert_sorted_Forall (P : float64 -> Prop) x l :
  Forall P (Pd.insert_sorted x l) <-> P x /\ Forall P l.
Proof.
  induction l as [|y l IH]; simpl.
  - rewrite Forall_singleton, Forall_nil. tauto.
  - destruct (F64.ltb y x); rewrite !Forall_cons; [rewrite IH|]; tauto.
Qed.

Lemma insert_sorted_sorted x l :
  nonnan x -> Forall nonnan l ->
  StronglySorted F64.le l -> StronglySorted F64.le (Pd.insert_sorted x l).
Proof.
  intros Hx Hl Hs. induction Hs as [|y l Hs IH Hy]; simpl.
  - repeat constructor.
  - apply Forall_cons in Hl as [Hny Hl].
    destruct (F64.ltb y x) eqn:E.
    + constructor; [auto|]. apply insert_sorted_Forall. split; [|exact Hy].
      apply ltb_le. exact E.
    + assert (Hxy : F64.le x y) by (apply not_ltb_le; assumption).
      constructor; [constructor; assumption|].
      constructor; [exact Hxy|].
      eapply Forall_impl; [exact Hy|]. intros z Hz. eapply le_trans; eassumption.
Qed.

Lemma dropna_nonnan xs : Forall nonnan (Pd.dropna xs).
Proof.
  unfold Pd.dropna. apply Forall_forall. intros x Hx.
  apply list_elem_of_In, filter_In in Hx as [_ Hx].
  unfold nonnan. destruct (F64.isnan x); [discriminate|reflexivity].
Qed.

Lemma sort_nonnan xs : Forall nonnan xs -> Forall nonnan (Pd.sort xs).
Proof.
  induction 1 as [|x xs Hx Hxs IH]; simpl; [constructor|].
  apply insert_sorted_Forall. split; assumption.
Qed.

Lemma sort_sorted xs : Forall nonnan xs -> StronglySorted F64.le (Pd.sort xs).
Proof.
  induction 1 as [|x xs Hx Hxs IH]; simpl; [constructor|].
  apply insert_sorted_sorted; auto using sort_nonnan.
Qed.

Lemma sorted_nth l i j :
  Forall nonnan l -> StronglySorted F64.le l ->
  (i <= j < length l)%nat -> F64.le (nth i l NaN) (nth j l NaN).
Proof.
  intros Hn Hs. revert i j. induction Hs as [|x l Hs IH Hx]; intros i j Hij.
  - simpl in Hij. lia.
  - apply Forall_cons in Hn as [Hnx Hn]. simpl in Hij.
    destruct i as [|i], j as [|j]; simpl; try lia.
    + apply le_refl. exact Hnx.
    + rewrite Forall_forall in Hx. apply Hx.
      apply list_elem_of_In, nth_In. lia.
    + apply IH; [exact Hn|lia].
Qed.

Ltac f64_crush :=
  unfold Pd.lerp, F64.sub, F64.add, F64.mul, F64.neg, F64.sgn, F64.inf_of_sign,
    F64.gtb;
  simpl;
  repeat match goal with
    | |- context [(?x ?= ?y)%Q] => destruct (Qcompare_spec x y); simpl
    end;
  try discriminate; try (exfalso; lra).

Lemma lerp_bounds a b t :
  F64.le a b -> (0 <= t)%Q -> (t < 1)%Q ->
  nonnan (Pd.lerp a b t) ->
  F64.le a (Pd.lerp a b t) /\ F64.le (Pd.lerp a b t) b.
Proof.
  intros Hab H0 H1. unfold nonnan.
  destruct a as [a| | |], b as [b| | |];
    try (destruct Hab as (?&?&?); discriminate);
    unfold Pd.lerp; destruct (Qle_bool (1#2) t) eqn:E; f64_crush; intros _;
    try (split; repeat split; reflexivity).
  - apply le_Fin in Hab. rewrite !le_Fin. split; nra.
  - apply le_Fin in Hab. rewrite !le_Fin. split; nra.
Qed.

Lemma lerp_mono a b t1 t2 :
  F64.le a b -> (0 <= t1)%Q -> (t1 <= t2)%Q -> (t2 < 1)%Q ->
  nonnan (Pd.lerp a b t1) -> nonnan (Pd.lerp a b t2) ->
  F64.le (Pd.lerp a b t1) (Pd.lerp a b t2).
Proof.
  intros Hab H0 H12 H1. unfold nonnan.
  destruct a as [a| | |], b as [b| | |];
    try (destruct Hab as (?&?&?); discriminate);
    unfold Pd.lerp;
    destruct (Qle_bool (1#2) t1) eqn:E1; destruct (Qle_bool (1#2) t2) eqn:E2;
    f64_crush; intros _ _; try (repeat split; reflexivity);
    apply le_Fin in Hab; rewrite le_Fin; nra.
Qed.

Lemma percentile_mono l q1 q2 :
  l <> [] -> Forall nonnan l -> StronglySorted F64.le l ->
  (0 <= q1)%Q -> (q1 <= q2)%Q -> (q2 <= 1)%Q ->
  nonnan (Pd.percentile l q1) -> nonnan (Pd.percentile l q2) ->
  F64.le (Pd.percentile l q1) (Pd.percentile l q2).
Proof.
  intros Hne Hn Hs H0 H12 H1. unfold Pd.percentile.
  assert (Hlen : (0 < length l)%nat) by (destruct l; [congruence|simpl; lia]).
  set (m := (length l - 1)%nat).
  set (M := inject_Z (Z.of_nat m)).
  assert (HM : (0 <= M)%Q).
  { unfold M. rewrite <- (Zle_Qle 0). lia. }
  set (v1 := (q1 * M)%Q). set (v2 := (q2 * M)%Q).
  assert (Hv1 : (0 <= v1)%Q) by (unfold v1; nra).
  assert (Hv12 : (v1 <= v2)%Q) by (unfold v1, v2; nra).
  assert (Hv2 : (v2 <= M)%Q) by (unfold v2; nra).
  pose proof (Qfloor_le v1) as Hf1. pose proof (Qlt_floor v1) as Hf1'.
  pose proof (Qfloor_le v2) as Hf2. pose proof (Qlt_floor v2) as Hf2'.
  assert (Hfl : Qfloor v1 <= Qfloor v2) by (apply Qfloor_resp_le; exact Hv12).
  assert (Hfl0 : 0 <= Qfloor v1).
  { change 0 with (Qfloor 0). apply Qfloor_resp_le. exact Hv1. }
  assert (Hflm : Qfloor v2 <= Z.of_nat m).
  { rewrite <- (Qfloor_Z (Z.of_nat m)). apply Qfloor_resp_le. exact Hv2. }
  set (i1 := Z.to_nat (Qfloor v1)). set (i2 := Z.to_nat (Qfloor v2)).
  rewrite inject_Z_plus in Hf1', Hf2'. change (inject_Z 1) with 1%Q in Hf1', Hf2'.
  assert (Hb : forall i, (i <= m)%nat ->
            F64.le (nth i l NaN) (nth (Nat.min (S i) m) l NaN)).
  { intros i Hi. apply sorted_nth; [assumption..|]. subst m. lia. }
  intros Hr1 Hr2.
  destruct (Z.eq_dec (Qfloor v1) (Qfloor v2)) as [E|N].
  - subst i1 i2. rewrite <- E in *.
    apply lerp_mono; try assumption; try lra.
    apply Hb. lia.
  - assert (Hi12 : (S i1 <= i2)%nat) by (subst i1 i2; lia).
    assert (Hi2 : (i2 <= m)%nat) by (subst i2; lia).
    destruct (lerp_bounds (nth i1 l NaN) (nth (Nat.min (S i1) m) l NaN)
                (v1 - inject_Z (Qfloor v1))) as [_ Hup];
      [apply Hb; lia | lra | lra | exact Hr1 |].
    destruct (lerp_bounds (nth i2 l NaN) (nth (Nat.min (S i2) m) l NaN)
                (v2 - inject_Z (Qfloor v2))) as [Hlo _];
      [apply Hb; lia | lra | lra | exact Hr2 |].
    eapply le_trans; [exact Hup|]. eapply le_trans; [|exact Hlo].
    apply sorted_nth; [assumption..|]. subst m. lia.
Qed.

Lemma quantile_mono xs q1 q2 :
  (0 <= q1)%Q -> (q1 <= q2)%Q -> (q2 <= 1)%Q ->
  nonnan (Pd.quantile xs q1) -> nonnan (Pd.quantile xs q2) ->
  F64.le (Pd.quantile xs q1) (Pd.quantile xs q2).
Proof.
  intros H0 H12 H1. unfold Pd.quantile.
  pose proof (sort_nonnan _ (dropna_nonnan xs)) as Hn.
  pose proof (sort_sorted _ (dropna_nonnan xs)) as Hs.
  destruct (Pd.sort (Pd.dropna xs)) as [|v vs]; [discriminate|].
  apply percentile_mono; try assumption. discriminate.
Qed.

(** The limits are ordered, unless both are NaN (and then no cell compares
    below or above them). *)
Lemma limits_ordered xs :
  ((limits xs).1 = NaN /\ (limits xs).2 = NaN) \/ F64.le (limits xs).1 (limits xs).2.
Proof.
  unfold limits. cbn [fst snd].
  pose proof (quantile_mono xs low_quantile_default up_quantile_default) as Hm.
  unfold nonnan in Hm.
  destruct (Pd.quantile xs low_quantile_default) as [a| | |] eqn:E1;
    destruct (Pd.quantile xs up_quantile_default) as [b| | |] eqn:E2;
    try (left; split; reflexivity);
    (assert (Hle : F64.le (Pd.quantile xs low_quantile_default)
                     (Pd.quantile xs up_quantile_default))
      by (rewrite E1, E2; apply Hm; unfold low_quantile_default, up_quantile_default;
          first [reflexivity | lra]);
     rewrite E1, E2 in Hle);
    try (destruct Hle as (?&?&?); discriminate);
    right; f64_crush; try (repeat split; reflexivity).
  apply le_Fin in Hle. apply le_Fin. lra.
Qed.

(** ** Frames and the heap *)

Lemma getitem_setitem_eq d c col : Pd.getitem (Pd.setitem d c col) c = Some col.
Proof.
  induction d as [|[k c0] d IH]; simpl.
  - rewrite String.eqb_refl. reflexivity.
  - destruct (String.eqb k c) eqn:E; simpl; rewrite E; [reflexivity|exact IH].
Qed.

Lemma getitem_setitem_ne d c c' col :
  c <> c' -> Pd.getitem (Pd.setitem d c col) c' = Pd.getitem d c'.
Proof.
  intros Hne. induction d as [|[k c0] d IH]; simpl.
  - apply String.eqb_neq in Hne. rewrite Hne. reflexivity.
  - destruct (String.eqb k c) eqn:E; simpl.
    + apply String.eqb_eq in E. subst k. apply String.eqb_neq in Hne. rewrite Hne.
      reflexivity.
    + destruct (String.eqb k c'); [reflexivity|exact IH].
Qed.

Lemma setitem_setitem d c a b :
  Pd.setitem (Pd.setitem d c a) c b = Pd.setitem d c b.
Proof.
  induction d as [|[k c0] d IH]; simpl.
  - rewrite String.eqb_refl. reflexivity.
  - destruct (String.eqb k c) eqn:E; simpl; rewrite E; [reflexivity|].
    rewrite IH. reflexivity.
Qed.

Lemma columns_setitem_present d c col :
  is_Some (Pd.getitem d c) -> Pd.columns (Pd.setitem d c col) = Pd.columns d.
Proof.
  unfold Pd.columns. induction d as [|[k c0] d IH]; simpl; intros [x Hx].
  - discriminate.
  - destruct (String.eqb k c) eqn:E; simpl; [reflexivity|].
    rewrite IH; eauto.
Qed.

Lemma bind_run {A B} (m : M A) (f : A -> M B) s a s1 :
  m s = Ok a s1 -> (m ≫= f) s = f a s1.
Proof. intros H. unfold mbind, M_bind. rewrite H. reflexivity. Qed.

Lemma bind_raise {A B} (m : M A) (f : A -> M B) s e s1 :
  m s = Raise e s1 -> (m ≫= f) s = Raise e s1.
Proof. intros H. unfold mbind, M_bind. rewrite H. reflexivity. Qed.

Lemma bind_inv {A B} (m : M A) (f : A -> M B) s b s' :
  (m ≫= f) s = Ok b s' -> exists a s1, m s = Ok a s1 /\ f a s1 = Ok b s'.
Proof.
  unfold mbind, M_bind. destruct (m s) as [a s1|e s1]; [eauto|discriminate].
Qed.

Lemma getitem_run r c s d col :
  heap s !! r = Some d -> Pd.getitem d c = Some col ->
  Heap.getitem r c s = Ok col s.
Proof.
  intros Hr Hc. unfold Heap.getitem, Heap.load, mbind, M_bind.
  rewrite Hr, Hc. reflexivity.
Qed.

Lemma setitem_run r c col s d :
  heap s !! r = Some d ->
  Heap.setitem r c col s = Ok tt (with_heap s (<[r := Pd.setitem d c col]> (heap s))).
Proof.
  intros Hr. unfold Heap.setitem, Heap.load, Heap.store, mbind, M_bind.
  rewrite Hr. reflexivity.
Qed.

Lemma numeric_cells_run r c s d xs :
  heap s !! r = Some d -> Pd.getitem d c = Some (ColNum xs) ->
  (Heap.getitem r c ≫= (fun col => lift (numeric_cells col))) s = Ok xs s.
Proof.
  intros Hr Hc. erewrite bind_run by (eapply getitem_run; eassumption).
  reflexivity.
Qed.

Lemma loc_assign_map {A} (p : A -> bool) (xs : list A) (v : A) :
  Pd.loc_assign (map p xs) xs v = map (fun x => if p x then v else x) xs.
Proof.
  unfold Pd.loc_assign. induction xs as [|x xs IH]; simpl; [reflexivity|].
  rewrite IH. reflexivity.
Qed.

Lemma loc_setitem_run r c cmp limit value s d xs :
  heap s !! r = Some d -> Pd.getitem d c = Some (ColNum xs) ->
  loc_setitem r c cmp limit value s =
  Ok tt (with_heap s (<[r := Pd.setitem d c
           (ColNum (map (fun x => if cmp x limit then value else x) xs))]> (heap s))).
Proof.
  intros Hr Hc. unfold loc_setitem.
  erewrite bind_run by (eapply numeric_cells_run; eassumption).
  rewrite loc_assign_map. apply setitem_run. exact Hr.
Qed.

Lemma outlier_thresholds_run r c s d xs :
  heap s !! r = Some d -> Pd.getitem d c = Some (ColNum xs) ->
  outlier_thresholds r c low_quantile_default up_quantile_default s
  = Ok ((limits xs).1, (limits xs).2) s.
Proof.
  intros Hr Hc. unfold outlier_thresholds.
  erewrite bind_run by (eapply numeric_cells_run; eassumption).
  reflexivity.
Qed.

(** ** Outlier capping *)

Lemma below_above_exclusive low high x :
  F64.le low high -> F64.ltb x low = true -> F64.gtb x high = true -> False.
Proof.
  unfold F64.gtb. destruct low, high, x; intros (_&_&Hle) Hlo Hhi; try discriminate.
  apply ltb_Fin_false in Hle. apply ltb_Fin in Hlo, Hhi. lra.
Qed.

(** The two assignments of [replace_with_thresholds], cell by cell, are
    the clipping of the cell. *)
Lemma two_assignments_clip xs x :
  let low := (limits xs).1 in
  let high := (limits xs).2 in
  let y := if F64.ltb x low then F64.round0 low else x in
  (if F64.gtb y high then F64.round0 high else y) = clip low high x
  /\ ~ (F64.ltb x low = true /\ F64.gtb x high = true).
Proof.
  intros low high y. subst y. unfold clip.
  destruct (limits_ordered xs) as [[E1 E2]|Hle]; fold low in E1 || fold low in Hle;
    fold high in E2 || fold high in Hle.
  - rewrite E1, E2. unfold F64.gtb. simpl.
    assert (Hx : F64.ltb x NaN = false) by (destruct x; reflexivity).
    rewrite Hx. split; [reflexivity|]. intros [? ?]. discriminate.
  - split.
    + destruct (F64.ltb x low) eqn:E; [|reflexivity].
      destruct (F64.gtb (F64.round0 low) high) eqn:E'; [|reflexivity].
      apply round0_squeeze; assumption.
    + intros [H1 H2]. eapply below_above_exclusive; eassumption.
Qed.

Lemma replace_with_thresholds_run r c s d xs :
  heap s !! r = Some d -> Pd.getitem d c = Some (ColNum xs) ->
  replace_with_thresholds r c s
  = Ok tt (with_heap s (<[r := Pd.setitem d c (ColNum (capped xs))]> (heap s))).
Proof.
  intros Hr Hc. unfold replace_with_thresholds.
  erewrite bind_run by (eapply outlier_thresholds_run; eassumption).
  cbv beta iota.
  erewrite bind_run by (eapply loc_setitem_run; eassumption).
  erewrite loc_setitem_run.
  2:{ cbn [heap with_heap]. apply list_lookup_insert_eq.
      eapply lookup_lt_Some. exact Hr. }
  2:{ apply getitem_setitem_eq. }
  unfold with_heap. cbn [heap g_df_org g_df files].
  rewrite list_insert_insert_eq, setitem_setitem, map_map.
  do 5 f_equal. unfold capped. apply map_ext. intros x.
  apply (two_assignments_clip xs x).
Qed.

(** C1. For a numeric column, outlier capping takes Q1 and Q3 as the 0.01
    and 0.99 quantiles of the column, sets [low = Q1 - 1.5 * (Q3 - Q1)] and
    [high = Q3 + 1.5 * (Q3 - Q1)], and rewrites the column in place: a cell
    strictly below [low] becomes [round(low, 0)], a cell strictly above
    [high] becomes [round(high, 0)], every other cell is unchanged (no cell
    is both below [low] and above [high]). *)
Theorem replace_with_thresholds_caps (s : state) (r : loc) (d : DataFrame)
    (c : string) (xs : list float64) :
  heap s !! r = Some d ->
  Pd.getitem d c = Some (ColNum xs) ->
  let Q1 := Pd.quantile xs (1 # 100) in
  let Q3 := Pd.quantile xs (99 # 100) in
  let low := F64.sub Q1 (F64.mul (Fin (3 # 2)) (F64.sub Q3 Q1)) in
  let high := F64.add Q3 (F64.mul (Fin (3 # 2)) (F64.sub Q3 Q1)) in
  outlier_thresholds r c (1 # 100) (99 # 100) s = Ok (low, high) s /\
  exists ys : list float64,
    replace_with_thresholds r c s
    = Ok tt (with_heap s (<[r := Pd.setitem d c (ColNum ys)]> (heap s))) /\
    length ys = length xs /\
    forall (i : nat) (x : float64), xs !! i = Some x ->
      ys !! i = Some (if F64.ltb x low then F64.round0 low
                      else if F64.gtb x high then F64.round0 high
                      else x)
      /\ ~ (F64.ltb x low = true /\ F64.gtb x high = true).
Proof.
  intros Hr Hc Q1 Q3 low high. split.
  - apply (outlier_thresholds_run r c s d xs Hr Hc).
  - exists (capped xs). split; [|split].
    + apply replace_with_thresholds_run; assumption.
    + unfold capped. apply length_map.
    + intros i x Hx. split.
      * unfold capped. change (map ?f ?l) with (f <$> l).
        rewrite list_lookup_fmap, Hx. reflexivity.
      * apply (two_assignments_clip xs x).
Qed.

(** ** The file system is written by [to_csv] only *)

Lemma pres_ret {A} (a : A) : preserves_files (mret a : M A).
Proof. intros s. reflexivity. Qed.

Lemma pres_raise {A} e : preserves_files (raise e : M A).
Proof. intros s. reflexivity. Qed.

Lemma pres_lift {A} (x : exn + A) : preserves_files (lift x).
Proof. destruct x; [apply pres_raise|apply pres_ret]. Qed.

Lemma pres_bind {A B} (m : M A) (f : A -> M B) :
  preserves_files m -> (forall a, preserves_files (f a)) ->
  preserves_files (m ≫= f).
Proof.
  intros Hm Hf s. unfold mbind, M_bind. specialize (Hm s).
  destruct (m s) as [a s1|e s1]; simpl in *; [|exact Hm].
  rewrite Hf. exact Hm.
Qed.

Lemma pres_load r : preserves_files (Heap.load r).
Proof. intros s. unfold Heap.load. destruct (heap s !! r); reflexivity. Qed.

Lemma pres_store r d : preserves_files (Heap.store r d).
Proof. intros s. reflexivity. Qed.

Lemma pres_alloc d : preserves_files (Heap.alloc d).
Proof. intros s. reflexivity. Qed.

Lemma pres_global_df : preserves_files Heap.global_df.
Proof. intros s. unfold Heap.global_df. destruct (g_df s); reflexivity. Qed.

Lemma pres_getitem r c : preserves_files (Heap.getitem r c).
Proof.
  apply pres_bind; [apply pres_load|]. intros d.
  destruct (Pd.getitem d c); [apply pres_ret|apply pres_raise].
Qed.

Lemma pres_setitem r c col : preserves_files (Heap.setitem r c col).
Proof. apply pres_bind; [apply pres_load|]. intros d. apply pres_store. Qed.

Lemma pres_for_each {A} (xs : list A) (body : A -> M unit) :
  (forall x, preserves_files (body x)) -> preserves_files (for_each xs body).
Proof.
  intros Hb. induction xs as [|x xs IH]; simpl; [apply pres_ret|].
  apply pres_bind; [apply Hb|]. intros _. exact IH.
Qed.

Lemma pres_for_list {A B} (xs : list A) (f : A -> M B) :
  (forall x, preserves_files (f x)) -> preserves_files (for_list xs f).
Proof.
  intros Hf. induction xs as [|x xs IH]; simpl; [apply pres_ret|].
  apply pres_bind; [apply Hf|]. intros y.
  apply pres_bind; [exact IH|]. intros ys. apply pres_ret.
Qed.

Ltac pres_step :=
  first
    [ apply pres_ret | apply pres_raise | apply pres_lift | apply pres_load
    | apply pres_store | apply pres_alloc | apply pres_global_df
    | apply pres_getitem | apply pres_setitem
    | apply pres_for_each; intros
    | apply pres_for_list; intros
    | apply pres_bind; [|intros] ].

Ltac pres :=
  repeat (pres_step
          || match goal with
             | |- preserves_files (let '(_, _) := ?x in _) => destruct x
             | |- preserves_files (match ?x with _ => _ end) => destruct x
             end).

Lemma pres_replace_with_thresholds r c :
  preserves_files (replace_with_thresholds r c).
Proof. unfold replace_with_thresholds, outlier_thresholds, loc_setitem. pres. Qed.

Lemma pres_data_prep r : preserves_files (data_prep r).
Proof.
  unfold data_prep. pres; try apply pres_replace_with_thresholds.
Qed.

Lemma pres_create_cltv r : preserves_files (create_cltv r).
Proof. unfold create_cltv. pres; apply pres_data_prep. Qed.

Lemma pres_modelling r month : preserves_files (modelling r month).
Proof. unfold modelling. pres; apply pres_create_cltv. Qed.

(** ** Label count *)

Lemma length_bins x q : length (Qcut.bins x q) = S q.
Proof. unfold Qcut.bins, Qcut.linspace. rewrite !length_map, length_seq. reflexivity. Qed.

Lemma qcut_label_mismatch x q labels :
  Z.of_nat (length labels) <> q -> exists e, Qcut.qcut x q labels = inl e.
Proof.
  intros Hne. unfold Qcut.qcut.
  destruct (q <? -1) eqn:E1; [eauto|].
  destruct (q =? -1) eqn:E2; [eauto|].
  destruct (_ && _); [eauto|].
  destruct (negb (length (Pd.unique String.eqb labels) =? length labels)%nat); [eauto|].
  rewrite length_bins.
  replace (length labels =? S (Z.to_nat q) - 1)%nat with false; [simpl; eauto|].
  symmetry. apply Nat.eqb_neq. lia.
Qed.

(** C3. When the number of labels differs from [segment_count],
    [cltv_final] raises, and the file system is then as it was before the
    call: no CSV file has been created or overwritten. *)
Theorem cltv_final_label_mismatch (s : state) (dataframe : loc)
    (segment_count : Z) (segments : list string) (csv : option bool) :
  Z.of_nat (length segments) <> segment_count ->
  exists (e : exn) (s' : state),
    cltv_final dataframe segment_count segments csv s = Raise e s' /\
    files s' = files s.
Proof.
  intros Hne. unfold cltv_final.
  pose proof (pres_modelling dataframe None s) as Hm.
  unfold mbind at 1. unfold M_bind at 1.
  destruct (modelling dataframe None s) as [cltv s1|e s1]; simpl in Hm; [|eauto].
  pose proof (pres_getitem cltv "cltv" s1) as Hg.
  unfold mbind at 1. unfold M_bind at 1.
  unfold mbind at 1. unfold M_bind at 1.
  destruct (Heap.getitem cltv "cltv" s1) as [col s2|e s2]; simpl in Hg;
    [|exists e, s2; split; [reflexivity|congruence]].
  destruct col as [scores| | |]; simpl;
    try (exists TypeError, s2; split; [reflexivity|congruence]).
  destruct (qcut_label_mismatch scores segment_count segments Hne) as [e He].
  unfold mbind at 1. unfold M_bind at 1. rewrite He. simpl.
  exists e, s2. split; [reflexivity|congruence].
Qed.

(** ** Inversion of successful runs *)

Lemma with_heap_id s : with_heap s (heap s) = s.
Proof. destruct s. reflexivity. Qed.

Lemma with_heap_with_heap s h1 h2 : with_heap (with_heap s h1) h2 = with_heap s h2.
Proof. reflexivity. Qed.

Lemma ret_inv {A} (a b : A) s s' : (mret a : M A) s = Ok b s' -> b = a /\ s' = s.
Proof. intros H. inversion H. auto. Qed.

Lemma lift_inv {A} (x : exn + A) s a s' : lift x s = Ok a s' -> x = inr a /\ s' = s.
Proof. destruct x; intros H; inversion H. auto. Qed.

Lemma load_inv r s d s' : Heap.load r s = Ok d s' -> s' = s /\ heap s !! r = Some d.
Proof.
  unfold Heap.load. destruct (heap s !! r); intros H; inversion H. auto.
Qed.

Lemma getitem_inv r c s col s' :
  Heap.getitem r c s = Ok col s' ->
  s' = s /\ exists d, heap s !! r = Some d /\ Pd.getitem d c = Some col.
Proof.
  unfold Heap.getitem. intros H. apply bind_inv in H as (d & s1 & Hl & H).
  apply load_inv in Hl as [-> Hl].
  destruct (Pd.getitem d c) eqn:E; inversion H. subst. eauto.
Qed.

Lemma setitem_inv r c col s u s' :
  Heap.setitem r c col s = Ok u s' ->
  exists d, heap s !! r = Some d /\
            s' = with_heap s (<[r := Pd.setitem d c col]> (heap s)).
Proof.
  unfold Heap.setitem. intros H. apply bind_inv in H as (d & s1 & Hl & H).
  apply load_inv in Hl as [-> Hl]. inversion H. eauto.
Qed.

Lemma alloc_inv d s r s' :
  Heap.alloc d s = Ok r s' -> r = length (heap s) /\ s' = with_heap s (heap s ++ [d]).
Proof. intros H. inversion H. auto. Qed.

Lemma global_df_inv s r s' : Heap.global_df s = Ok r s' -> s' = s /\ g_df s = Some r.
Proof.
  unfold Heap.global_df. destruct (g_df s); intros H; inversion H. auto.
Qed.

Lemma numeric_cells_inv r c s xs s' :
  (Heap.getitem r c ≫= (fun col => lift (numeric_cells col))) s = Ok xs s' ->
  s' = s /\ exists d, heap s !! r = Some d /\ Pd.getitem d c = Some (ColNum xs).
Proof.
  intros H. apply bind_inv in H as (col & s1 & Hg & H).
  apply getitem_inv in Hg as [-> (d & Hr & Hc)].
  apply lift_inv in H as [H ->]. split; [reflexivity|].
  destruct col; inversion H. subst. eauto.
Qed.

Lemma replace_with_thresholds_inv r c s u s' :
  replace_with_thresholds r c s = Ok u s' ->
  exists d xs, heap s !! r = Some d /\ Pd.getitem d c = Some (ColNum xs) /\
    s' = with_heap s (<[r := Pd.setitem d c (ColNum (capped xs))]> (heap s)).
Proof.
  intros H. pose proof H as H0. unfold replace_with_thresholds in H.
  apply bind_inv in H as ([low up] & s1 & Ht & _).
  unfold outlier_thresholds in Ht. apply bind_inv in Ht as (xs & s2 & Hc & _).
  apply numeric_cells_inv in Hc as [-> (d & Hr & Hc)].
  exists d, xs. split; [exact Hr|]. split; [exact Hc|].
  rewrite (replace_with_thresholds_run r c s d xs Hr Hc) in H0. inversion H0.
  reflexivity.
Qed.

Lemma cap_loop_inv r cols : forall s d u s',
  heap s !! r = Some d ->
  for_each cols (fun col => replace_with_thresholds r col) s = Ok u s' ->
  s' = with_heap s (<[r := cap_columns d cols]> (heap s)).
Proof.
  induction cols as [|c cols IH]; intros s d u s' Hr H; simpl in H.
  - inversion H. subst. simpl. rewrite list_insert_id by exact Hr.
    symmetry. apply with_heap_id.
  - apply bind_inv in H as (u1 & s1 & H1 & H).
    apply replace_with_thresholds_inv in H1 as (d' & xs & Hr' & Hc & ->).
    rewrite Hr in Hr'. inversion Hr'. subst d'.
    eapply IH in H.
    2:{ cbn [heap with_heap]. apply list_lookup_insert_eq.
        eapply lookup_lt_Some. exact Hr. }
    rewrite H. cbn [heap with_heap]. rewrite with_heap_with_heap.
    rewrite list_insert_insert_eq.
    change (cap_columns d (c :: cols)) with (cap_columns (cap_column d c) cols).
    replace (cap_column d c) with (Pd.setitem d c (ColNum (capped xs)));
      [reflexivity|].
    unfold cap_column. rewrite Hc. reflexivity.
Qed.

Lemma convert_loop_inv r d cols : forall s converted s',
  heap s !! r = Some d ->
  for_list cols (fun c =>
    col ← Heap.getitem r c; ts ← lift (to_datetime col); mret (c, ColDate ts)) s
  = Ok converted s' ->
  s' = s /\ Forall2 (fun c p => p.1 = c /\ converted_from d c p.2) cols converted.
Proof.
  induction cols as [|c cols IH]; intros s converted s' Hr H; simpl in H.
  - inversion H. subst. split; [reflexivity|constructor].
  - apply bind_inv in H as (p & s1 & Hp & H).
    apply bind_inv in Hp as (col & s2 & Hg & Hp).
    apply getitem_inv in Hg as [-> (d' & Hr' & Hc)].
    rewrite Hr in Hr'. inversion Hr'. subst d'.
    apply bind_inv in Hp as (ts & s3 & Ht & Hp).
    apply lift_inv in Ht as [Ht ->]. apply ret_inv in Hp as [-> ->].
    apply bind_inv in H as (ps & s4 & Hps & H).
    apply IH in Hps as [-> Hps]; [|exact Hr].
    apply ret_inv in H as [-> ->]. split; [reflexivity|].
    constructor; [|exact Hps]. split; [reflexivity|].
    exists col, ts. auto.
Qed.

Lemma assign_loop_inv r converted : forall s d u s',
  heap s !! r = Some d ->
  for_each converted (fun '(c, col) => Heap.setitem r c col) s = Ok u s' ->
  s' = with_heap s (<[r := set_columns d converted]> (heap s)).
Proof.
  induction converted as [|[c col] converted IH]; intros s d u s' Hr H; simpl in H.
  - inversion H. subst. simpl. rewrite list_insert_id by exact Hr.
    symmetry. apply with_heap_id.
  - apply bind_inv in H as (u1 & s1 & H1 & H).
    apply setitem_inv in H1 as (d' & Hr' & ->).
    rewrite Hr in Hr'. inversion Hr'. subst d'.
    eapply IH in H.
    2:{ cbn [heap with_heap]. apply list_lookup_insert_eq.
        eapply lookup_lt_Some. exact Hr. }
    rewrite H. cbn [heap with_heap]. rewrite with_heap_with_heap.
    rewrite list_insert_insert_eq. reflexivity.
Qed.

Lemma lookup_with_heap_insert s r (d d' : DataFrame) :
  heap s !! r = Some d -> heap (with_heap s (<[r := d']> (heap s))) !! r = Some d'.
Proof.
  intros Hr. cbn [heap with_heap]. apply list_lookup_insert_eq.
  eapply lookup_lt_Some. exact Hr.
Qed.

Lemma data_prep_inv r s r' s' :
  data_prep r s = Ok r' s' ->
  r' = r /\ exists d d1,
    heap s !! r = Some d /\ prepared d d1 /\
    s' = with_heap s (<[r := d1]> (heap s)).
Proof.
  unfold data_prep. intros H.
  apply bind_inv in H as (d & s0 & Hl & H). apply load_inv in Hl as [-> Hr].
  destruct (grab_col_names d 10 20) as [[cat car] numeric] eqn:G.
  assert (Hnum : numeric = numeric_columns d) by (unfold numeric_columns; rewrite G; reflexivity).
  apply bind_inv in H as (u & s1 & Hcap & H).
  eapply cap_loop_inv in Hcap; [|exact Hr]. subst s1. rewrite Hnum in H.
  set (dA := cap_columns d (numeric_columns d)) in *.
  pose proof (lookup_with_heap_insert s r d dA Hr) as HrA.
  apply bind_inv in H as (online & s1 & Hon & H).
  apply getitem_inv in Hon as [-> (d' & Hr' & Hon)].
  rewrite HrA in Hr'. inversion Hr'. subst d'. clear Hr'.
  apply bind_inv in H as (offline & s1 & Hoff & H).
  apply getitem_inv in Hoff as [-> (d' & Hr' & Hoff)].
  rewrite HrA in Hr'. inversion Hr'. subst d'. clear Hr'.
  apply bind_inv in H as (total & s1 & Htot & H). apply lift_inv in Htot as [Htot ->].
  apply bind_inv in H as (u1 & s1 & Hset & H).
  apply setitem_inv in Hset as (d' & Hr' & ->).
  rewrite HrA in Hr'. inversion Hr'. subst d'. clear Hr'.
  rewrite with_heap_with_heap in H. cbn [heap with_heap] in H.
  rewrite list_insert_insert_eq in H.
  set (dA' := Pd.setitem dA "total_order_num" total) in *.
  pose proof (lookup_with_heap_insert s r d dA' Hr) as HrA'.
  apply bind_inv in H as (voff & s1 & Hvoff & H).
  apply getitem_inv in Hvoff as [-> (d' & Hr' & Hvoff)].
  rewrite HrA' in Hr'. inversion Hr'. subst d'. clear Hr'.
  apply bind_inv in H as (von & s1 & Hvon & H).
  apply getitem_inv in Hvon as [-> (d' & Hr' & Hvon)].
  rewrite HrA' in Hr'. inversion Hr'. subst d'. clear Hr'.
  apply bind_inv in H as (value & s1 & Hval & H). apply lift_inv in Hval as [Hval ->].
  apply bind_inv in H as (u2 & s1 & Hset & H).
  apply setitem_inv in Hset as (d' & Hr' & ->).
  rewrite HrA' in Hr'. inversion Hr'. subst d'. clear Hr'.
  rewrite with_heap_with_heap in H. cbn [heap with_heap] in H.
  rewrite list_insert_insert_eq in H.
  set (dB := Pd.setitem dA' "customer_value_total" value) in *.
  pose proof (lookup_with_heap_insert s r d dB Hr) as HrB.
  apply bind_inv in H as (d' & s1 & Hl & H). apply load_inv in Hl as [-> Hr'].
  rewrite HrB in Hr'. inversion Hr'. subst d'. clear Hr'.
  apply bind_inv in H as (converted & s1 & Hconv & H).
  eapply convert_loop_inv in Hconv as [-> Hconv]; [|exact HrB].
  apply bind_inv in H as (u3 & s1 & Hassign & H).
  eapply assign_loop_inv in Hassign; [|exact HrB]. subst s1.
  apply ret_inv in H as [-> ->]. split; [reflexivity|].
  exists d, (set_columns dB converted). split; [exact Hr|]. split.
  - exists online, offline, total, voff, von, value, converted.
    fold dA. cbv zeta. fold dA'. fold dB.
    unfold dA' in Hvoff, Hvon.
    rewrite getitem_setitem_ne in Hvoff by discriminate.
    rewrite getitem_setitem_ne in Hvon by discriminate.
    repeat split; assumption.
  - rewrite with_heap_with_heap. cbn [heap with_heap].
    rewrite list_insert_insert_eq. reflexivity.
Qed.

Lemma write_fresh (H : list DataFrame) (cur x : DataFrame) :
  <[length H := x]> (H ++ [cur]) = H ++ [x].
Proof.
  replace (length H) with (length H + 0)%nat by lia.
  rewrite insert_app_r. reflexivity.
Qed.

Lemma read_fresh (H : list DataFrame) (cur : DataFrame) :
  (H ++ [cur]) !! length H = Some cur.
Proof. apply list_lookup_middle. reflexivity. Qed.

Ltac read_global H Hg :=
  let r := fresh "r" in let s1 := fresh "s" in let Hgd := fresh "Hgd" in
  apply bind_inv in H as (r & s1 & Hgd & H);
  apply global_df_inv in Hgd as [-> Hgd];
  cbn [g_df with_heap] in Hgd; rewrite Hg in Hgd; injection Hgd as <-.

Ltac read_frame H x Hx HG :=
  let s1 := fresh "s" in let d' := fresh "d" in let Hr' := fresh "Hr" in
  apply bind_inv in H as (x & s1 & Hx & H);
  apply getitem_inv in Hx as [-> (d' & Hr' & Hx)];
  cbn [heap with_heap] in Hr';
  first [rewrite read_fresh in Hr' | rewrite HG in Hr'];
  injection Hr' as <-.

Ltac write_fresh_frame H :=
  let u := fresh "u" in let s1 := fresh "s" in let d' := fresh "d" in
  let Hr' := fresh "Hr" in let Hset := fresh "Hset" in
  apply bind_inv in H as (u & s1 & Hset & H);
  apply setitem_inv in Hset as (d' & Hr' & ->);
  cbn [heap with_heap] in Hr'; rewrite read_fresh in Hr'; injection Hr' as <-;
  rewrite with_heap_with_heap in H; cbn [heap with_heap] in H;
  rewrite write_fresh in H; cbn [Pd.setitem String.eqb Ascii.eqb Bool.eqb] in H.

Lemma create_cltv_inv r s c s' :
  create_cltv r s = Ok c s' ->
  exists d d1 last_order analysis_date g G cltv,
    heap s !! r = Some d /\ prepared d d1 /\
    Pd.getitem d1 "last_order_date" = Some last_order /\
    Series.max_plus_days last_order 2 = inr analysis_date /\
    g_df s = Some g /\ g <> c /\
    <[r := d1]> (heap s) !! g = Some G /\
    features_of G analysis_date cltv /\
    c = length (heap s) /\
    s' = with_heap s (<[r := d1]> (heap s) ++ [cltv]).
Proof.
  unfold create_cltv. intros H.
  apply bind_inv in H as (r' & s1 & Hprep & H).
  apply data_prep_inv in Hprep as [-> (d & d1 & Hr & Hprep & ->)].
  pose proof (lookup_with_heap_insert s r d d1 Hr) as Hr1.
  cbn [heap with_heap] in Hr1.
  read_frame H last_order Hlo Hr1.
  apply bind_inv in H as (analysis_date & s1 & Hmax & H).
  apply lift_inv in Hmax as [Hmax ->].
  apply bind_inv in H as (c0 & s1 & Halloc & H).
  apply alloc_inv in Halloc as [-> ->].
  rewrite with_heap_with_heap in H. cbn [heap with_heap] in H.
  set (H1 := <[r := d1]> (heap s)) in *.
  destruct (g_df s) as [g|] eqn:Hg.
  2:{ apply bind_inv in H as (r0 & s1 & Hgd & H).
      apply global_df_inv in Hgd as [_ Hgd]. cbn [g_df with_heap] in Hgd.
      congruence. }
  read_global H Hg.
  (* the first read of [df] finds a column: [df] is not the fresh frame *)
  apply bind_inv in H as (master_id & s1 & Hmid & H).
  apply getitem_inv in Hmid as [-> (G & HG0 & Hmid)].
  cbn [heap with_heap] in HG0.
  assert (Hgc : g <> length H1).
  { intros ->. rewrite read_fresh in HG0. injection HG0 as <-. discriminate. }
  assert (HG : forall cur, (H1 ++ [cur]) !! g = Some G).
  { intros cur. apply lookup_lt_Some in HG0 as Hlt. rewrite length_app in Hlt.
    simpl in Hlt. rewrite lookup_app_l in HG0 |- * by lia. exact HG0. }
  write_fresh_frame H.
  read_global H Hg. read_frame H last_col Hlast HG.
  read_global H Hg. read_frame H first_col Hfirst HG.
  apply bind_inv in H as (recency & s1 & Hrec & H). apply lift_inv in Hrec as [Hrec ->].
  write_fresh_frame H.
  read_global H Hg. read_frame H first_col' Hfirst' HG.
  rewrite Hfirst in Hfirst'. injection Hfirst' as <-.
  apply bind_inv in H as (T & s1 & HT & H). apply lift_inv in HT as [HT ->].
  write_fresh_frame H.
  read_global H Hg. read_frame H frequency Hfreq HG.
  write_fresh_frame H.
  read_global H Hg. read_frame H total_value Hval HG.
  read_frame H frequency' Hfreq' HG.
  cbn in Hfreq'. injection Hfreq' as <-.
  apply bind_inv in H as (monetary & s1 & Hmon & H). apply lift_inv in Hmon as [Hmon ->].
  write_fresh_frame H.
  apply ret_inv in H as [-> ->].
  exists d, d1, last_order, analysis_date, g, G.
  eexists. split; [exact Hr|]. split; [exact Hprep|]. split; [exact Hlo|].
  split; [exact Hmax|]. split; [reflexivity|].
  assert (Hlen : length H1 = length (heap s)) by (unfold H1; apply length_insert).
  split; [congruence|]. split.
  { specialize (HG []). apply lookup_lt_Some in HG0 as Hlt. rewrite length_app in Hlt.
    simpl in Hlt. rewrite lookup_app_l in HG by lia. exact HG. }
  split; [|split; [exact Hlen|reflexivity]].
  exists master_id, last_col, first_col, recency, T, frequency, total_value, monetary.
  repeat split; assumption.
Qed.

(** ** The prepared frame *)

Lemma set_columns_getitem_other l : forall d c,
  c ∉ map fst l -> Pd.getitem (set_columns d l) c = Pd.getitem d c.
Proof.
  induction l as [|[k col] l IH]; intros d c Hc; simpl; [reflexivity|].
  simpl in Hc. apply not_elem_of_cons in Hc as [Hck Hc].
  unfold set_columns in IH |- *. simpl. rewrite IH by exact Hc.
  apply getitem_setitem_ne. congruence.
Qed.

Lemma converted_names (P : string -> (string * column) -> Prop) cols converted :
  Forall2 (fun c p => p.1 = c /\ P c p) cols converted -> map fst converted = cols.
Proof.
  induction 1 as [|c p cols converted [Hc _] _ IH]; simpl; [reflexivity|].
  rewrite Hc, IH. reflexivity.
Qed.

Lemma date_columns_contains d c : c ∈ date_columns d -> Pd.contains c "date" = true.
Proof.
  unfold date_columns. intros H. apply list_elem_of_In, filter_In in H as [_ H].
  exact H.
Qed.

Lemma prepared_getitem_plain d d1 c :
  prepared d d1 ->
  Pd.contains c "date" = false ->
  c <> "total_order_num"%string -> c <> "customer_value_total"%string ->
  Pd.getitem d1 c = Pd.getitem (cap_columns d (numeric_columns d)) c.
Proof.
  intros (on & off & total & voff & von & val & converted & H) Hdate H1 H2.
  cbv zeta in H. destruct H as (_ & _ & _ & _ & _ & _ & Hconv & ->).
  rewrite set_columns_getitem_other.
  - rewrite !getitem_setitem_ne by congruence. reflexivity.
  - apply converted_names with (P := fun c p => converted_from _ c p.2) in Hconv.
    rewrite Hconv. intros Hin. apply date_columns_contains in Hin. congruence.
Qed.

Lemma prepared_totals d d1 :
  prepared d d1 ->
  exists online offline total value_offline value_online total_value,
    Pd.getitem d1 "order_num_total_ever_online" = Some online /\
    Pd.getitem d1 "order_num_total_ever_offline" = Some offline /\
    Series.add online offline = inr total /\
    Pd.getitem d1 "total_order_num" = Some total /\
    Pd.getitem d1 "customer_value_total_ever_offline" = Some value_offline /\
    Pd.getitem d1 "customer_value_total_ever_online" = Some value_online /\
    Series.add value_offline value_online = inr total_value /\
    Pd.getitem d1 "customer_value_total" = Some total_value.
Proof.
  intros Hp. pose proof Hp as (on & off & total & voff & von & val & converted & H).
  cbv zeta in H. destruct H as (Hon & Hoff & Htot & Hvoff & Hvon & Hval & Hconv & Hd1).
  exists on, off, total, voff, von, val.
  rewrite !(prepared_getitem_plain d d1) by (try exact Hp; try reflexivity; discriminate).
  assert (Hplain : forall c, Pd.contains c "date" = false ->
            Pd.getitem d1 c = Pd.getitem
              (Pd.setitem (Pd.setitem (cap_columns d (numeric_columns d))
                 "total_order_num" total) "customer_value_total" val) c).
  { intros c Hc. rewrite Hd1. apply set_columns_getitem_other.
    apply converted_names with (P := fun c p => converted_from _ c p.2) in Hconv.
    rewrite Hconv. intros Hin. apply date_columns_contains in Hin. congruence. }
  rewrite !Hplain by reflexivity.
  rewrite getitem_setitem_ne by discriminate.
  rewrite !getitem_setitem_eq. rewrite !getitem_setitem_ne by discriminate.
  repeat split; assumption.
Qed.

(** ** Series operations that succeed *)

Lemma add_num_inv a b xs :
  Series.add a b = inr (ColNum xs) ->
  exists x y, a = ColNum x /\ b = ColNum y /\ xs = zip_with F64.add x y.
Proof. destruct a, b; intros H; inversion H. eauto. Qed.

Lemma div_inv a b c :
  Series.div a b = inr c ->
  exists x y, a = ColNum x /\ b = ColNum y /\ c = ColNum (zip_with F64.div x y).
Proof. destruct a, b; intros H; inversion H. eauto. Qed.

Lemma weeks_between_inv a b c :
  Series.weeks_between a b = inr c ->
  exists x y, a = ColDate x /\ b = ColDate y /\
    c = ColNum (zip_with (fun l f => Fin (inject_Z (Pd.days (l - f)) / 7)) x y).
Proof. destruct a, b; intros H; inversion H. eauto. Qed.

Lemma weeks_since_inv t b c :
  Series.weeks_since t b = inr c ->
  exists y, b = ColDate y /\
    c = ColNum (map (fun f =>
          match t with
          | Some a => Fin (inject_Z (Pd.days (a - f)) / 7)
          | None => NaN
          end) y).
Proof.
  destruct b; intros H; inversion H. eexists. split; reflexivity.
Qed.

Lemma max_plus_days_inv a n t :
  Series.max_plus_days a n = inr t ->
  exists x, a = ColDate x /\ t = (fun m => m + Pd.Timedelta_days n) <$> Pd.max_date x.
Proof. destruct a; intros H; inversion H. eauto. Qed.

(** ** Feature derivation *)

(** Feature derivation when the pipeline runs on the table bound to [df]
    (as the script calls it): the feature table is derived from the
    prepared table:
    [analysis_date] is one constant, two days after the maximum
    [last_order_date] of all customers; per customer,
    [recency_cltv_weekly] is the days from first to last order divided by
    7, [T_weekly] the days from first order to [analysis_date] divided by
    7, [frequency] is [total_order_num], the sum of the online and offline
    order counts, and [monetary_cltv_avg] is [customer_value_total] (the
    sum of the offline and online totals) divided by [frequency]. *)
Theorem create_cltv_features (s : state) (dataframe cltv : loc) (s' : state) :
  g_df s = Some dataframe ->
  create_cltv dataframe s = Ok cltv s' ->
  exists (prepared_table : DataFrame) (master_id : column)
         (first_order last_order : list Z)
         (online offline value_offline value_online : list float64),
    heap s' !! dataframe = Some prepared_table /\
    Pd.getitem prepared_table "master_id" = Some master_id /\
    Pd.getitem prepared_table "first_order_date" = Some (ColDate first_order) /\
    Pd.getitem prepared_table "last_order_date" = Some (ColDate last_order) /\
    Pd.getitem prepared_table "order_num_total_ever_online" = Some (ColNum online) /\
    Pd.getitem prepared_table "order_num_total_ever_offline" = Some (ColNum offline) /\
    Pd.getitem prepared_table "customer_value_total_ever_offline"
      = Some (ColNum value_offline) /\
    Pd.getitem prepared_table "customer_value_total_ever_online"
      = Some (ColNum value_online) /\
    let analysis_date :=
      (fun last_date => last_date + 2 * Pd.ns_per_day) <$> Pd.max_date last_order in
    let total_order_num := zip_with F64.add online offline in
    let customer_value_total := zip_with F64.add value_offline value_online in
    Pd.getitem prepared_table "total_order_num" = Some (ColNum total_order_num) /\
    Pd.getitem prepared_table "customer_value_total"
      = Some (ColNum customer_value_total) /\
    heap s' !! cltv = Some
      [("customer_id", master_id);
       ("recency_cltv_weekly",
        ColNum (zip_with (fun l f => Fin (inject_Z (Pd.days (l - f)) / 7))
                  last_order first_order));
       ("T_weekly",
        ColNum (map (fun f =>
                  match analysis_date with
                  | Some a => Fin (inject_Z (Pd.days (a - f)) / 7)
                  | None => NaN
                  end) first_order));
       ("frequency", ColNum total_order_num);
       ("monetary_cltv_avg",
        ColNum (zip_with F64.div customer_value_total total_order_num))].
Proof.
  intros Hg H.
  apply create_cltv_inv in H
    as (d & d1 & lo & analysis & g & G & tbl & Hr & Hprep & Hlo & Hmax & Hg' & Hgc
        & HG & Hfeat & -> & ->).
  rewrite Hg in Hg'. injection Hg' as <-.
  assert (Hlt : (dataframe < length (heap s))%nat) by (eapply lookup_lt_Some; exact Hr).
  rewrite list_lookup_insert_eq in HG by exact Hlt. injection HG as <-.
  destruct Hfeat as (mid & lastc & firstc & rec & T & freq & val & mon
                     & Hmid & Hlast & Hfirst & Hrec & HT & Hfreq & Hval & Hmon & ->).
  rewrite Hlo in Hlast. injection Hlast as <-.
  apply max_plus_days_inv in Hmax as (lod & -> & ->).
  apply weeks_between_inv in Hrec as (lod' & fod & Hl & -> & ->).
  injection Hl as <-.
  apply weeks_since_inv in HT as (fod' & Hf & ->). injection Hf as <-.
  destruct (prepared_totals d d1 Hprep)
    as (on & off & total & voff & von & tval & Hon & Hoff & Htot & Htot' & Hvoff
        & Hvon & Htval & Htval').
  rewrite Hfreq in Htot'. injection Htot' as <-.
  rewrite Hval in Htval'. injection Htval' as <-.
  apply div_inv in Hmon as (V & F & -> & -> & ->).
  apply add_num_inv in Htot as (x & y & -> & -> & ->).
  apply add_num_inv in Htval as (v & w & -> & -> & ->).
  exists d1, mid, fod, lod, x, y, v, w.
  cbn [heap with_heap].
  split; [rewrite lookup_app_l by (rewrite length_insert; exact Hlt);
          apply list_lookup_insert_eq; exact Hlt|].
  do 7 (split; [assumption|]).
  cbv zeta. split; [assumption|]. split; [assumption|].
  rewrite <- (length_insert (heap s) dataframe d1). exact (read_fresh _ _).
Qed.

(** The state after a successful [create_cltv]: the argument holds the
    prepared table, the result is a fresh frame holding the features of
    the table bound to [df], every other object is untouched. *)
Lemma create_cltv_post r s c s' :
  create_cltv r s = Ok c s' ->
  exists d d1 g G cltv,
    heap s !! r = Some d /\ prepared d d1 /\
    heap s' !! r = Some d1 /\
    (exists last_order, Pd.getitem d1 "last_order_date" = Some (ColDate last_order)) /\
    g_df s = Some g /\ heap s' !! g = Some G /\
    features_of G (analysis_date_of d1) cltv /\
    heap s' !! c = Some cltv /\
    c = length (heap s) /\ r <> c /\ g <> c /\
    (g <> r -> heap s !! g = Some G) /\
    heap s' = <[r := d1]> (heap s) ++ [cltv] /\
    g_df s' = g_df s /\ g_df_org s' = g_df_org s /\ files s' = files s.
Proof.
  intros H.
  apply create_cltv_inv in H
    as (d & d1 & lo & analysis & g & G & tbl & Hr & Hprep & Hlo & Hmax & Hg & Hgc
        & HG & Hfeat & -> & ->).
  assert (Hlt : (r < length (heap s))%nat) by (eapply lookup_lt_Some; exact Hr).
  assert (Hgl : (g < length (heap s))%nat).
  { apply lookup_lt_Some in HG. rewrite length_insert in HG. exact HG. }
  apply max_plus_days_inv in Hmax as (lod & -> & ->).
  exists d, d1, g, G, tbl. cbn [heap with_heap g_df g_df_org files].
  split; [exact Hr|]. split; [exact Hprep|].
  split; [rewrite lookup_app_l by (rewrite length_insert; exact Hlt);
          apply list_lookup_insert_eq; exact Hlt|].
  split; [eauto|]. split; [exact Hg|].
  split; [rewrite lookup_app_l by (rewrite length_insert; exact Hgl); exact HG|].
  split; [unfold analysis_date_of; rewrite Hlo; exact Hfeat|].
  split; [rewrite <- (length_insert (heap s) r d1); exact (read_fresh _ _)|].
  split; [reflexivity|]. split; [lia|]. split; [exact Hgc|].
  split; [|auto].
  intros Hne. rewrite list_lookup_insert_ne in HG by congruence. exact HG.
Qed.

Lemma leb_Fin a b : F64.leb (Fin a) (Fin b) = true <-> (a <= b)%Q.
Proof.
  unfold F64.leb. simpl.
  destruct (Qcompare_spec a b) as [H|H|H]; simpl.
  - split; [intros _; lra|]. intros _. apply Qeq_bool_iff. exact H.
  - split; [intros _; lra|reflexivity].
  - split; [|intros; lra]. intros Hb. apply Qeq_bool_iff in Hb. lra.
Qed.

Lemma days_mono x y : x <= y -> Pd.days x <= Pd.days y.
Proof. intros H. unfold Pd.days. apply Z.div_le_mono; [reflexivity|exact H]. Qed.

(** ** Tenure and recency *)

(** C4. In the feature table, [T_weekly >= recency_cltv_weekly] holds for
    every customer, provided [analysis_date] is later than every
    [last_order_date] of the table bound to [df]. *)
Theorem T_weekly_ge_recency (s : state) (dataframe cltv : loc) (s' : state)
    (g : loc) (argument df features : DataFrame) (last_order : list Z)
    (analysis_date : Z) (recency T : list float64) :
  create_cltv dataframe s = Ok cltv s' ->
  g_df s = Some g ->
  heap s' !! dataframe = Some argument ->
  heap s' !! g = Some df ->
  heap s' !! cltv = Some features ->
  analysis_date_of argument = Some analysis_date ->
  Pd.getitem df "last_order_date" = Some (ColDate last_order) ->
  Forall (fun last_date => last_date < analysis_date) last_order ->
  Pd.getitem features "recency_cltv_weekly" = Some (ColNum recency) ->
  Pd.getitem features "T_weekly" = Some (ColNum T) ->
  forall (i : nat) (rec t : float64),
    recency !! i = Some rec -> T !! i = Some t -> F64.geb t rec = true.
Proof.
  intros H Hg Harg Hdf Hfeat Han Hlast Hbefore Hrec HT i rec t Hi Hti.
  apply create_cltv_post in H
    as (d & d1 & g' & G & tbl & _ & _ & Hr1 & _ & Hg' & HG & Hf & Hc & _).
  rewrite Hg in Hg'. injection Hg' as <-.
  rewrite Harg in Hr1. injection Hr1 as <-.
  rewrite Hdf in HG. injection HG as <-.
  rewrite Hfeat in Hc. injection Hc as <-.
  rewrite Han in Hf.
  destruct Hf as (mid & lastc & firstc & rc & Tc & freq & val & mon
                  & _ & Hl & _ & Hrc & HTc & _ & _ & _ & ->).
  rewrite Hlast in Hl. injection Hl as <-.
  apply weeks_between_inv in Hrc as (lod & fod & Hl & -> & ->). injection Hl as <-.
  apply weeks_since_inv in HTc as (fod' & Hf & ->). injection Hf as <-.
  cbn in Hrec, HT. injection Hrec as <-. injection HT as <-.
  rewrite lookup_zip_with in Hi.
  destruct (last_order !! i) as [l|] eqn:El; [|discriminate]. simpl in Hi.
  destruct (fod !! i) as [f|] eqn:Ef; [|discriminate]. simpl in Hi.
  injection Hi as <-.
  change (map ?h fod) with (h <$> fod) in Hti.
  rewrite list_lookup_fmap, Ef in Hti. simpl in Hti. injection Hti as <-.
  unfold F64.geb. apply leb_Fin.
  rewrite Forall_forall in Hbefore.
  assert (Hl : l < analysis_date) by (apply Hbefore; eapply list_elem_of_lookup_2; exact El).
  assert (Hd : Pd.days (l - f) <= Pd.days (analysis_date - f)) by (apply days_mono; lia).
  unfold Qdiv. apply Qmult_le_compat_r; [|compute; discriminate].
  rewrite <- Zle_Qle. exact Hd.
Qed.

Lemma fold_max_ge xs : forall m x, (x = m \/ x ∈ xs) -> x <= fold_left Z.max xs m.
Proof.
  induction xs as [|y xs IH]; intros m x Hx; simpl.
  - destruct Hx as [->|Hx]; [lia|]. apply elem_of_nil in Hx. contradiction.
  - destruct Hx as [->|Hx].
    + etransitivity; [|apply IH; left; reflexivity]. lia.
    + apply elem_of_cons in Hx as [->|Hx].
      * etransitivity; [|apply IH; left; reflexivity]. lia.
      * apply IH. right. exact Hx.
Qed.

(** The precondition of C4 is what the script establishes: on the table
    bound to [df] itself, the analysis date is later than every last
    order. *)
Lemma analysis_date_after_last_order d a xs :
  analysis_date_of d = Some a ->
  Pd.getitem d "last_order_date" = Some (ColDate xs) ->
  Forall (fun last_date => last_date < a) xs.
Proof.
  unfold analysis_date_of. intros Ha Hx. rewrite Hx in Ha.
  destruct xs as [|x xs]; [constructor|]. simpl in Ha. injection Ha as <-.
  apply Forall_forall. intros y Hy.
  assert (y <= fold_left Z.max xs x).
  { apply fold_max_ge. apply elem_of_cons in Hy. tauto. }
  unfold Pd.Timedelta_days, Pd.ns_per_day. lia.
Qed.

(** ** The unguarded division *)


(** ** Reliance on the module variable [df] *)

Lemma features_of_functional G a1 a2 t1 t2 :
  features_of G a1 t1 -> features_of G a2 t2 ->
  (forall col, col <> "T_weekly"%string -> Pd.getitem t1 col = Pd.getitem t2 col) /\
  (a1 = a2 -> t1 = t2).
Proof.
  intros (mid & lastc & firstc & rc & Tc & freq & val & mon
          & Hmid & Hl & Hf & Hrc & HTc & Hfreq & Hval & Hmon & ->)
         (mid' & lastc' & firstc' & rc' & Tc' & freq' & val' & mon'
          & Hmid' & Hl' & Hf' & Hrc' & HTc' & Hfreq' & Hval' & Hmon' & ->).
  rewrite Hmid in Hmid'. injection Hmid' as <-.
  rewrite Hl in Hl'. injection Hl' as <-.
  rewrite Hf in Hf'. injection Hf' as <-.
  rewrite Hfreq in Hfreq'. injection Hfreq' as <-.
  rewrite Hval in Hval'. injection Hval' as <-.
  rewrite Hrc in Hrc'. injection Hrc' as <-.
  rewrite Hmon in Hmon'. injection Hmon' as <-.
  split.
  - intros col Hcol. cbn [Pd.getitem].
    destruct (String.eqb "customer_id" col); [reflexivity|].
    destruct (String.eqb "recency_cltv_weekly" col); [reflexivity|].
    destruct (String.eqb "T_weekly" col) eqn:E;
      [apply String.eqb_eq in E; congruence|].
    reflexivity.
  - intros <-. rewrite HTc in HTc'. injection HTc' as <-. reflexivity.
Qed.

(** C8, as the code has it. [create_cltv] reads [master_id], the order
    dates and the two totals from the module variable [df], not from its
    parameter; from the parameter it takes the analysis date only. For two
    calls on tables other than [df], with the same [df], the returned
    [customer_id], [recency_cltv_weekly], [frequency] and
    [monetary_cltv_avg] are identical, and so is [T_weekly] when the two
    prepared arguments have the same latest [last_order_date]. *)
Theorem create_cltv_reads_global_df (s : state) (g a1 a2 c1 c2 : loc)
    (s1 s2 : state) (t1 t2 : DataFrame) :
  g_df s = Some g -> a1 <> g -> a2 <> g ->
  create_cltv a1 s = Ok c1 s1 ->
  create_cltv a2 s = Ok c2 s2 ->
  heap s1 !! c1 = Some t1 ->
  heap s2 !! c2 = Some t2 ->
  (forall col, col <> "T_weekly"%string -> Pd.getitem t1 col = Pd.getitem t2 col) /\
  (forall arg1 arg2,
     heap s1 !! a1 = Some arg1 -> heap s2 !! a2 = Some arg2 ->
     analysis_date_of arg1 = analysis_date_of arg2 -> t1 = t2).
Proof.
  intros Hg Hne1 Hne2 H1 H2 Ht1 Ht2.
  apply create_cltv_post in H1
    as (d & d1 & g1 & G1 & tbl1 & _ & _ & Hr1 & _ & Hg1 & _ & Hf1 & Hc1 & _ & _ & _
        & HG1 & _).
  apply create_cltv_post in H2
    as (d' & d2 & g2 & G2 & tbl2 & _ & _ & Hr2 & _ & Hg2 & _ & Hf2 & Hc2 & _ & _ & _
        & HG2 & _).
  rewrite Hg in Hg1, Hg2. injection Hg1 as <-. injection Hg2 as <-.
  rewrite Ht1 in Hc1. injection Hc1 as <-.
  rewrite Ht2 in Hc2. injection Hc2 as <-.
  specialize (HG1 ltac:(congruence)). specialize (HG2 ltac:(congruence)).
  rewrite HG1 in HG2. injection HG2 as <-.
  destruct (features_of_functional _ _ _ _ _ Hf1 Hf2) as [Hcols Hall].
  split; [exact Hcols|].
  intros arg1 arg2 Ha1 Ha2 Han.
  rewrite Hr1 in Ha1. injection Ha1 as <-.
  rewrite Hr2 in Ha2. injection Ha2 as <-.
  apply Hall. exact Han.
Qed.

(** ** Which columns are capped *)

Lemma getitem_cap_column_ne d k c : k <> c -> Pd.getitem (cap_column d k) c = Pd.getitem d c.
Proof.
  intros Hne. unfold cap_column.
  destruct (Pd.getitem d k) as [[xs| | |]|]; try reflexivity.
  apply getitem_setitem_ne. exact Hne.
Qed.

Lemma getitem_cap_column_eq d c xs :
  Pd.getitem d c = Some (ColNum xs) ->
  Pd.getitem (cap_column d c) c = Some (ColNum (capped xs)).
Proof. intros H. unfold cap_column. rewrite H. apply getitem_setitem_eq. Qed.

Lemma cap_columns_getitem_out cols : forall d c,
  c ∉ cols -> Pd.getitem (cap_columns d cols) c = Pd.getitem d c.
Proof.
  induction cols as [|k cols IH]; intros d c Hc; [reflexivity|].
  apply not_elem_of_cons in Hc as [Hck Hc].
  change (cap_columns d (k :: cols)) with (cap_columns (cap_column d k) cols).
  rewrite IH by exact Hc. apply getitem_cap_column_ne. congruence.
Qed.

Lemma cap_columns_getitem_in cols : forall d c xs,
  NoDup cols -> c ∈ cols -> Pd.getitem d c = Some (ColNum xs) ->
  Pd.getitem (cap_columns d cols) c = Some (ColNum (capped xs)).
Proof.
  induction cols as [|k cols IH]; intros d c xs Hnd Hc Hx.
  - apply elem_of_nil in Hc. contradiction.
  - apply NoDup_cons in Hnd as [Hk Hnd].
    change (cap_columns d (k :: cols)) with (cap_columns (cap_column d k) cols).
    apply elem_of_cons in Hc as [->|Hc].
    + rewrite cap_columns_getitem_out by exact Hk.
      apply getitem_cap_column_eq. exact Hx.
    + apply IH; [exact Hnd|exact Hc|].
      rewrite getitem_cap_column_ne; [exact Hx|]. intros ->. contradiction.
Qed.

Lemma getitem_Some_columns d c col : Pd.getitem d c = Some col -> c ∈ Pd.columns d.
Proof.
  unfold Pd.columns. induction d as [|[k c0] d IH]; simpl; [discriminate|].
  destruct (String.eqb k c) eqn:E.
  - apply String.eqb_eq in E. subst. intros _. apply elem_of_cons. auto.
  - intros H. apply elem_of_cons. auto.
Qed.

Lemma columns_getitem_Some d c : c ∈ Pd.columns d -> is_Some (Pd.getitem d c).
Proof.
  unfold Pd.columns. induction d as [|[k c0] d IH]; simpl; intros H.
  - apply elem_of_nil in H. contradiction.
  - destruct (String.eqb k c) eqn:E; [eauto|].
    apply elem_of_cons in H as [->|H]; [|auto].
    rewrite String.eqb_refl in E. discriminate.
Qed.

Lemma mem_true x xs : mem x xs = true <-> x ∈ xs.
Proof.
  unfold mem. rewrite existsb_exists. split.
  - intros (y & Hy & E). apply String.eqb_eq in E. subst. apply list_elem_of_In. exact Hy.
  - intros H. exists x. split; [apply list_elem_of_In; exact H|apply String.eqb_refl].
Qed.

(** A numeric column is capped exactly when it has at least [cat_th = 10]
    distinct values: below that, [grab_col_names] classes it as
    categorical. *)
Lemma numeric_columns_spec d c xs :
  Pd.getitem d c = Some (ColNum xs) ->
  (c ∈ numeric_columns d <-> (10 <= Pd.nunique (ColNum xs))%nat).
Proof.
  intros Hc. unfold numeric_columns, grab_col_names. cbn [snd].
  rewrite list_elem_of_In, filter_In, filter_In, <- list_elem_of_In.
  pose proof (getitem_Some_columns d c _ Hc) as Hin.
  set (num_but_cat := List.filter _ (Pd.columns d)).
  assert (Hmem : mem c num_but_cat = true <-> (Pd.nunique (ColNum xs) < 10)%nat).
  { rewrite mem_true. unfold num_but_cat.
    rewrite list_elem_of_In, filter_In, <- list_elem_of_In.
    rewrite Hc. cbn [from_option Pd.is_object negb].
    rewrite andb_true_r, Nat.ltb_lt. tauto. }
  rewrite Hc. cbn [from_option Pd.is_object negb].
  destruct (mem c num_but_cat); cbn [negb]; split.
  - intros [_ Hf]. discriminate.
  - intros Hge. assert (Pd.nunique (ColNum xs) < 10)%nat by (apply Hmem; reflexivity). lia.
  - intros _. destruct (Nat.le_gt_cases 10 (Pd.nunique (ColNum xs))) as [Hge|Hlt];
      [exact Hge|]. apply Hmem in Hlt. discriminate.
  - intros _. auto.
Qed.

Lemma numeric_columns_NoDup d : NoDup (Pd.columns d) -> NoDup (numeric_columns d).
Proof.
  intros H. unfold numeric_columns, grab_col_names. cbn [snd].
  apply NoDup_ListNoDup, List.NoDup_filter, List.NoDup_filter, NoDup_ListNoDup.
  exact H.
Qed.

Lemma prepared_capped d d1 c xs :
  prepared d d1 ->
  NoDup (Pd.columns d) ->
  Pd.getitem d c = Some (ColNum xs) ->
  Pd.contains c "date" = false ->
  c <> "total_order_num"%string -> c <> "customer_value_total"%string ->
  Pd.getitem d1 c
  = Some (ColNum (if (10 <=? Pd.nunique (ColNum xs))%nat then capped xs else xs)).
Proof.
  intros Hprep Hnd Hc Hdate Hn1 Hn2.
  rewrite (prepared_getitem_plain d d1 c Hprep Hdate Hn1 Hn2).
  destruct (10 <=? Pd.nunique (ColNum xs))%nat eqn:E.
  - apply cap_columns_getitem_in;
      [apply numeric_columns_NoDup; exact Hnd| |exact Hc].
    apply (numeric_columns_spec d c xs Hc). apply Nat.leb_le. exact E.
  - rewrite cap_columns_getitem_out; [exact Hc|].
    rewrite (numeric_columns_spec d c xs Hc). apply Nat.leb_gt in E. lia.
Qed.

(** C5, as the code has it. [data_prep] caps a numeric column by limits
    computed from that column alone, provided the column has at least 10
    distinct values; a numeric column with fewer distinct values is left as
    it is.  (Columns that [data_prep] overwrites afterwards, the two totals
    and the date columns, are set aside.) *)
Theorem data_prep_caps_columns (s : state) (dataframe : loc) (d : DataFrame)
    (c : string) (xs : list float64) (r : loc) (s' : state) :
  heap s !! dataframe = Some d ->
  NoDup (Pd.columns d) ->
  Pd.getitem d c = Some (ColNum xs) ->
  Pd.contains c "date" = false ->
  c <> "total_order_num"%string -> c <> "customer_value_total"%string ->
  data_prep dataframe s = Ok r s' ->
  exists d1 : DataFrame,
    heap s' !! dataframe = Some d1 /\
    Pd.getitem d1 c
    = Some (ColNum (if (10 <=? Pd.nunique (ColNum xs))%nat then capped xs else xs)).
Proof.
  intros Hr Hnd Hc Hdate Hn1 Hn2 H.
  apply data_prep_inv in H as [-> (d' & d1 & Hr' & Hprep & ->)].
  rewrite Hr in Hr'. injection Hr' as <-.
  exists d1. split; [eapply lookup_with_heap_insert; exact Hr|].
  apply (prepared_capped d d1 c xs); assumption.
Qed.

(** ** The later stages write the feature table only *)

Lemma wo_ret {A} c (a : A) : writes_only c (mret a : M A).
Proof. intros s b s' H l _. inversion H. reflexivity. Qed.

Lemma wo_lift {A} c (x : exn + A) : writes_only c (lift x).
Proof. intros s b s' H l _. apply lift_inv in H as [_ ->]. reflexivity. Qed.

Lemma wo_bind {A B} c (m : M A) (f : A -> M B) :
  writes_only c m -> (forall a, writes_only c (f a)) -> writes_only c (m ≫= f).
Proof.
  intros Hm Hf s b s' H l Hl. apply bind_inv in H as (a & s1 & H1 & H2).
  rewrite (Hf a s1 b s' H2 l Hl). apply (Hm s a s1 H1 l Hl).
Qed.

Lemma wo_getitem c r col : writes_only c (Heap.getitem r col).
Proof. intros s a s' H l _. apply getitem_inv in H as [-> _]. reflexivity. Qed.

Lemma wo_setitem c col x : writes_only c (Heap.setitem c col x).
Proof.
  intros s a s' H l Hl. apply setitem_inv in H as (d & _ & ->).
  cbn [heap with_heap]. apply list_lookup_insert_ne. congruence.
Qed.

Lemma wo_to_csv c r path : writes_only c (to_csv r path).
Proof.
  intros s a s' H l _. unfold to_csv in H. apply bind_inv in H as (d & s1 & Hl & H).
  apply load_inv in Hl as [-> _]. inversion H. reflexivity.
Qed.

Ltac wo :=
  repeat first
    [ apply wo_ret | apply wo_lift | apply wo_getitem | apply wo_setitem
    | apply wo_to_csv | apply wo_bind; [|intros] ].

(** What [modelling] and [cltv_final] do after [create_cltv]: they return
    the feature table and write nothing else. *)
Lemma modelling_inv r month s c s' :
  modelling r month s = Ok c s' ->
  exists s1, create_cltv r s = Ok c s1 /\
    forall l, l <> c -> heap s' !! l = heap s1 !! l.
Proof.
  unfold modelling. intros H. apply bind_inv in H as (c0 & s1 & Hc & H).
  exists s1.
  assert (Hres : c = c0).
  { repeat (apply bind_inv in H as (? & ? & _ & H)).
    apply ret_inv in H as [-> _]. reflexivity. }
  subst c0. split; [exact Hc|].
  match type of H with
  | ?m s1 = _ => assert (W : writes_only c m) by wo; exact (W s1 c s' H)
  end.
Qed.

Lemma cltv_final_inv r q labels csv s c s' :
  cltv_final r q labels csv s = Ok c s' ->
  exists s1, create_cltv r s = Ok c s1 /\
    forall l, l <> c -> heap s' !! l = heap s1 !! l.
Proof.
  unfold cltv_final. intros H. apply bind_inv in H as (c0 & s1 & Hm & H).
  assert (Hres : c = c0).
  { repeat (apply bind_inv in H as (? & ? & _ & H)).
    apply ret_inv in H as [-> _]. reflexivity. }
  subst c0. apply modelling_inv in Hm as (s0 & Hc & Hkeep).
  exists s0. split; [exact Hc|]. intros l Hl. rewrite <- (Hkeep l Hl).
  match type of H with
  | ?m s1 = _ =>
      assert (W : writes_only c m) by (wo; destruct (default true csv); wo);
      exact (W s1 c s' H l Hl)
  end.
Qed.

(** ** Date columns of the prepared frame *)

Lemma getitem_setitem_is_Some d k col c :
  is_Some (Pd.getitem d c) -> is_Some (Pd.getitem (Pd.setitem d k col) c).
Proof.
  intros H. destruct (String.eqb_spec k c) as [->|Hne].
  - rewrite getitem_setitem_eq. eauto.
  - rewrite getitem_setitem_ne by exact Hne. exact H.
Qed.

Lemma set_columns_columns l : forall d,
  (forall p, p ∈ l -> is_Some (Pd.getitem d p.1)) ->
  Pd.columns (set_columns d l) = Pd.columns d.
Proof.
  induction l as [|[k col] l IH]; intros d Hl; [reflexivity|].
  change (set_columns d ((k, col) :: l)) with (set_columns (Pd.setitem d k col) l).
  rewrite IH.
  - apply columns_setitem_present. apply (Hl (k, col)). apply elem_of_cons. auto.
  - intros p Hp. apply getitem_setitem_is_Some. apply Hl. apply elem_of_cons. auto.
Qed.

Lemma set_columns_getitem_in l : forall d c col,
  (forall p, p ∈ l -> p.1 = c -> p.2 = col) ->
  (c ∈ map fst l \/ Pd.getitem d c = Some col) ->
  Pd.getitem (set_columns d l) c = Some col.
Proof.
  induction l as [|[k x] l IH]; intros d c col Hsame Hc.
  - destruct Hc as [Hc|Hc]; [apply elem_of_nil in Hc; contradiction|exact Hc].
  - change (set_columns d ((k, x) :: l)) with (set_columns (Pd.setitem d k x) l).
    apply IH.
    + intros p Hp. apply Hsame. apply elem_of_cons. auto.
    + destruct (String.eqb_spec k c) as [->|Hne].
      * right. rewrite getitem_setitem_eq. f_equal.
        apply (Hsame (c, x)); [apply elem_of_cons; auto|reflexivity].
      * destruct Hc as [Hc|Hc].
        -- simpl in Hc. apply elem_of_cons in Hc as [Hc|Hc]; [congruence|auto].
        -- right. rewrite getitem_setitem_ne by exact Hne. exact Hc.
Qed.

Lemma converted_from_functional d c col1 col2 :
  converted_from d c col1 -> converted_from d c col2 -> col1 = col2.
Proof.
  intros (old & ts & Ho & Ht & ->) (old' & ts' & Ho' & Ht' & ->).
  rewrite Ho in Ho'. injection Ho' as <-. rewrite Ht in Ht'. injection Ht' as <-.
  reflexivity.
Qed.

Lemma converted_members d cols converted :
  Forall2 (fun c p => p.1 = c /\ converted_from d c p.2) cols converted ->
  forall p, p ∈ converted -> p.1 ∈ cols /\ converted_from d p.1 p.2.
Proof.
  induction 1 as [|c q cols converted [Hc Hq] _ IH]; intros p Hp.
  - apply elem_of_nil in Hp. contradiction.
  - apply elem_of_cons in Hp as [->|Hp].
    + subst c. split; [apply elem_of_cons; auto|exact Hq].
    + destruct (IH p Hp) as [H1 H2]. split; [apply elem_of_cons; auto|exact H2].
Qed.

Lemma cap_columns_getitem_other_dtype cols : forall d c col,
  Pd.getitem d c = Some col -> (forall xs, col <> ColNum xs) ->
  Pd.getitem (cap_columns d cols) c = Some col.
Proof.
  induction cols as [|k cols IH]; intros d c col Hc Hnum; [exact Hc|].
  change (cap_columns d (k :: cols)) with (cap_columns (cap_column d k) cols).
  apply IH; [|exact Hnum].
  destruct (String.eqb_spec k c) as [->|Hne].
  - unfold cap_column. rewrite Hc. destruct col; try exact Hc.
    exfalso. eapply Hnum. reflexivity.
  - rewrite getitem_cap_column_ne by exact Hne. exact Hc.
Qed.

(** Every column of the prepared frame whose name contains ["date"] holds
    the timestamps [pd.to_datetime] returned for it. *)
Lemma prepared_dates d d1 c :
  prepared d d1 -> c ∈ Pd.columns d1 -> Pd.contains c "date" = true ->
  exists old ts,
    to_datetime old = inr ts /\ Pd.getitem d1 c = Some (ColDate ts) /\
    (forall strs, Pd.getitem d c = Some (ColObj strs) -> old = ColObj strs).
Proof.
  intros (on & off & total & voff & von & val & converted & H) Hin Hdate.
  cbv zeta in H. destruct H as (_ & _ & _ & _ & _ & _ & Hconv & ->).
  set (dA := cap_columns d (numeric_columns d)) in *.
  set (dB := Pd.setitem (Pd.setitem dA "total_order_num" total)
               "customer_value_total" val) in *.
  pose proof (converted_members dB _ _ Hconv) as Hmem.
  pose proof (converted_names (fun c p => converted_from dB c p.2) _ _ Hconv) as Hnames.
  assert (Hcols : Pd.columns (set_columns dB converted) = Pd.columns dB).
  { apply set_columns_columns. intros p Hp. apply columns_getitem_Some.
    destruct (Hmem p Hp) as [Hp1 _]. unfold date_columns in Hp1.
    apply list_elem_of_In, filter_In in Hp1 as [Hp1 _].
    apply list_elem_of_In. exact Hp1. }
  rewrite Hcols in Hin.
  assert (Hdc : c ∈ date_columns dB).
  { unfold date_columns. apply list_elem_of_In, filter_In.
    split; [apply list_elem_of_In; exact Hin|exact Hdate]. }
  rewrite <- Hnames in Hdc.
  apply list_elem_of_In, in_map_iff in Hdc as ([c' col] & Hc' & Hp).
  simpl in Hc'. subst c'. apply list_elem_of_In in Hp.
  destruct (Hmem _ Hp) as [_ Hfrom]. simpl in Hfrom.
  pose proof Hfrom as (old & ts & Hold & Hts & ->).
  exists old, ts. split; [exact Hts|]. split.
  - apply set_columns_getitem_in.
    + intros q Hq Hq1. destruct (Hmem q Hq) as [_ Hq2]. rewrite Hq1 in Hq2.
      eapply converted_from_functional; eassumption.
    + left. apply list_elem_of_In, in_map_iff. exists (c, ColDate ts).
      split; [reflexivity|apply list_elem_of_In; exact Hp].
  - intros strs Hstrs. unfold dB in Hold.
    rewrite !getitem_setitem_ne in Hold by (intros <-; discriminate).
    unfold dA in Hold.
    rewrite (cap_columns_getitem_other_dtype _ d c (ColObj strs)) in Hold;
      [congruence|exact Hstrs|discriminate].
Qed.

(** ** Objects that exist before the feature table is allocated *)

Lemma kb_ret {A} n (a : A) (Q : A -> Prop) : Q a -> keeps_below n (mret a : M A) Q.
Proof.
  intros HQ s Hn. split; [reflexivity|]. split; [exact Hn|].
  intros b s' H. inversion H. subst. exact HQ.
Qed.

Lemma kb_lift {A} n (x : exn + A) : keeps_below n (lift x) (fun _ => True).
Proof.
  intros s Hn. destruct x; (split; [reflexivity|]; split; [exact Hn|]; auto).
Qed.

Lemma kb_bind {A B} n (m : M A) (f : A -> M B) (Q : A -> Prop) (Q' : B -> Prop) :
  keeps_below n m Q -> (forall a, Q a -> keeps_below n (f a) Q') ->
  keeps_below n (m ≫= f) Q'.
Proof.
  intros Hm Hf s Hn. destruct (Hm s Hn) as (Hkeep & Hlen & HQ).
  unfold mbind, M_bind. destruct (m s) as [a s1|e s1] eqn:E; simpl in Hkeep, Hlen.
  - destruct (Hf a (HQ a s1 eq_refl) s1 Hlen) as (Hkeep' & Hlen' & HQ').
    split; [|split; [exact Hlen'|exact HQ']].
    intros l Hl. rewrite Hkeep' by exact Hl. apply Hkeep. exact Hl.
  - split; [exact Hkeep|]. split; [exact Hlen|]. intros b s' H. discriminate H.
Qed.

Lemma kb_getitem n r c : keeps_below n (Heap.getitem r c) (fun _ => True).
Proof.
  intros s Hn. unfold Heap.getitem, Heap.load, mbind, M_bind.
  destruct (heap s !! r) as [d|]; [destruct (Pd.getitem d c)|];
    (split; [reflexivity|]; split; [exact Hn|]; auto).
Qed.

Lemma kb_global_df n : keeps_below n Heap.global_df (fun _ => True).
Proof.
  intros s Hn. unfold Heap.global_df.
  destruct (g_df s); (split; [reflexivity|]; split; [exact Hn|]; auto).
Qed.

Lemma kb_alloc n d : keeps_below n (Heap.alloc d) (fun c => (n <= c)%nat).
Proof.
  intros s Hn. unfold Heap.alloc, kept. cbn [final_state heap with_heap].
  split; [|split].
  - intros l Hl. apply lookup_app_l. lia.
  - rewrite length_app. lia.
  - intros a s' H. inversion H. subst. exact Hn.
Qed.

Lemma kb_setitem n c col x :
  (n <= c)%nat -> keeps_below n (Heap.setitem c col x) (fun _ => True).
Proof.
  intros Hc s Hn. unfold Heap.setitem, Heap.load, Heap.store, mbind, M_bind, kept.
  destruct (heap s !! c) as [d|]; cbn [final_state heap with_heap].
  - split; [|split; [rewrite length_insert; exact Hn|auto]].
    intros l Hl. apply list_lookup_insert_ne. lia.
  - split; [reflexivity|]. split; [exact Hn|]. intros a s' H. discriminate H.
Qed.

Lemma kb_to_csv n r path : keeps_below n (to_csv r path) (fun _ => True).
Proof.
  intros s Hn. unfold to_csv, Heap.load, Heap.write_file, mbind, M_bind.
  destruct (heap s !! r); (split; [reflexivity|]; split; [exact Hn|]; auto).
Qed.

Ltac kb :=
  repeat first
    [ apply kb_ret; first [exact I | assumption]
    | apply kb_lift | apply kb_getitem | apply kb_global_df | apply kb_alloc
    | apply kb_setitem; assumption
    | apply kb_to_csv
    | eapply kb_bind; [|intros ? ?] ].

Lemma kept_bind {A B} n H (m : M A) (f : A -> M B) s
    (Q : A -> Prop) (Q' : B -> Prop) :
  kept n H (m s) Q -> (forall a, Q a -> keeps_below n (f a) Q') ->
  kept n H ((m ≫= f) s) Q'.
Proof.
  intros (Hkeep & Hlen & HQ) Hf.
  unfold mbind, M_bind. destruct (m s) as [a s1|e s1] eqn:E; simpl in Hkeep, Hlen.
  - destruct (Hf a (HQ a s1 eq_refl) s1 Hlen) as (Hkeep' & Hlen' & HQ').
    split; [|split; [exact Hlen'|exact HQ']].
    intros l Hl. rewrite Hkeep' by exact Hl. apply Hkeep. exact Hl.
  - split; [exact Hkeep|]. split; [exact Hlen|]. intros b s' H0. discriminate H0.
Qed.

(** After [data_prep], the pipeline touches no object that existed at that
    point, whether it completes or raises. *)
Lemma create_cltv_after_data_prep r s s1 :
  data_prep r s = Ok r s1 ->
  kept (length (heap s1)) (heap s1) (create_cltv r s)
    (fun c => (length (heap s1) <= c)%nat).
Proof.
  intros Hprep. unfold create_cltv. rewrite (bind_run _ _ _ _ _ Hprep).
  match goal with
  | |- kept ?n _ (?m s1) ?Q =>
      assert (K : keeps_below n m Q) by kb; exact (K s1 (Nat.le_refl _))
  end.
Qed.

Lemma cltv_final_after_data_prep r q labels csv s s1 :
  data_prep r s = Ok r s1 ->
  kept (length (heap s1)) (heap s1) (cltv_final r q labels csv s)
    (fun c => (length (heap s1) <= c)%nat).
Proof.
  intros Hprep. unfold cltv_final, modelling.
  set (n := length (heap s1)).
  apply (kept_bind n _ _ _ _ (fun c => (n <= c)%nat)).
  - apply (kept_bind n _ _ _ _ (fun c => (n <= c)%nat)).
    + apply create_cltv_after_data_prep. exact Hprep.
    + intros c Hc. kb.
  - intros c Hc. kb. destruct (default true csv); kb.
Qed.

(** ** In-place mutation of the caller's table *)

(** C10. A call of [cltv_final] that returns hands back an object other
    than its argument, and leaves the argument mutated in place: its
    numeric columns are capped (those with at least 10 distinct values,
    see C5), it holds the two totals [total_order_num] and
    [customer_value_total], and every column whose name contains ["date"]
    has been converted by [pd.to_datetime]. *)
Theorem cltv_final_mutates_argument (s : state) (dataframe : loc)
    (segment_count : Z) (segments : list string) (csv : option bool)
    (result : loc) (s' : state) :
  cltv_final dataframe segment_count segments csv s = Ok result s' ->
  result <> dataframe /\
  exists before after : DataFrame,
    heap s !! dataframe = Some before /\
    heap s' !! dataframe = Some after /\
    (* the two added columns *)
    (exists online offline total value_offline value_online total_value,
       Pd.getitem after "order_num_total_ever_online" = Some online /\
       Pd.getitem after "order_num_total_ever_offline" = Some offline /\
       Series.add online offline = inr total /\
       Pd.getitem after "total_order_num" = Some total /\
       Pd.getitem after "customer_value_total_ever_offline" = Some value_offline /\
       Pd.getitem after "customer_value_total_ever_online" = Some value_online /\
       Series.add value_offline value_online = inr total_value /\
       Pd.getitem after "customer_value_total" = Some total_value) /\
    (* the capped numeric values *)
    (NoDup (Pd.columns before) ->
     forall c xs,
       Pd.getitem before c = Some (ColNum xs) ->
       Pd.contains c "date" = false ->
       c <> "total_order_num"%string -> c <> "customer_value_total"%string ->
       Pd.getitem after c
       = Some (ColNum (if (10 <=? Pd.nunique (ColNum xs))%nat
                       then capped xs else xs))) /\
    (* the date columns *)
    (forall c, c ∈ Pd.columns after -> Pd.contains c "date" = true ->
       exists old ts,
         to_datetime old = inr ts /\ Pd.getitem after c = Some (ColDate ts) /\
         (forall strs, Pd.getitem before c = Some (ColObj strs) -> old = ColObj strs)).
Proof.
  intros H. apply cltv_final_inv in H as (s1 & Hc & Hkeep).
  apply create_cltv_post in Hc
    as (d & d1 & g & G & tbl & Hr & Hprep & Hr1 & _ & _ & _ & _ & _ & _ & Hne & _).
  split; [congruence|].
  exists d, d1. split; [exact Hr|].
  split; [rewrite Hkeep by exact Hne; exact Hr1|].
  split; [apply (prepared_totals d d1 Hprep)|]. split.
  - intros Hnd c xs Hx Hdate Hn1 Hn2. apply (prepared_capped d d1 c xs); assumption.
  - intros c Hin Hdate. apply (prepared_dates d d1 c); assumption.
Qed.

(** The mutation is there after a call that raises, too, as soon as
    [data_prep] has completed: the argument holds the prepared table
    whatever happens in the later stages. *)
Lemma argument_stays_prepared (s : state) (dataframe : loc) (segment_count : Z)
    (segments : list string) (csv : option bool) (r : loc) (s1 : state) :
  data_prep dataframe s = Ok r s1 ->
  exists before after,
    heap s !! dataframe = Some before /\ prepared before after /\
    heap (final_state (cltv_final dataframe segment_count segments csv s)) !! dataframe
    = Some after.
Proof.
  intros H. pose proof H as H0.
  apply data_prep_inv in H0 as [-> (d & d1 & Hr & Hprep & Hs1)].
  exists d, d1. split; [exact Hr|]. split; [exact Hprep|].
  destruct (cltv_final_after_data_prep dataframe segment_count segments csv s s1 H)
    as (Hkeep & _).
  assert (Hr1 : heap s1 !! dataframe = Some d1).
  { rewrite Hs1. eapply lookup_with_heap_insert. exact Hr. }
  rewrite Hkeep; [exact Hr1|]. eapply lookup_lt_Some. exact Hr1.
Qed.

(** ** Quantile cut and the order of the rows *)

Lemma feq_Fin a b : feq (Fin a) (Fin b) <-> (a == b)%Q.
Proof.
  unfold feq, Qcut.same_edge. simpl. rewrite orb_false_r. apply Qeq_bool_iff.
Qed.

Ltac feq_cases :=
  repeat match goal with
    | H : feq (Fin _) (Fin _) |- _ => apply feq_Fin in H
    | H : feq _ _ |- _ => discriminate H
    | |- feq (Fin _) (Fin _) => apply feq_Fin
    | |- feq _ _ => reflexivity
    end.

Lemma feq_refl a : feq a a.
Proof. destruct a; feq_cases. reflexivity. Qed.

Lemma feq_sym a b : feq a b -> feq b a.
Proof. destruct a, b; intros H; feq_cases. symmetry. exact H. Qed.

Lemma feq_trans a b c : feq a b -> feq b c -> feq a c.
Proof. destruct a, b, c; intros H1 H2; feq_cases. rewrite H1. exact H2. Qed.

Lemma ltb_feq a a' b b' : feq a a' -> feq b b' -> F64.ltb a b = F64.ltb a' b'.
Proof.
  destruct a, a', b, b'; intros H1 H2; feq_cases; try reflexivity.
  simpl. rewrite H1, H2. reflexivity.
Qed.

Lemma eqb_feq a a' b b' : feq a a' -> feq b b' -> F64.eqb a b = F64.eqb a' b'.
Proof.
  destruct a, a', b, b'; intros H1 H2; feq_cases; try reflexivity.
  simpl. apply eq_true_iff_eq. rewrite !Qeq_bool_iff, H1, H2. reflexivity.
Qed.

Lemma isnan_feq a a' : feq a a' -> F64.isnan a = F64.isnan a'.
Proof. destruct a, a'; intros H; feq_cases; reflexivity. Qed.

Lemma same_edge_feq a a' b b' :
  feq a a' -> feq b b' -> Qcut.same_edge a b = Qcut.same_edge a' b'.
Proof.
  intros H1 H2. unfold Qcut.same_edge.
  rewrite (eqb_feq a a' b b' H1 H2), (isnan_feq a a' H1), (isnan_feq b b' H2).
  reflexivity.
Qed.

Lemma neg_feq a a' : feq a a' -> feq (F64.neg a) (F64.neg a').
Proof. destruct a, a'; intros H; feq_cases. simpl. feq_cases. rewrite H. reflexivity. Qed.

Lemma add_feq a a' b b' : feq a a' -> feq b b' -> feq (F64.add a b) (F64.add a' b').
Proof.
  destruct a, a', b, b'; intros H1 H2; feq_cases; simpl; feq_cases.
  rewrite H1, H2. reflexivity.
Qed.

Lemma sub_feq a a' b b' : feq a a' -> feq b b' -> feq (F64.sub a b) (F64.sub a' b').
Proof. intros H1 H2. apply add_feq; [exact H1|apply neg_feq; exact H2]. Qed.

Lemma mul_feq_r a a' t : feq a a' -> feq (F64.mul a (Fin t)) (F64.mul a' (Fin t)).
Proof.
  destruct a, a'; intros H; feq_cases; simpl; feq_cases; try apply feq_refl.
  rewrite H. reflexivity.
Qed.

Lemma lerp_feq a a' b b' t :
  feq a a' -> feq b b' -> feq (Pd.lerp a b t) (Pd.lerp a' b' t).
Proof.
  intros H1 H2. unfold Pd.lerp. destruct (Qle_bool (1 # 2) t).
  - apply sub_feq; [exact H2|]. apply mul_feq_r, sub_feq; assumption.
  - apply add_feq; [exact H1|]. apply mul_feq_r, sub_feq; assumption.
Qed.

Lemma ltb_asym a b : F64.ltb a b = true -> F64.ltb b a = false.
Proof.
  destruct a, b; intros H; try discriminate; try reflexivity.
  apply ltb_Fin in H. apply ltb_Fin_false. lra.
Qed.

Lemma ltb_le_lt a y b :
  nonnan a -> nonnan y -> nonnan b ->
  F64.ltb y a = false -> F64.ltb y b = true -> F64.ltb a b = true.
Proof.
  unfold nonnan. destruct a, y, b; intros Ha Hy Hb H1 H2; try discriminate;
    try reflexivity.
  apply ltb_Fin_false in H1. apply ltb_Fin in H2. apply ltb_Fin. lra.
Qed.

Lemma not_ltb_feq a b :
  nonnan a -> nonnan b -> F64.ltb a b = false -> F64.ltb b a = false -> feq a b.
Proof.
  unfold nonnan. destruct a, b; intros Ha Hb H1 H2; try discriminate; feq_cases.
  apply ltb_Fin_false in H1, H2. lra.
Qed.

Lemma Forall2_feq_refl l : Forall2 feq l l.
Proof. induction l; constructor; [apply feq_refl|assumption]. Qed.

Lemma Forall2_feq_trans l1 l2 l3 :
  Forall2 feq l1 l2 -> Forall2 feq l2 l3 -> Forall2 feq l1 l3.
Proof.
  intros H. revert l3. induction H as [|a b l1 l2 Hab _ IH]; intros l3 H3.
  - exact H3.
  - inversion H3; subst. constructor; [eapply feq_trans; eassumption|auto].
Qed.

Lemma insert_sorted_feq a l1 l2 :
  Forall2 feq l1 l2 -> Forall2 feq (Pd.insert_sorted a l1) (Pd.insert_sorted a l2).
Proof.
  induction 1 as [|y1 y2 l1 l2 Hy Hl IH]; simpl.
  - constructor; [apply feq_refl|constructor].
  - rewrite (ltb_feq y1 y2 a a Hy (feq_refl a)).
    destruct (F64.ltb y2 a).
    + constructor; assumption.
    + constructor; [apply feq_refl|]. constructor; assumption.
Qed.

Lemma insert_sorted_pair a b l :
  nonnan a -> nonnan b ->
  Forall2 feq (if F64.ltb b a then b :: a :: l else a :: b :: l)
              (if F64.ltb a b then a :: b :: l else b :: a :: l).
Proof.
  intros Ha Hb. destruct (F64.ltb b a) eqn:E1.
  - rewrite (ltb_asym b a E1). apply Forall2_feq_refl.
  - destruct (F64.ltb a b) eqn:E2; [apply Forall2_feq_refl|].
    pose proof (not_ltb_feq a b Ha Hb E2 E1) as Hab.
    constructor; [exact Hab|]. constructor; [apply feq_sym; exact Hab|].
    apply Forall2_feq_refl.
Qed.

Lemma insert_sorted_comm a b l :
  nonnan a -> nonnan b -> Forall nonnan l ->
  Forall2 feq (Pd.insert_sorted a (Pd.insert_sorted b l))
              (Pd.insert_sorted b (Pd.insert_sorted a l)).
Proof.
  intros Ha Hb Hl. induction Hl as [|y l Hy Hl IH]; simpl.
  - apply insert_sorted_pair; assumption.
  - destruct (F64.ltb y b) eqn:Eb, (F64.ltb y a) eqn:Ea; simpl; rewrite ?Ea, ?Eb.
    + constructor; [apply feq_refl|exact IH].
    + rewrite (ltb_le_lt a y b Ha Hy Hb Ea Eb). simpl. rewrite ?Eb.
      apply Forall2_feq_refl.
    + rewrite (ltb_le_lt b y a Hb Hy Ha Eb Ea). simpl. rewrite ?Ea.
      apply Forall2_feq_refl.
    + apply insert_sorted_pair; assumption.
Qed.

(** Sorting the non-missing scores gives the same values in the same order,
    however the rows were ordered. *)
Lemma sort_dropna_Permutation x x' :
  Permutation x x' ->
  Forall2 feq (Pd.sort (Pd.dropna x)) (Pd.sort (Pd.dropna x')).
Proof.
  induction 1 as [|a l l' _ IH|a b l|l1 l2 l3 _ IH1 _ IH2].
  - constructor.
  - unfold Pd.dropna in *. simpl. destruct (F64.isnan a); simpl; [exact IH|].
    apply insert_sorted_feq. exact IH.
  - unfold Pd.dropna. simpl.
    destruct (F64.isnan a) eqn:Ea, (F64.isnan b) eqn:Eb; simpl;
      try apply Forall2_feq_refl.
    apply insert_sorted_comm; [exact Eb|exact Ea|].
    apply sort_nonnan, dropna_nonnan.
  - eapply Forall2_feq_trans; eassumption.
Qed.

Lemma nth_feq l1 l2 i : Forall2 feq l1 l2 -> feq (nth i l1 NaN) (nth i l2 NaN).
Proof.
  intros H. revert i. induction H as [|a b l1 l2 Hab _ IH]; intros [|i]; simpl;
    try apply feq_refl; auto.
Qed.

Lemma quantile_Permutation x x' q :
  Permutation x x' -> feq (Pd.quantile x q) (Pd.quantile x' q).
Proof.
  intros H. apply sort_dropna_Permutation in H. unfold Pd.quantile.
  destruct H as [|a b l1 l2 Hab Hl]; [apply feq_refl|].
  assert (H : Forall2 feq (a :: l1) (b :: l2)) by (constructor; assumption).
  unfold Pd.percentile. rewrite (Forall2_length _ _ _ H).
  apply lerp_feq; apply nth_feq; exact H.
Qed.

Lemma bins_Permutation x x' q :
  Permutation x x' -> Forall2 feq (Qcut.bins x q) (Qcut.bins x' q).
Proof.
  intros H. unfold Qcut.bins. induction (Qcut.linspace q) as [|k ks IH]; simpl.
  - constructor.
  - constructor; [apply quantile_Permutation; exact H|exact IH].
Qed.

Lemma filter_feq (p p' : float64 -> bool) l1 l2 :
  (forall y y', feq y y' -> p y = p' y') ->
  Forall2 feq l1 l2 -> Forall2 feq (List.filter p l1) (List.filter p' l2).
Proof.
  intros Hp. induction 1 as [|a b l1 l2 Hab _ IH]; simpl; [constructor|].
  rewrite (Hp a b Hab). destruct (p' b); [constructor|]; assumption.
Qed.

Lemma unique_feq l1 l2 :
  Forall2 feq l1 l2 ->
  Forall2 feq (Pd.unique Qcut.same_edge l1) (Pd.unique Qcut.same_edge l2).
Proof.
  induction 1 as [|a b l1 l2 Hab _ IH]; simpl; [constructor|].
  constructor; [exact Hab|]. apply filter_feq; [|exact IH].
  intros y y' Hy. f_equal. apply same_edge_feq; assumption.
Qed.

Lemma searchsorted_left_feq e1 e2 v :
  Forall2 feq e1 e2 -> Qcut.searchsorted_left e1 v = Qcut.searchsorted_left e2 v.
Proof.
  intros H. unfold Qcut.searchsorted_left. eapply Forall2_length, filter_feq; [|exact H].
  intros y y' Hy. apply ltb_feq; [exact Hy|apply feq_refl].
Qed.

Lemma label_of_feq e1 e2 labels v :
  Forall2 feq e1 e2 -> Qcut.label_of e1 labels v = Qcut.label_of e2 labels v.
Proof.
  intros H. unfold Qcut.label_of, Qcut.bin_id.
  rewrite (Forall2_length _ _ _ H), (searchsorted_left_feq e1 e2 v H).
  destruct H as [|a b l1 l2 Hab Hl]; [reflexivity|].
  rewrite (eqb_feq v v a b (feq_refl v) Hab). reflexivity.
Qed.

(** The outcome of [pd.qcut] as a function of the bin edges. *)
Lemma qcut_unfold x q labels :
  -1 < q ->
  Qcut.qcut x q labels =
  let edges := Qcut.bins x (Z.to_nat q) in
  if (length (Pd.unique Qcut.same_edge edges) <? length edges)%nat
     && negb (length edges =? 2)%nat
  then inl ValueError
  else if negb (length (Pd.unique String.eqb labels) =? length labels)%nat
  then inl ValueError
  else if negb (length labels =? length edges - 1)%nat
  then inl ValueError
  else inr (map (Qcut.label_of edges labels) x).
Proof.
  intros Hq. unfold Qcut.qcut.
  destruct (q <? -1) eqn:E1; [apply Z.ltb_lt in E1; lia|].
  destruct (q =? -1) eqn:E2; [apply Z.eqb_eq in E2; lia|]. reflexivity.
Qed.

(** C6. Quantile segmentation does not depend on the order of the rows:
    for a permutation of the score vector the bin edges are the same
    values, the cut fails in the same way if it fails, and a customer (a
    row with its score) receives the same label wherever the row stands. *)
Theorem qcut_Permutation (x x' : list float64) (q : Z) (labels : list string) :
  Permutation x x' ->
  Forall2 feq (Qcut.bins x (Z.to_nat q)) (Qcut.bins x' (Z.to_nat q)) /\
  (forall e, Qcut.qcut x q labels = inl e <-> Qcut.qcut x' q labels = inl e) /\
  (forall segment segment',
     Qcut.qcut x q labels = inr segment ->
     Qcut.qcut x' q labels = inr segment' ->
     forall (i j : nat) (score : float64),
       x !! i = Some score -> x' !! j = Some score ->
       segment !! i = segment' !! j).
Proof.
  intros Hperm.
  pose proof (bins_Permutation x x' (Z.to_nat q) Hperm) as Hb.
  split; [exact Hb|].
  destruct (Z.le_gt_cases q (-1)) as [Hq|Hq].
  - unfold Qcut.qcut.
    destruct (q <? -1) eqn:E1; [split; [tauto|intros; discriminate]|].
    destruct (q =? -1) eqn:E2; [split; [tauto|intros; discriminate]|].
    apply Z.ltb_ge in E1. apply Z.eqb_neq in E2. lia.
  - rewrite !qcut_unfold by lia. cbv zeta.
    rewrite (Forall2_length _ _ _ (unique_feq _ _ Hb)), (Forall2_length _ _ _ Hb).
    destruct (_ && _); [split; [tauto|intros; discriminate]|].
    destruct (negb (length (Pd.unique String.eqb labels) =? length labels)%nat);
      [split; [tauto|intros; discriminate]|].
    destruct (negb _); [split; [tauto|intros; discriminate]|].
    split; [split; intros; discriminate|].
    intros segment segment' Hs Hs' i j score Hi Hj.
    injection Hs as <-. injection Hs' as <-.
    change (map ?f ?l) with (f <$> l).
    rewrite !list_lookup_fmap, Hi, Hj. simpl. f_equal.
    apply label_of_feq. exact Hb.
Qed.

(** ** Defaults of the pipeline *)

Lemma modelling_discount r month s c s' :
  modelling r month s = Ok c s' ->
  exists table ggf bgf frequency recency T monetary clv,
    heap s' !! c = Some table /\
    Pd.getitem table "cltv" = Some (ColNum clv) /\
    customer_lifetime_value ggf bgf frequency recency T monetary
      (default 6 month) "W" (1 # 100) = inr clv.
Proof.
  unfold modelling. intros H.
  repeat (apply bind_inv in H as (? & ? & ? & H)).
  apply ret_inv in H as [-> ->].
  match goal with
  | Hs : Heap.setitem ?c0 "cltv" (ColNum ?clv) ?s0 = Ok _ _,
    Hl : lift (customer_lifetime_value ?g ?b ?f ?rc ?t ?m _ _ _) _ = Ok ?clv _ |- _ =>
      apply setitem_inv in Hs as (d & Hr & ->);
      apply lift_inv in Hl as [Hl _];
      exists (Pd.setitem d "cltv" (ColNum clv)), g, b, f, rc, t, m, clv
  end.
  split; [eapply lookup_with_heap_insert; eassumption|].
  split; [apply getitem_setitem_eq|assumption].
Qed.

Lemma cltv_final_segments r q labels csv s c s' :
  cltv_final r q labels csv s = Ok c s' ->
  exists table ggf bgf frequency recency T monetary scores segment,
    heap s' !! c = Some table /\
    Pd.getitem table "cltv" = Some (ColNum scores) /\
    customer_lifetime_value ggf bgf frequency recency T monetary 6 "W" (1 # 100)
      = inr scores /\
    Pd.getitem table "segment" = Some (ColCat segment) /\
    Qcut.qcut scores q labels = inr segment.
Proof.
  unfold cltv_final. intros H. apply bind_inv in H as (c0 & s1 & Hm & H).
  apply modelling_discount in Hm
    as (table0 & ggf & bgf & f & rc & T & mon & clv & Ht0 & Hclv & Hlib).
  apply bind_inv in H as (scores & s2 & Hsc & H).
  apply numeric_cells_inv in Hsc as [-> (d & Hr & Hsc)].
  rewrite Ht0 in Hr. injection Hr as <-.
  rewrite Hclv in Hsc. injection Hsc as <-.
  apply bind_inv in H as (segment & s2 & Hq & H). apply lift_inv in Hq as [Hq ->].
  apply bind_inv in H as (u & s2 & Hset & H).
  apply setitem_inv in Hset as (d' & Hr' & ->).
  rewrite Ht0 in Hr'. injection Hr' as <-.
  apply bind_inv in H as (u' & s3 & Hcsv & H). apply ret_inv in H as [-> ->].
  assert (Hheap : heap s3
                  = <[c0 := Pd.setitem table0 "segment" (ColCat segment)]> (heap s1)).
  { destruct (default true csv).
    - unfold to_csv in Hcsv. apply bind_inv in Hcsv as (d0 & s4 & Hl & Hw).
      apply load_inv in Hl as [-> _]. inversion Hw. reflexivity.
    - inversion Hcsv. reflexivity. }
  exists (Pd.setitem table0 "segment" (ColCat segment)), ggf, bgf, f, rc, T, mon,
    clv, segment.
  rewrite Hheap.
  split; [apply list_lookup_insert_eq; eapply lookup_lt_Some; exact Ht0|].
  split; [rewrite getitem_setitem_ne by discriminate; exact Hclv|].
  split; [exact Hlib|].
  split; [apply getitem_setitem_eq|exact Hq].
Qed.

Lemma elem_of_insert_sorted v a l : v ∈ Pd.insert_sorted a l <-> v = a \/ v ∈ l.
Proof.
  induction l as [|y l IH]; simpl.
  - rewrite elem_of_cons. tauto.
  - destruct (F64.ltb y a); rewrite !elem_of_cons; [rewrite IH|]; tauto.
Qed.

Lemma elem_of_sort v l : v ∈ Pd.sort l <-> v ∈ l.
Proof.
  induction l as [|a l IH]; simpl; [tauto|].
  rewrite elem_of_insert_sorted, elem_of_cons, IH. tauto.
Qed.

Lemma elem_of_dropna v l : v ∈ Pd.dropna l <-> v ∈ l /\ nonnan v.
Proof.
  unfold Pd.dropna, nonnan. rewrite !list_elem_of_In, filter_In, negb_true_iff. tauto.
Qed.

(** The lowest edge is the lowest score. *)
Lemma quantile_0_min scores q0 m :
  (q0 == 0)%Q ->
  Forall (fun v => F64.is_finite v || F64.isnan v = true) scores ->
  Fin m ∈ scores ->
  (forall w, Fin w ∈ scores -> (m <= w)%Q) ->
  feq (Pd.quantile scores q0) (Fin m).
Proof.
  intros Hq0 Hfin Hin Hmin. unfold Pd.quantile.
  pose proof (sort_sorted _ (dropna_nonnan scores)) as Hs.
  assert (Hmem : forall v, v ∈ Pd.sort (Pd.dropna scores) <-> v ∈ scores /\ nonnan v).
  { intros v. rewrite elem_of_sort. apply elem_of_dropna. }
  assert (Hallfin : forall v, v ∈ Pd.sort (Pd.dropna scores) -> exists w, v = Fin w).
  { intros v Hv. apply Hmem in Hv as [Hv Hn]. rewrite Forall_forall in Hfin.
    specialize (Hfin v Hv). unfold nonnan in Hn. destruct v; try discriminate; eauto. }
  assert (Hm : Fin m ∈ Pd.sort (Pd.dropna scores)) by (apply Hmem; split; [exact Hin|reflexivity]).
  destruct (Pd.sort (Pd.dropna scores)) as [|h L] eqn:EL.
  { apply elem_of_nil in Hm. contradiction. }
  destruct (Hallfin h ltac:(apply elem_of_cons; auto)) as [h0 ->].
  assert (Hh : (h0 == m)%Q).
  { assert (m <= h0)%Q.
    { apply Hmin. apply (Hmem (Fin h0)). apply elem_of_cons. auto. }
    assert (h0 <= m)%Q.
    { apply elem_of_cons in Hm as [Hm|Hm]; [injection Hm as ->; lra|].
      apply StronglySorted_inv in Hs as [_ Hs]. rewrite Forall_forall in Hs.
      apply le_Fin. apply Hs. exact Hm. }
    lra. }
  unfold Pd.percentile.
  set (vi := (q0 * inject_Z (Z.of_nat (length (Fin h0 :: L) - 1)))%Q).
  assert (Hvi : (vi == 0)%Q) by (unfold vi; rewrite Hq0; ring).
  assert (Hfl : Qfloor vi = 0) by (rewrite Hvi; reflexivity).
  rewrite Hfl. change (Z.to_nat 0) with 0%nat. change (nth 0 (Fin h0 :: L) NaN) with (Fin h0).
  set (b := nth _ (Fin h0 :: L) NaN).
  assert (Hb : exists b0, b = Fin b0).
  { apply Hallfin. unfold b. apply list_elem_of_In, nth_In. cbn [length]. lia. }
  destruct Hb as [b0 ->].
  unfold Pd.lerp.
  replace (Qle_bool (1 # 2) (vi - inject_Z 0)) with false.
  2:{ symmetry. apply not_true_iff_false. rewrite Qle_bool_iff, Hvi. intros Hc.
      compute in Hc. congruence. }
  simpl. apply feq_Fin. rewrite Hvi, <- Hh. ring.
Qed.

Lemma linspace_head q : exists q0 ks, Qcut.linspace q = q0 :: ks /\ (q0 == 0)%Q.
Proof.
  unfold Qcut.linspace. simpl. eexists _, _. split; [reflexivity|].
  unfold Qdiv. change (inject_Z (Z.of_nat 0)) with 0%Q. ring.
Qed.

(** The lowest score falls in the first bin and takes the first label. *)
Lemma qcut_lowest_first scores q labels segment i m :
  1 <= q ->
  Forall (fun v => F64.is_finite v || F64.isnan v = true) scores ->
  Qcut.qcut scores q labels = inr segment ->
  scores !! i = Some (Fin m) ->
  (forall w, Fin w ∈ scores -> (m <= w)%Q) ->
  segment !! i = Some (labels !! 0%nat).
Proof.
  intros Hq Hfin Hcut Hi Hmin.
  rewrite qcut_unfold in Hcut by lia. cbv zeta in Hcut.
  destruct (_ && _); [discriminate|].
  destruct (negb (length (Pd.unique String.eqb labels) =? length labels)%nat);
    [discriminate|].
  destruct (negb _); [discriminate|]. injection Hcut as <-.
  change (map ?f ?l) with (f <$> l). rewrite list_lookup_fmap, Hi. simpl. f_equal.
  unfold Qcut.label_of, Qcut.bin_id. rewrite length_bins.
  unfold Qcut.bins. destruct (linspace_head (Z.to_nat q)) as (q0 & ks & -> & Hq0).
  simpl map.
  assert (Hin : Fin m ∈ scores) by (eapply list_elem_of_lookup_2; exact Hi).
  pose proof (quantile_0_min scores q0 m Hq0 Hfin Hin Hmin) as He.
  cbv iota beta.
  rewrite (eqb_feq (Fin m) (Fin m) _ (Fin m) (feq_refl _) He).
  replace (F64.eqb (Fin m) (Fin m)) with true
    by (symmetry; simpl; apply Qeq_bool_iff; reflexivity).
  simpl F64.isnan. replace (1 =? S (Z.to_nat q))%nat with false
    by (symmetry; apply Nat.eqb_neq; lia).
  reflexivity.
Qed.

Lemma searchsorted_left_mono edges v w :
  (v <= w)%Q ->
  (Qcut.searchsorted_left edges (Fin v) <= Qcut.searchsorted_left edges (Fin w))%nat.
Proof.
  intros Hvw. unfold Qcut.searchsorted_left.
  induction edges as [|e edges IH]; simpl; [lia|].
  destruct (F64.ltb e (Fin v)) eqn:E.
  - assert (E' : F64.ltb e (Fin w) = true).
    { destruct e as [x| | |]; try discriminate; try reflexivity.
      apply ltb_Fin in E. apply ltb_Fin. lra. }
    rewrite E'. simpl. lia.
  - destruct (F64.ltb e (Fin w)); simpl; lia.
Qed.

(** Bin numbers follow the order of the scores, once the lowest edge is
    at most the scores compared. *)
Lemma bin_id_mono e0 edges v w :
  (e0 <= v)%Q -> (v <= w)%Q ->
  (Qcut.bin_id (Fin e0 :: edges) (Fin v) <= Qcut.bin_id (Fin e0 :: edges) (Fin w))%nat.
Proof.
  intros H0 Hvw. unfold Qcut.bin_id.
  destruct (F64.eqb (Fin v) (Fin e0)) eqn:Ev; destruct (F64.eqb (Fin w) (Fin e0)) eqn:Ew;
    simpl in Ev, Ew.
  - lia.
  - apply Qeq_bool_iff in Ev. apply not_true_iff_false in Ew.
    rewrite Qeq_bool_iff in Ew.
    unfold Qcut.searchsorted_left. cbn [List.filter].
    replace (F64.ltb (Fin e0) (Fin w)) with true; [simpl; lia|].
    symmetry. apply ltb_Fin. apply Qle_lteq in Hvw as [Hlt|Heq]; [lra|].
    exfalso. apply Ew. rewrite <- Heq. exact Ev.
  - apply Qeq_bool_iff in Ew. apply not_true_iff_false in Ev.
    rewrite Qeq_bool_iff in Ev. exfalso. apply Ev. lra.
  - apply searchsorted_left_mono. exact Hvw.
Qed.

Lemma label_of_position edges labels v l p :
  NoDup labels ->
  Qcut.label_of edges labels v = Some l -> labels !! p = Some l ->
  Qcut.bin_id edges v = S p.
Proof.
  intros Hnd Hl Hp. unfold Qcut.label_of in Hl.
  destruct (_ || _) eqn:E; [discriminate|].
  apply orb_false_iff in E as [_ E]. apply Nat.eqb_neq in E.
  pose proof (NoDup_lookup labels _ _ l Hnd Hl Hp) as Heq. lia.
Qed.

Lemma main_inv s result s' :
  main s = Ok result s' ->
  exists df s0, cltv_final df 6 default_segments None s0 = Ok result s'.
Proof.
  unfold main. intros H.
  do 5 (apply bind_inv in H as (? & ? & _ & H)). eauto.
Qed.

(** A higher score never takes an earlier label. *)
Lemma qcut_monotone scores q labels segment lowest :
  1 <= q -> NoDup labels ->
  Forall (fun v => F64.is_finite v || F64.isnan v = true) scores ->
  Qcut.qcut scores q labels = inr segment ->
  Fin lowest ∈ scores ->
  (forall w, Fin w ∈ scores -> (lowest <= w)%Q) ->
  forall i j v w label_v label_w position_v position_w,
    scores !! i = Some (Fin v) -> scores !! j = Some (Fin w) -> (v <= w)%Q ->
    segment !! i = Some (Some label_v) -> segment !! j = Some (Some label_w) ->
    labels !! position_v = Some label_v -> labels !! position_w = Some label_w ->
    (position_v <= position_w)%nat.
Proof.
  intros Hq Hnd Hfin Hcut Hin Hmin i j v w lv lw pv pw Hi Hj Hvw Hsi Hsj Hpv Hpw.
  rewrite qcut_unfold in Hcut by lia. cbv zeta in Hcut.
  destruct (_ && _); [discriminate|].
  destruct (negb (length _ =? length _)%nat); [discriminate|].
  destruct (negb _); [discriminate|]. injection Hcut as <-.
  change (map ?f ?l) with (f <$> l) in Hsi, Hsj.
  rewrite list_lookup_fmap, Hi in Hsi. rewrite list_lookup_fmap, Hj in Hsj.
  simpl in Hsi, Hsj. injection Hsi as Hsi. injection Hsj as Hsj.
  pose proof (label_of_position _ _ _ _ _ Hnd Hsi Hpv) as Hbv.
  pose proof (label_of_position _ _ _ _ _ Hnd Hsj Hpw) as Hbw.
  unfold Qcut.bins in Hbv, Hbw.
  destruct (linspace_head (Z.to_nat q)) as (q0 & ks & Hls & Hq0).
  rewrite Hls in Hbv, Hbw. cbn [map] in Hbv, Hbw.
  pose proof (quantile_0_min scores q0 lowest Hq0 Hfin Hin Hmin) as He.
  destruct (Pd.quantile scores q0) as [e0| | |]; try discriminate He.
  apply feq_Fin in He.
  assert (Hlow : (lowest <= v)%Q).
  { apply Hmin. eapply list_elem_of_lookup_2. exact Hi. }
  pose proof (bin_id_mono e0 (map (Pd.quantile scores) ks) v w
                ltac:(lra) Hvw) as Hmono.
  lia.
Qed.

(** C9, as the code has it.  The horizon of [modelling] is 6 months when
    the caller gives none, and [cltv_final] gives none; the lifetime value
    is computed at the weekly discount rate 0.01, which no parameter
    changes.  The segment count and the labels have no default: a call of
    [cltv_final] that leaves one of them out raises TypeError, and a call
    that gives them cuts with the labels given, the lowest score taking
    the first of them and a higher score never an earlier one.  The count
    6 and the labels F, D, C, B, A, S are the arguments of the call at
    module level. *)
Theorem pipeline_defaults :
  (forall dataframe, modelling dataframe None = modelling dataframe (Some 6)) /\
  (forall dataframe month s cltv s',
     modelling dataframe month s = Ok cltv s' ->
     exists table ggf bgf frequency recency T monetary clv,
       heap s' !! cltv = Some table /\
       Pd.getitem table "cltv" = Some (ColNum clv) /\
       customer_lifetime_value ggf bgf frequency recency T monetary
         (default 6 month) "W" (1 # 100) = inr clv) /\
  (forall dataframe segment_count segments csv s,
     segment_count = None \/ segments = None ->
     call_cltv_final dataframe segment_count segments csv s = Raise TypeError s) /\
  (forall dataframe segment_count segments csv s result s',
     call_cltv_final dataframe (Some segment_count) (Some segments) csv s
       = Ok result s' ->
     exists table ggf bgf frequency recency T monetary scores segment,
       heap s' !! result = Some table /\
       Pd.getitem table "cltv" = Some (ColNum scores) /\
       customer_lifetime_value ggf bgf frequency recency T monetary 6 "W" (1 # 100)
         = inr scores /\
       Pd.getitem table "segment" = Some (ColCat segment) /\
       (1 <= segment_count -> NoDup segments ->
        Forall (fun v => F64.is_finite v || F64.isnan v = true) scores ->
        forall lowest,
          Fin lowest ∈ scores ->
          (forall w, Fin w ∈ scores -> (lowest <= w)%Q) ->
          (forall i, scores !! i = Some (Fin lowest) ->
             segment !! i = Some (segments !! 0%nat)) /\
          (forall i j v w label_v label_w position_v position_w,
             scores !! i = Some (Fin v) -> scores !! j = Some (Fin w) -> (v <= w)%Q ->
             segment !! i = Some (Some label_v) -> segment !! j = Some (Some label_w) ->
             segments !! position_v = Some label_v ->
             segments !! position_w = Some label_w ->
             (position_v <= position_w)%nat))) /\
  (forall s result s',
     main s = Ok result s' ->
     exists df s0,
       call_cltv_final df (Some 6) (Some ["F"; "D"; "C"; "B"; "A"; "S"]) None s0
         = Ok result s').
Proof.
  split; [reflexivity|]. split; [|split; [|split]].
  - intros dataframe month s cltv s'. apply modelling_discount.
  - intros dataframe segment_count segments csv s [-> | ->]; [reflexivity|].
    destruct segment_count; reflexivity.
  - intros dataframe q labels csv s result s' H. cbn [call_cltv_final] in H.
    apply cltv_final_segments in H
      as (table & ggf & bgf & f & rc & T & mon & scores & segment
          & Ht & Hsc & Hlib & Hseg & Hcut).
    exists table, ggf, bgf, f, rc, T, mon, scores, segment.
    split; [exact Ht|]. split; [exact Hsc|]. split; [exact Hlib|].
    split; [exact Hseg|].
    intros Hq Hnd Hfin lowest Hin Hmin. split.
    + intros i Hi.
      apply (qcut_lowest_first scores q labels segment i lowest); assumption.
    + apply (qcut_monotone scores q labels segment lowest); assumption.
  - intros s result s' H. apply main_inv in H as (df & s0 & H).
    exists df, s0. exact H.
Qed.

(** * Further properties of the code *)

(** ** What capping keeps *)

Lemma clip_isnan low high x : F64.isnan (clip low high x) = F64.isnan x.
Proof.
  unfold clip, F64.gtb.
  destruct (F64.ltb x low) eqn:E1; [destruct x, low; try discriminate; reflexivity|].
  destruct (F64.ltb high x) eqn:E2; [destruct x, high; try discriminate; reflexivity|].
  reflexivity.
Qed.

Lemma capped_lookup xs i x :
  xs !! i = Some x -> capped xs !! i = Some (clip (limits xs).1 (limits xs).2 x).
Proof.
  intros H. unfold capped. change (map ?f ?l) with (f <$> l).
  rewrite list_lookup_fmap, H. reflexivity.
Qed.

Lemma length_capped xs : length (capped xs) = length xs.
Proof. unfold capped. apply length_map. Qed.

(** X1. Capping keeps the number of rows of the column and its missing
    values: a cell is NaN after [replace_with_thresholds] exactly when it
    was NaN before. *)
Theorem replace_with_thresholds_keeps_missing_values (s : state) (r : loc)
    (d : DataFrame) (c : string) (xs : list float64) :
  heap s !! r = Some d ->
  Pd.getitem d c = Some (ColNum xs) ->
  exists ys : list float64,
    replace_with_thresholds r c s
    = Ok tt (with_heap s (<[r := Pd.setitem d c (ColNum ys)]> (heap s))) /\
    length ys = length xs /\
    forall (i : nat) (x : float64), xs !! i = Some x ->
      exists y, ys !! i = Some y /\ F64.isnan y = F64.isnan x.
Proof.
  intros Hr Hc. exists (capped xs).
  split; [apply replace_with_thresholds_run; assumption|].
  split; [apply length_capped|].
  intros i x Hx. eexists. split; [apply capped_lookup; exact Hx|].
  apply clip_isnan.
Qed.

(** The limits lie on either side of the two quantiles: a cell between
    the quantiles is neither below the lower limit nor above the upper
    one, whatever the quantiles are. *)
Lemma limits_bracket q1 q3 x :
  F64.le q1 x -> F64.le x q3 ->
  let iqr := F64.sub q3 q1 in
  F64.ltb x (F64.sub q1 (F64.mul (Fin (3 # 2)) iqr)) = false /\
  F64.gtb x (F64.add q3 (F64.mul (Fin (3 # 2)) iqr)) = false.
Proof.
  intros H1 H3. cbv zeta.
  destruct q1 as [a| | |], x as [v| | |], q3 as [b| | |];
    try (destruct H1 as (?&?&?); discriminate);
    try (destruct H3 as (?&?&?); discriminate);
    try apply le_Fin in H1; try apply le_Fin in H3;
    f64_crush; try (split; reflexivity).
  all: try (split; [apply ltb_Fin_false|apply ltb_Fin_false]; lra).
Qed.

(** X2. Capping never touches the bulk of the column: a cell that lies
    between the 0.01 and the 0.99 quantile of its column is left as it
    is. *)
Theorem replace_with_thresholds_keeps_central_cells (s : state) (r : loc)
    (d : DataFrame) (c : string) (xs : list float64) :
  heap s !! r = Some d ->
  Pd.getitem d c = Some (ColNum xs) ->
  exists ys : list float64,
    replace_with_thresholds r c s
    = Ok tt (with_heap s (<[r := Pd.setitem d c (ColNum ys)]> (heap s))) /\
    forall (i : nat) (x : float64), xs !! i = Some x ->
      F64.le (Pd.quantile xs (1 # 100)) x ->
      F64.le x (Pd.quantile xs (99 # 100)) ->
      ys !! i = Some x.
Proof.
  intros Hr Hc. exists (capped xs).
  split; [apply replace_with_thresholds_run; assumption|].
  intros i x Hx H1 H3. rewrite (capped_lookup _ _ _ Hx). f_equal.
  destruct (limits_bracket _ _ _ H1 H3) as [Hlow Hup].
  unfold clip, limits. cbn [fst snd].
  unfold low_quantile_default, up_quantile_default.
  rewrite Hlow, Hup. reflexivity.
Qed.

(** ** Capped values *)

Lemma sort_Forall (P : float64 -> Prop) xs : Forall P xs -> Forall P (Pd.sort xs).
Proof.
  unfold Pd.sort. induction xs as [|x xs IH]; intros H; simpl; [constructor|].
  apply Forall_cons in H as [Hx H]. apply insert_sorted_Forall. auto.
Qed.

Lemma dropna_finite xs :
  finite_or_missing xs -> Forall (fun v => F64.is_finite v = true) (Pd.dropna xs).
Proof.
  unfold finite_or_missing, Pd.dropna.
  induction xs as [|x xs IH]; intros H; simpl; [constructor|].
  apply Forall_cons in H as [Hx H].
  destruct x; simpl in *; try discriminate; try constructor; auto.
Qed.

Lemma nth_finite l i :
  Forall (fun v => F64.is_finite v = true) l -> (i < length l)%nat ->
  exists q, nth i l NaN = Fin q.
Proof.
  intros H Hi. rewrite Forall_forall in H.
  specialize (H (nth i l NaN)).
  destruct (nth i l NaN) as [q| | |] eqn:E; eauto;
    exfalso; assert (Hin : nth i l NaN ∈ l)
      by (apply list_elem_of_In, nth_In; exact Hi);
    rewrite E in Hin; specialize (H Hin); discriminate.
Qed.

Lemma lerp_finite a b t : exists q, Pd.lerp (Fin a) (Fin b) t = Fin q.
Proof. unfold Pd.lerp. destruct (Qle_bool _ _); simpl; eauto. Qed.

(** A quantile of finite cells is finite; a column without any value has
    NaN for every quantile. *)
Lemma quantile_finite xs q :
  finite_or_missing xs -> (0 <= q)%Q -> (q <= 1)%Q ->
  (exists v, Pd.quantile xs q = Fin v) \/
  (Pd.quantile xs q = NaN /\ Pd.dropna xs = []).
Proof.
  intros Hfin H0 H1. unfold Pd.quantile.
  pose proof (sort_Forall _ _ (dropna_finite _ Hfin)) as Hs.
  destruct (Pd.sort (Pd.dropna xs)) as [|v vs] eqn:E.
  - right. split; [reflexivity|].
    destruct (Pd.dropna xs) as [|y ys]; [reflexivity|].
    exfalso. assert (Hin : y ∈ Pd.sort (y :: ys)) by (apply elem_of_sort; left).
    rewrite E in Hin. inversion Hin.
  - left. unfold Pd.percentile.
    set (l := v :: vs) in *. set (m := (length l - 1)%nat).
    assert (Hlen : (0 < length l)%nat) by (simpl; lia).
    set (M := inject_Z (Z.of_nat m)).
    assert (HM : (0 <= M)%Q) by (unfold M; rewrite <- (Zle_Qle 0); lia).
    set (vi := (q * M)%Q).
    assert (Hv0 : (0 <= vi)%Q) by (unfold vi; nra).
    assert (HvM : (vi <= M)%Q) by (unfold vi; nra).
    assert (Hfl0 : 0 <= Qfloor vi).
    { change 0 with (Qfloor 0). apply Qfloor_resp_le. exact Hv0. }
    assert (Hflm : Qfloor vi <= Z.of_nat m).
    { rewrite <- (Qfloor_Z (Z.of_nat m)). apply Qfloor_resp_le. exact HvM. }
    destruct (nth_finite l (Z.to_nat (Qfloor vi)) Hs) as [a ->]; [subst m; lia|].
    destruct (nth_finite l (Nat.min (S (Z.to_nat (Qfloor vi))) m) Hs) as [b ->];
      [subst m; lia|].
    apply lerp_finite.
Qed.

(** The limits of a column of finite cells are finite and ordered, or
    both NaN when the column has no value at all. *)
Lemma limits_finite xs :
  finite_or_missing xs ->
  (exists low high, limits xs = (Fin low, Fin high) /\ (low <= high)%Q) \/
  (limits xs = (NaN, NaN) /\ Pd.dropna xs = []).
Proof.
  intros Hfin.
  pose proof (limits_ordered xs) as Hord. revert Hord.
  unfold limits. cbn [fst snd].
  destruct (quantile_finite xs low_quantile_default Hfin) as [[a ->]|[-> He]];
    [unfold low_quantile_default; lra..| |].
  - destruct (quantile_finite xs up_quantile_default Hfin) as [[b ->]|[-> He]];
      [unfold up_quantile_default; lra..| |].
    + intros [[H _]|H]; [discriminate H|]. left. simpl in *.
      do 2 eexists. split; [reflexivity|]. apply le_Fin in H. exact H.
    + intros _. right. split; [reflexivity|exact He].
  - intros _. right. split; [|exact He].
    destruct (Pd.quantile xs up_quantile_default); reflexivity.
Qed.




Lemma integers_of_Z zs : Forall (fun x => is_integer x \/ x = NaN) (map F64.of_Z zs).
Proof.
  induction zs as [|z zs IH]; constructor; [|exact IH].
  left. exists z. apply feq_refl.
Qed.

Lemma is_integer_round0 q : is_integer (F64.round0 (Fin q)).
Proof. exists (F64.round_half_even q). apply feq_refl. Qed.

(** X4. Capping keeps whole numbers whole: in a column of counts (whole
    numbers, possibly with missing values), every cell is still a whole
    number or missing after [replace_with_thresholds], since each limit is
    rounded before it is written. *)
Theorem replace_with_thresholds_keeps_integers (s : state) (r : loc)
    (d : DataFrame) (c : string) (xs : list float64) :
  heap s !! r = Some d ->
  Pd.getitem d c = Some (ColNum xs) ->
  Forall (fun x => is_integer x \/ x = NaN) xs ->
  exists ys : list float64,
    replace_with_thresholds r c s
    = Ok tt (with_heap s (<[r := Pd.setitem d c (ColNum ys)]> (heap s))) /\
    Forall (fun y => is_integer y \/ y = NaN) ys.
Proof.
  intros Hr Hc Hint. exists (capped xs).
  split; [apply replace_with_thresholds_run; assumption|].
  assert (Hfin : finite_or_missing xs).
  { unfold finite_or_missing.
    eapply Forall_impl; [exact Hint|]. intros x [[z Hz]| ->]; [|reflexivity].
    destruct x; try discriminate Hz. reflexivity. }
  unfold capped. apply Forall_forall. intros y Hy.
  apply list_elem_of_In, in_map_iff in Hy as (x & <- & Hx).
  apply list_elem_of_In in Hx.
  rewrite Forall_forall in Hint. specialize (Hint x Hx).
  destruct (limits_finite xs Hfin) as [(low & high & -> & _)|[-> _]];
    cbn [fst snd]; unfold clip, F64.gtb.
  - destruct (F64.ltb x (Fin low)); [left; apply is_integer_round0|].
    destruct (F64.ltb (Fin high) x); [left; apply is_integer_round0|].
    exact Hint.
  - destruct x; exact Hint.
Qed.


(** ** The classification of the columns *)

Lemma filter_and {A} (p q : A -> bool) l :
  List.filter p (List.filter q l) = List.filter (fun x => q x && p x) l.
Proof.
  induction l as [|x l IH]; simpl; [reflexivity|].
  destruct (q x); simpl; [destruct (p x)|]; rewrite IH; reflexivity.
Qed.

Lemma filter_four_ways {A} (o big small : A -> bool) l :
  Permutation
    (List.filter (fun x => o x && negb (big x)) l
     ++ List.filter (fun x => small x && negb (o x)) l
     ++ List.filter (fun x => big x && o x) l
     ++ List.filter (fun x => negb (o x) && negb (small x)) l) l.
Proof.
  induction l as [|x l IH]; simpl; [constructor|].
  destruct (o x), (big x), (small x); simpl;
    rewrite <- ?Permutation_middle; constructor; exact IH.
Qed.

Lemma elem_of_filter_bool {A} (p : A -> bool) l x :
  x ∈ List.filter p l <-> x ∈ l /\ p x = true.
Proof. rewrite !list_elem_of_In. apply filter_In. Qed.

Lemma classification (o big small : string -> bool) (cols : list string) :
  Permutation
    (List.filter (fun col => negb (mem col (List.filter (fun col => big col && o col) cols)))
       (List.filter o cols
        ++ List.filter (fun col => small col && negb (o col)) cols)
     ++ List.filter (fun col => big col && o col) cols
     ++ List.filter (fun col => negb (mem col (List.filter
                        (fun col => small col && negb (o col)) cols)))
          (List.filter (fun col => negb (o col)) cols)) cols.
Proof.
  pose proof (filter_four_ways o big small cols) as HP.
  assert (Hin : forall c, mem c (List.filter (fun col => big col && o col) cols) = true
                          -> o c = true).
  { intros c Hc. apply mem_true, elem_of_filter_bool in Hc as [_ Hc].
    apply andb_true_iff in Hc. tauto. }
  assert (Hcat :
    List.filter (fun col => negb (mem col (List.filter (fun col => big col && o col) cols)))
      (List.filter o cols
       ++ List.filter (fun col => small col && negb (o col)) cols)
    = List.filter (fun x => o x && negb (big x)) cols
      ++ List.filter (fun x => small x && negb (o x)) cols).
  { rewrite List.filter_app. f_equal.
    - rewrite filter_and. apply List.filter_ext_in. intros c Hc.
      destruct (o c) eqn:Eo; [|reflexivity]. simpl. f_equal.
      apply eq_true_iff_eq. rewrite mem_true, elem_of_filter_bool, Eo, andb_true_r.
      apply list_elem_of_In in Hc. tauto.
    - rewrite filter_and. apply List.filter_ext_in. intros c _.
      destruct (small c && negb (o c)) eqn:E; [|reflexivity]. simpl.
      apply andb_true_iff in E as [_ E]. apply negb_true_iff in E.
      apply negb_true_iff, not_true_iff_false. intros Hm. apply Hin in Hm. congruence. }
  assert (Hnum :
    List.filter (fun col => negb (mem col (List.filter
                   (fun col => small col && negb (o col)) cols)))
      (List.filter (fun col => negb (o col)) cols)
    = List.filter (fun x => negb (o x) && negb (small x)) cols).
  { rewrite filter_and. apply List.filter_ext_in. intros c Hc.
    destruct (o c) eqn:Eo; [reflexivity|]. simpl. f_equal.
    apply eq_true_iff_eq. rewrite mem_true, elem_of_filter_bool, Eo, andb_true_r.
    apply list_elem_of_In in Hc. tauto. }
  rewrite Hcat, Hnum, <- app_assoc. exact HP.
Qed.

(** X6. [grab_col_names] classifies every column exactly once: the three
    lists it returns, taken together, are the columns of the frame, none
    missing and none twice, whatever the two thresholds. *)
Theorem grab_col_names_partition (dataframe : DataFrame) (cat_th car_th : nat)
    (cat_cols cat_but_car num_cols : list string) :
  NoDup (Pd.columns dataframe) ->
  grab_col_names dataframe cat_th car_th = (cat_cols, cat_but_car, num_cols) ->
  Permutation (cat_cols ++ cat_but_car ++ num_cols) (Pd.columns dataframe) /\
  NoDup (cat_cols ++ cat_but_car ++ num_cols).
Proof.
  intros Hnd H.
  assert (HP : Permutation (cat_cols ++ cat_but_car ++ num_cols) (Pd.columns dataframe)).
  2:{ split; [exact HP|]. rewrite HP. exact Hnd. }
  unfold grab_col_names in H. injection H as <- <- <-.
  exact (classification
           (fun col => from_option Pd.is_object false (Pd.getitem dataframe col))
           (fun col => (car_th <? from_option Pd.nunique 0 (Pd.getitem dataframe col))%nat)
           (fun col => (from_option Pd.nunique 0 (Pd.getitem dataframe col) <? cat_th)%nat)
           (Pd.columns dataframe)).
Qed.

(** ** Runs of [data_prep] *)

Lemma load_run r s d : heap s !! r = Some d -> Heap.load r s = Ok d s.
Proof. intros H. unfold Heap.load. rewrite H. reflexivity. Qed.


Lemma with_heap_insert_id s r d : heap s !! r = Some d -> with_heap s (<[r := d]> (heap s)) = s.
Proof. intros H. rewrite list_insert_id by exact H. apply with_heap_id. Qed.

Lemma with_heap_insert_insert s r (d1 d2 : DataFrame) :
  with_heap (with_heap s (<[r := d1]> (heap s)))
    (<[r := d2]> (heap (with_heap s (<[r := d1]> (heap s)))))
  = with_heap s (<[r := d2]> (heap s)).
Proof.
  rewrite with_heap_with_heap. cbn [heap with_heap].
  rewrite list_insert_insert_eq. reflexivity.
Qed.

(** On a column that is not numeric the limits cannot be computed, and
    nothing is written. *)
Lemma replace_with_thresholds_not_numeric r c s d col :
  heap s !! r = Some d -> Pd.getitem d c = Some col ->
  (forall xs, col <> ColNum xs) ->
  replace_with_thresholds r c s = Raise TypeError s.
Proof.
  intros Hr Hc Hcol. unfold replace_with_thresholds, outlier_thresholds.
  erewrite bind_raise; [reflexivity|].
  erewrite bind_raise; [reflexivity|].
  rewrite (bind_run _ _ _ _ _ (getitem_run _ _ _ _ _ Hr Hc)).
  destruct col; try reflexivity. exfalso. eapply Hcol. reflexivity.
Qed.

Lemma cap_column_numeric d c xs :
  Pd.getitem d c = Some (ColNum xs) ->
  cap_column d c = Pd.setitem d c (ColNum (capped xs)).
Proof. intros H. unfold cap_column. rewrite H. reflexivity. Qed.

Lemma getitem_cap_column_numeric d k c xs :
  Pd.getitem d c = Some (ColNum xs) ->
  exists ys, Pd.getitem (cap_column d k) c = Some (ColNum ys).
Proof.
  intros H. destruct (String.eqb_spec k c) as [->|Hne].
  - rewrite (getitem_cap_column_eq _ _ _ H). eauto.
  - rewrite getitem_cap_column_ne by exact Hne. eauto.
Qed.

Lemma cap_columns_getitem_numeric cols : forall d c xs,
  Pd.getitem d c = Some (ColNum xs) ->
  exists ys, Pd.getitem (cap_columns d cols) c = Some (ColNum ys).
Proof.
  induction cols as [|k cols IH]; intros d c xs H; simpl; [eauto|].
  destruct (getitem_cap_column_numeric d k c xs H) as [ys Hys].
  eapply IH. exact Hys.
Qed.


Lemma columns_cap_columns cols : forall d,
  Pd.columns (cap_columns d cols) = Pd.columns d.
Proof.
  induction cols as [|k cols IH]; intros d; simpl; [reflexivity|].
  rewrite IH. unfold cap_column.
  destruct (Pd.getitem d k) as [[xs| | |]|] eqn:E; try reflexivity.
  apply columns_setitem_present. eauto.
Qed.

(** The capping loop on columns that are all numeric. *)
Lemma cap_loop_run r cols : forall s d,
  heap s !! r = Some d ->
  (forall c, c ∈ cols -> exists xs, Pd.getitem d c = Some (ColNum xs)) ->
  for_each cols (fun col => replace_with_thresholds r col) s
  = Ok tt (with_heap s (<[r := cap_columns d cols]> (heap s))).
Proof.
  induction cols as [|c cols IH]; intros s d Hr Hnum; simpl.
  - rewrite with_heap_insert_id by exact Hr. reflexivity.
  - destruct (Hnum c) as [xs Hc]; [left|].
    rewrite (bind_run _ _ _ _ _ (replace_with_thresholds_run r c s d xs Hr Hc)).
    rewrite (cap_column_numeric _ _ _ Hc).
    rewrite (IH _ (Pd.setitem d c (ColNum (capped xs)))).
    + rewrite with_heap_insert_insert. reflexivity.
    + eapply lookup_with_heap_insert. exact Hr.
    + intros k Hk. destruct (Hnum k) as [ys Hys]; [right; exact Hk|].
      rewrite <- (cap_column_numeric _ _ _ Hc).
      eapply getitem_cap_column_numeric. exact Hys.
Qed.

(** The capping loop stops with a TypeError at the first column that is
    not numeric. *)
Lemma cap_loop_raise r cols : forall s d c col,
  heap s !! r = Some d ->
  (forall k, k ∈ cols -> is_Some (Pd.getitem d k)) ->
  c ∈ cols -> Pd.getitem d c = Some col -> (forall xs, col <> ColNum xs) ->
  exists s', for_each cols (fun col => replace_with_thresholds r col) s
             = Raise TypeError s'.
Proof.
  induction cols as [|k cols IH]; intros s d c col Hr Hall Hin Hc Hcol.
  - inversion Hin.
  - simpl. destruct (Hall k) as [colk Hk]; [left|].
    assert (Hcase : (exists xs, colk = ColNum xs) \/ (forall xs, colk <> ColNum xs)).
    { destruct colk; eauto; right; discriminate. }
    destruct Hcase as [[xs ->]|Hk'].
    + rewrite (bind_run _ _ _ _ _ (replace_with_thresholds_run r k s d xs Hr Hk)).
      assert (Hne : k <> c).
      { intros ->. rewrite Hk in Hc. injection Hc as <-. eapply Hcol. reflexivity. }
      apply elem_of_cons in Hin as [->|Hin]; [congruence|].
      eapply (IH _ (Pd.setitem d k (ColNum (capped xs))) c col).
      * eapply lookup_with_heap_insert. exact Hr.
      * intros k' Hk'. apply getitem_setitem_is_Some. apply Hall. right. exact Hk'.
      * exact Hin.
      * rewrite getitem_setitem_ne by exact Hne. exact Hc.
      * exact Hcol.
    + exists s. erewrite bind_raise; [reflexivity|].
      eapply replace_with_thresholds_not_numeric; eassumption.
Qed.

(** The columns that [grab_col_names] calls numeric: those that are not
    text and have at least ten distinct values. *)
Lemma numeric_columns_elem d c :
  c ∈ numeric_columns d <->
  exists col, Pd.getitem d c = Some col /\ Pd.is_object col = false /\
              (10 <= Pd.nunique col)%nat.
Proof.
  unfold numeric_columns, grab_col_names. cbn [snd].
  rewrite !elem_of_filter_bool.
  set (num_but_cat := List.filter _ (Pd.columns d)).
  assert (Hmem : forall col, Pd.getitem d c = Some col -> Pd.is_object col = false ->
            (mem c num_but_cat = true <-> (Pd.nunique col < 10)%nat)).
  { intros col Hc Ho. rewrite mem_true. unfold num_but_cat.
    rewrite elem_of_filter_bool, Hc. cbn [from_option]. rewrite Ho, andb_true_r.
    rewrite Nat.ltb_lt. pose proof (getitem_Some_columns d c col Hc). tauto. }
  split.
  - intros [[Hin Ho] Hm].
    destruct (columns_getitem_Some d c Hin) as [col Hc].
    rewrite Hc in Ho. cbn [from_option] in Ho. apply negb_true_iff in Ho.
    exists col. split; [exact Hc|]. split; [exact Ho|].
    apply negb_true_iff, not_true_iff_false in Hm.
    rewrite (Hmem col Hc Ho) in Hm. lia.
  - intros (col & Hc & Ho & Hn).
    pose proof (getitem_Some_columns d c col Hc) as Hin.
    rewrite Hc. cbn [from_option]. rewrite Ho. split; [split; [exact Hin|reflexivity]|].
    apply negb_true_iff, not_true_iff_false. rewrite (Hmem col Hc Ho). lia.
Qed.

Lemma data_prep_unfold r s d :
  heap s !! r = Some d ->
  data_prep r s =
  (for_each (numeric_columns d) (fun col => replace_with_thresholds r col) ;;
   online ← Heap.getitem r "order_num_total_ever_online";
   offline ← Heap.getitem r "order_num_total_ever_offline";
   total ← lift (Series.add online offline);
   Heap.setitem r "total_order_num" total ;;
   value_offline ← Heap.getitem r "customer_value_total_ever_offline";
   value_online ← Heap.getitem r "customer_value_total_ever_online";
   value ← lift (Series.add value_offline value_online);
   Heap.setitem r "customer_value_total" value ;;
   d ← Heap.load r;
   let date_cols := List.filter (fun c => Pd.contains c "date") (Pd.columns d) in
   converted ← for_list date_cols (fun c =>
     col ← Heap.getitem r c;
     ts ← lift (to_datetime col);
     mret (c, ColDate ts));
   for_each converted (fun '(c, col) => Heap.setitem r c col) ;;
   mret r) s.
Proof.
  intros Hr. unfold data_prep.
  rewrite (bind_run _ _ _ _ _ (load_run _ _ _ Hr)).
  unfold numeric_columns. destruct (grab_col_names d 10 20) as [[? ?] ?]. reflexivity.
Qed.

(** [data_prep] stops in the capping loop when [grab_col_names] lists a
    column that is not numeric. *)
Lemma data_prep_capping_raises r s d c col :
  heap s !! r = Some d ->
  c ∈ numeric_columns d -> Pd.getitem d c = Some col ->
  (forall xs, col <> ColNum xs) ->
  exists s', data_prep r s = Raise TypeError s'.
Proof.
  intros Hr Hin Hc Hcol.
  destruct (cap_loop_raise r (numeric_columns d) s d c col Hr) as [s' Hs'];
    try assumption.
  { intros k Hk. apply numeric_columns_elem in Hk as (colk & Hk & _). eauto. }
  exists s'. rewrite (data_prep_unfold _ _ _ Hr).
  erewrite bind_raise; [reflexivity|exact Hs'].
Qed.

(** X7. [data_prep] stops with a TypeError on a table that has a column
    of dates (dtype datetime64) with ten distinct values or more:
    [grab_col_names] calls such a column numeric, and the limits of a
    column of dates cannot be rounded.  Nothing is written to disk. *)
Theorem data_prep_rejects_datetime_column (s : state) (dataframe : loc)
    (d : DataFrame) (c : string) (xs : list Z) :
  heap s !! dataframe = Some d ->
  NoDup (Pd.columns d) ->
  Pd.getitem d c = Some (ColDate xs) ->
  (10 <= Pd.nunique (ColDate xs))%nat ->
  exists s' : state,
    data_prep dataframe s = Raise TypeError s' /\ files s' = files s.
Proof.
  intros Hr _ Hc Hn.
  assert (Hin : c ∈ numeric_columns d).
  { apply numeric_columns_elem. exists (ColDate xs). auto. }
  destruct (data_prep_capping_raises dataframe s d c (ColDate xs) Hr Hin Hc)
    as [s' Hrun]; [discriminate|].
  exists s'. split; [exact Hrun|].
  pose proof (pres_data_prep dataframe s) as Hf. rewrite Hrun in Hf. exact Hf.
Qed.

Lemma plain_getitem d c col :
  plain d -> Pd.getitem d c = Some col -> plain_column col = true.
Proof.
  unfold plain. induction d as [|[k c0] d IH]; simpl; intros Hp H; [discriminate|].
  apply Forall_cons in Hp as [Hk Hp].
  destruct (String.eqb k c); [injection H as <-; exact Hk|auto].
Qed.

Lemma plain_numeric_columns d c :
  plain d -> c ∈ numeric_columns d -> exists xs, Pd.getitem d c = Some (ColNum xs).
Proof.
  intros Hp Hc. apply numeric_columns_elem in Hc as (col & Hc & Ho & _).
  pose proof (plain_getitem d c col Hp Hc) as Hpc.
  destruct col; try discriminate. eauto.
Qed.

Lemma convert_loop_run r d cols s :
  heap s !! r = Some d ->
  (forall c, c ∈ cols ->
     exists col ts, Pd.getitem d c = Some col /\ to_datetime col = inr ts) ->
  exists converted,
    for_list cols (fun c =>
      col ← Heap.getitem r c; ts ← lift (to_datetime col); mret (c, ColDate ts)) s
    = Ok converted s.
Proof.
  intros Hr. induction cols as [|c cols IH]; intros Hall; simpl; [eauto|].
  destruct (Hall c) as (col & ts & Hc & Hts); [left|].
  destruct IH as [converted Hconv]; [intros k Hk; apply Hall; right; exact Hk|].
  exists ((c, ColDate ts) :: converted).
  erewrite bind_run.
  2:{ rewrite (bind_run _ _ _ _ _ (getitem_run _ _ _ _ _ Hr Hc)).
      rewrite Hts. reflexivity. }
  rewrite (bind_run _ _ _ _ _ Hconv). reflexivity.
Qed.

Lemma assign_loop_run r converted : forall s d,
  heap s !! r = Some d ->
  for_each converted (fun '(c, col) => Heap.setitem r c col) s
  = Ok tt (with_heap s (<[r := set_columns d converted]> (heap s))).
Proof.
  induction converted as [|[c col] converted IH]; intros s d Hr; simpl.
  - rewrite with_heap_insert_id by exact Hr. reflexivity.
  - rewrite (bind_run _ _ _ _ _ (setitem_run r c col s d Hr)).
    rewrite (IH _ (Pd.setitem d c col)) by (eapply lookup_with_heap_insert; exact Hr).
    rewrite with_heap_insert_insert. reflexivity.
Qed.

Lemma mem_cons x y l : mem x (y :: l) = String.eqb x y || mem x l.
Proof. reflexivity. Qed.

(** The labels of a frame after an assignment to a column. *)
Lemma columns_setitem d k col :
  Pd.columns (Pd.setitem d k col) = with_column (Pd.columns d) k.
Proof.
  unfold with_column, Pd.columns. induction d as [|[k0 c0] d IH]; simpl; [reflexivity|].
  rewrite (String.eqb_sym k k0).
  destruct (String.eqb k0 k) eqn:E; simpl; [reflexivity|].
  rewrite IH. destruct (mem k (map fst d)); reflexivity.
Qed.

Lemma elem_of_with_column cols k c : c ∈ with_column cols k <-> c ∈ cols \/ c = k.
Proof.
  unfold with_column. destruct (mem k cols) eqn:E.
  - apply mem_true in E. split; [auto|]. intros [H| ->]; assumption.
  - rewrite elem_of_app, list_elem_of_singleton. reflexivity.
Qed.

(** The date columns of the frame that holds the two totals are those of
    the table that was given. *)
Lemma date_columns_totals d total value c :
  c ∈ date_columns (Pd.setitem (Pd.setitem (cap_columns d (numeric_columns d))
                      "total_order_num" total) "customer_value_total" value) ->
  c ∈ Pd.columns d /\ Pd.contains c "date" = true /\
  c <> "total_order_num"%string /\ c <> "customer_value_total"%string.
Proof.
  unfold date_columns. rewrite elem_of_filter_bool, !columns_setitem.
  rewrite !elem_of_with_column, columns_cap_columns.
  intros [[[H| ->]| ->] Hd]; try discriminate Hd.
  repeat split; try assumption; intros ->; discriminate Hd.
Qed.

(** X8. [data_prep] returns on every table of numeric and text columns
    that holds the four order columns as numbers and whose columns named
    [*date*] are text with at least one row that [pd.to_datetime] parses;
    it returns the reference it was given, to the table in prepared
    form.  (A table without rows is left aside: [DataFrame.apply] converts
    nothing there.) *)
Theorem data_prep_succeeds (s : state) (dataframe : loc) (d : DataFrame) :
  heap s !! dataframe = Some d ->
  NoDup (Pd.columns d) ->
  plain d ->
  (forall c, c ∈ required_columns -> exists xs, Pd.getitem d c = Some (ColNum xs)) ->
  (forall c, c ∈ Pd.columns d -> Pd.contains c "date" = true ->
     exists strs ts, Pd.getitem d c = Some (ColObj strs) /\ strs <> [] /\
                     to_datetime (ColObj strs) = inr ts) ->
  exists (s' : state) (d1 : DataFrame),
    data_prep dataframe s = Ok dataframe s' /\
    heap s' !! dataframe = Some d1 /\ prepared d d1.
Proof.
  intros Hr _ Hplain Hreq Hdates.
  assert (Hrun : exists s', data_prep dataframe s = Ok dataframe s').
  { rewrite (data_prep_unfold _ _ _ Hr).
    set (dA := cap_columns d (numeric_columns d)).
    rewrite (bind_run _ _ _ _ _
               (cap_loop_run dataframe (numeric_columns d) s d Hr
                  (fun c Hc => plain_numeric_columns d c Hplain Hc))).
    fold dA. set (s1 := with_heap s (<[dataframe := dA]> (heap s))).
    assert (Hr1 : heap s1 !! dataframe = Some dA)
      by (eapply lookup_with_heap_insert; exact Hr).
    assert (HA : forall c, c ∈ required_columns ->
              exists ys, Pd.getitem dA c = Some (ColNum ys)).
    { intros c Hc. destruct (Hreq c Hc) as [xs Hx].
      eapply cap_columns_getitem_numeric. exact Hx. }
    destruct (HA "order_num_total_ever_online"%string) as [on Hon];
      [unfold required_columns; repeat constructor|].
    destruct (HA "order_num_total_ever_offline"%string) as [off Hoff];
      [unfold required_columns; repeat constructor|].
    destruct (HA "customer_value_total_ever_offline"%string) as [voff Hvoff];
      [unfold required_columns; repeat constructor|].
    destruct (HA "customer_value_total_ever_online"%string) as [von Hvon];
      [unfold required_columns; repeat constructor|].
    rewrite (bind_run _ _ _ _ _ (getitem_run _ _ _ _ _ Hr1 Hon)).
    rewrite (bind_run _ _ _ _ _ (getitem_run _ _ _ _ _ Hr1 Hoff)).
    cbn [Series.add lift]. rewrite (bind_run _ _ _ (ColNum (zip_with F64.add on off)) s1 eq_refl).
    rewrite (bind_run _ _ _ _ _ (setitem_run _ "total_order_num" _ s1 dA Hr1)).
    unfold s1 at 1 2. rewrite with_heap_insert_insert.
    set (dA' := Pd.setitem dA "total_order_num" (ColNum (zip_with F64.add on off))).
    set (s2 := with_heap s (<[dataframe := dA']> (heap s))).
    assert (Hr2 : heap s2 !! dataframe = Some dA')
      by (eapply lookup_with_heap_insert; exact Hr).
    assert (Hvoff' : Pd.getitem dA' "customer_value_total_ever_offline"
                     = Some (ColNum voff))
      by (unfold dA'; rewrite getitem_setitem_ne by discriminate; exact Hvoff).
    assert (Hvon' : Pd.getitem dA' "customer_value_total_ever_online"
                    = Some (ColNum von))
      by (unfold dA'; rewrite getitem_setitem_ne by discriminate; exact Hvon).
    rewrite (bind_run _ _ _ _ _ (getitem_run _ _ _ _ _ Hr2 Hvoff')).
    rewrite (bind_run _ _ _ _ _ (getitem_run _ _ _ _ _ Hr2 Hvon')).
    cbn [Series.add lift].
    rewrite (bind_run _ _ _ (ColNum (zip_with F64.add voff von)) s2 eq_refl).
    rewrite (bind_run _ _ _ _ _ (setitem_run _ "customer_value_total" _ s2 dA' Hr2)).
    unfold s2 at 1 2. rewrite with_heap_insert_insert.
    set (dB := Pd.setitem dA' "customer_value_total" (ColNum (zip_with F64.add voff von))).
    set (s3 := with_heap s (<[dataframe := dB]> (heap s))).
    assert (Hr3 : heap s3 !! dataframe = Some dB)
      by (eapply lookup_with_heap_insert; exact Hr).
    rewrite (bind_run _ _ _ _ _ (load_run _ _ _ Hr3)). cbv zeta.
    destruct (convert_loop_run dataframe dB (date_columns dB) s3 Hr3)
      as [converted Hconv].
    { intros c Hc. apply date_columns_totals in Hc as (Hin & Hd & Hn1 & Hn2).
      destruct (Hdates c Hin Hd) as (strs & ts & Hc & _ & Hts).
      exists (ColObj strs), ts. split; [|exact Hts].
      unfold dB, dA'. rewrite !getitem_setitem_ne by (intros E; symmetry in E; contradiction).
      apply cap_columns_getitem_other_dtype; [exact Hc|discriminate]. }
    unfold date_columns in Hconv. rewrite (bind_run _ _ _ _ _ Hconv).
    rewrite (bind_run _ _ _ _ _ (assign_loop_run dataframe converted s3 dB Hr3)).
    eexists. reflexivity. }
  destruct Hrun as [s' Hrun]. pose proof Hrun as Hinv.
  apply data_prep_inv in Hinv as [_ (d' & d1 & Hr' & Hprep & ->)].
  rewrite Hr in Hr'. injection Hr' as <-.
  exists (with_heap s (<[dataframe := d1]> (heap s))), d1.
  split; [exact Hrun|]. split; [eapply lookup_with_heap_insert; exact Hr|exact Hprep].
Qed.

(** ** The prepared table *)

Lemma prepared_columns d d1 :
  prepared d d1 ->
  Pd.columns d1
  = with_column (with_column (Pd.columns d) "total_order_num") "customer_value_total".
Proof.
  intros (online & offline & total & voff & von & value & converted & H).
  cbv zeta in H. destruct H as (_ & _ & _ & _ & _ & _ & Hconv & ->).
  rewrite set_columns_columns.
  - rewrite !columns_setitem, columns_cap_columns. reflexivity.
  - intros p Hp. destruct (converted_members _ _ _ Hconv p Hp) as [Hin _].
    apply columns_getitem_Some. unfold date_columns in Hin.
    apply elem_of_filter_bool in Hin as [Hin _]. exact Hin.
Qed.

Lemma NoDup_with_column cols k : NoDup cols -> NoDup (with_column cols k).
Proof.
  intros H. unfold with_column. destruct (mem k cols) eqn:E; [exact H|].
  apply NoDup_app. split; [exact H|]. split; [|apply NoDup_singleton].
  intros x Hx Hk. apply list_elem_of_singleton in Hk as ->.
  apply mem_true in Hx. congruence.
Qed.

(** X9. [data_prep] keeps the columns of the table in their order and
    adds [total_order_num] and [customer_value_total] at the end, each
    unless the table has a column of that name already (which is then
    overwritten in its place). *)
Theorem data_prep_columns (s : state) (dataframe : loc) (d : DataFrame)
    (r : loc) (s' : state) :
  heap s !! dataframe = Some d ->
  data_prep dataframe s = Ok r s' ->
  exists d1 : DataFrame,
    heap s' !! dataframe = Some d1 /\
    Pd.columns d1
    = with_column (with_column (Pd.columns d) "total_order_num") "customer_value_total".
Proof.
  intros Hr H. apply data_prep_inv in H as [-> (d' & d1 & Hr' & Hprep & ->)].
  rewrite Hr in Hr'. injection Hr' as <-.
  exists d1. split; [eapply lookup_with_heap_insert; exact Hr|].
  apply prepared_columns. exact Hprep.
Qed.

(** X10. [data_prep] never changes a text column, unless it is named
    [*date*] or carries the name of one of the two totals: identifiers
    and channels are as they were. *)
Theorem data_prep_keeps_text_columns (s : state) (dataframe : loc) (d : DataFrame)
    (c : string) (strs : list string) (r : loc) (s' : state) :
  heap s !! dataframe = Some d ->
  Pd.getitem d c = Some (ColObj strs) ->
  Pd.contains c "date" = false ->
  c <> "total_order_num"%string -> c <> "customer_value_total"%string ->
  data_prep dataframe s = Ok r s' ->
  exists d1 : DataFrame,
    heap s' !! dataframe = Some d1 /\ Pd.getitem d1 c = Some (ColObj strs).
Proof.
  intros Hr Hc Hdate Hn1 Hn2 H.
  apply data_prep_inv in H as [-> (d' & d1 & Hr' & Hprep & ->)].
  rewrite Hr in Hr'. injection Hr' as <-.
  exists d1. split; [eapply lookup_with_heap_insert; exact Hr|].
  rewrite (prepared_getitem_plain d d1 c Hprep Hdate Hn1 Hn2).
  apply cap_columns_getitem_other_dtype; [exact Hc|discriminate].
Qed.



Lemma cltv_final_after_failed_data_prep r q labels csv s e s' :
  data_prep r s = Raise e s' -> cltv_final r q labels csv s = Raise e s'.
Proof.
  intros H. unfold cltv_final, modelling, create_cltv.
  do 3 (erewrite bind_raise; [reflexivity|]). exact H.
Qed.

(** X12. The pipeline cannot be run twice on the same table.  After a
    call of [cltv_final] that returned, the argument holds
    [last_order_date] as a column of dates; when these dates take ten
    distinct values or more, every further call of [cltv_final] on that
    table stops with a TypeError in [data_prep], and writes no file. *)
Theorem cltv_final_not_rerunnable (s : state) (dataframe : loc)
    (segment_count : Z) (segments : list string) (csv : option bool)
    (result : loc) (s' : state) (before : DataFrame) :
  heap s !! dataframe = Some before ->
  NoDup (Pd.columns before) ->
  cltv_final dataframe segment_count segments csv s = Ok result s' ->
  exists (after : DataFrame) (last_order : list Z),
    heap s' !! dataframe = Some after /\
    Pd.getitem after "last_order_date" = Some (ColDate last_order) /\
    ((10 <= Pd.nunique (ColDate last_order))%nat ->
     forall segment_count' segments' csv',
     exists s'' : state,
       cltv_final dataframe segment_count' segments' csv' s' = Raise TypeError s'' /\
       files s'' = files s').
Proof.
  intros Hr _ H.
  apply cltv_final_inv in H as (s1 & H & Hkeep).
  apply create_cltv_post in H
    as (d & d1 & g & G & cltv & _ & _ & Hr1 & [last_order Hlast] & _ & _ & _ & _ & _
        & Hne & _).
  exists d1, last_order.
  assert (Hr' : heap s' !! dataframe = Some d1) by (rewrite Hkeep by exact Hne; exact Hr1).
  split; [exact Hr'|]. split; [exact Hlast|].
  intros Hn q' labels' csv'.
  assert (Hin : "last_order_date"%string ∈ numeric_columns d1).
  { apply numeric_columns_elem. exists (ColDate last_order). auto. }
  destruct (data_prep_capping_raises dataframe s' d1 _ _ Hr' Hin Hlast)
    as [s'' Hrun]; [discriminate|].
  exists s''. split; [apply cltv_final_after_failed_data_prep; exact Hrun|].
  pose proof (pres_data_prep dataframe s') as Hf. rewrite Hrun in Hf. exact Hf.
Qed.

(** ** The tables that [modelling] and [cltv_final] return *)

Ltac read_cell H :=
  let x := fresh "x" in let s1 := fresh "s" in let Hx := fresh "Hx" in
  apply bind_inv in H as (x & s1 & Hx & H);
  apply getitem_inv in Hx as [-> _].

Ltac call_library H Hlib :=
  let x := fresh "x" in let s1 := fresh "s" in
  apply bind_inv in H as (x & s1 & Hlib & H);
  apply lift_inv in Hlib as [Hlib ->].

Ltac write_column H Hr :=
  let u := fresh "u" in let s1 := fresh "s" in let d' := fresh "d" in
  let Hr' := fresh "Hr" in let Hset := fresh "Hset" in
  apply bind_inv in H as (u & s1 & Hset & H);
  apply setitem_inv in Hset as (d' & Hr' & ->);
  rewrite Hr in Hr'; injection Hr' as <-;
  try rewrite with_heap_insert_insert in H.

Lemma modelling_result r month s c s' :
  modelling r month s = Ok c s' ->
  exists s1 features sales3 sales average clv,
    create_cltv r s = Ok c s1 /\ heap s1 !! c = Some features /\
    s' = with_heap s1
           (<[c := Pd.setitem (Pd.setitem (Pd.setitem (Pd.setitem features
                     "exp_sales_3_month" (ColNum sales3))
                     (exp_sales_column (default 6 month)) (ColNum sales))
                     "exp_average_value" (ColNum average))
                     "cltv" (ColNum clv)]> (heap s1)).
Proof.
  unfold modelling. intros H. apply bind_inv in H as (c0 & s1 & Hc & H).
  pose proof Hc as Hpost.
  apply create_cltv_post in Hpost
    as (_ & _ & _ & _ & F & _ & _ & _ & _ & _ & _ & _ & HF & _).
  do 3 read_cell H. call_library H Hbgf.
  do 3 read_cell H. call_library H Hs3. write_column H HF.
  match type of H with
  | context [<[c0 := ?d]> (heap s1)] =>
      assert (HF1 : heap (with_heap s1 (<[c0 := d]> (heap s1))) !! c0 = Some d)
        by (eapply lookup_with_heap_insert; exact HF)
  end.
  do 3 read_cell H. call_library H Hs. write_column H HF1.
  match type of H with
  | context [<[c0 := ?d]> (heap s1)] =>
      assert (HF2 : heap (with_heap s1 (<[c0 := d]> (heap s1))) !! c0 = Some d)
        by (eapply lookup_with_heap_insert; exact HF)
  end.
  do 2 read_cell H. call_library H Hggf.
  read_cell H. call_library H Hav. write_column H HF2.
  match type of H with
  | context [<[c0 := ?d]> (heap s1)] =>
      assert (HF3 : heap (with_heap s1 (<[c0 := d]> (heap s1))) !! c0 = Some d)
        by (eapply lookup_with_heap_insert; exact HF)
  end.
  do 4 read_cell H. call_library H Hclv. write_column H HF3.
  apply ret_inv in H as [-> ->].
  do 6 eexists. split; [exact Hc|]. split; [exact HF|]. reflexivity.
Qed.

Lemma cltv_final_result r q labels csv s c s' :
  cltv_final r q labels csv s = Ok c s' ->
  exists s2 table scores segment,
    modelling r None s = Ok c s2 /\ heap s2 !! c = Some table /\
    Pd.getitem table "cltv" = Some (ColNum scores) /\
    Qcut.qcut scores q labels = inr segment /\
    heap s' = <[c := Pd.setitem table "segment" (ColCat segment)]> (heap s2) /\
    g_df s' = g_df s2 /\ g_df_org s' = g_df_org s2 /\
    files s' = (if default true csv
                then <["cltv_flo.csv"%string := Pd.setitem table "segment" (ColCat segment)]>
                       (files s2)
                else files s2).
Proof.
  unfold cltv_final. intros H. apply bind_inv in H as (c0 & s2 & Hm & H).
  pose proof Hm as Hres.
  apply modelling_result in Hres as (s1 & F & s3m & sm & av & clv & _ & HF & Hs2).
  assert (Ht : exists table, heap s2 !! c0 = Some table).
  { rewrite Hs2. eexists. eapply lookup_with_heap_insert. exact HF. }
  destruct Ht as [table Ht].
  apply bind_inv in H as (scores & s3 & Hsc & H).
  apply numeric_cells_inv in Hsc as [-> (d & Hr & Hsc)].
  rewrite Ht in Hr. injection Hr as <-.
  call_library H Hq. write_column H Ht.
  apply bind_inv in H as (u' & s3 & Hcsv & H). apply ret_inv in H as [-> ->].
  exists s2, table, scores, x. split; [exact Hm|]. split; [exact Ht|].
  split; [exact Hsc|]. split; [exact Hq|].
  destruct (default true csv).
  - unfold to_csv in Hcsv. apply bind_inv in Hcsv as (d0 & s4 & Hl & Hw).
    apply load_inv in Hl as [-> Hl].
    rewrite (lookup_with_heap_insert _ _ _ _ Ht) in Hl. injection Hl as <-.
    inversion Hw. cbn. auto.
  - inversion Hcsv. cbn. auto.
Qed.

Lemma features_columns G a cltv :
  features_of G a cltv ->
  Pd.columns cltv = ["customer_id"; "recency_cltv_weekly"; "T_weekly"; "frequency";
                     "monetary_cltv_avg"]%string.
Proof.
  intros (? & ? & ? & ? & ? & ? & ? & ? & _ & _ & _ & _ & _ & _ & _ & _ & ->).
  reflexivity.
Qed.

Lemma create_cltv_columns r s c s1 :
  create_cltv r s = Ok c s1 ->
  exists features, heap s1 !! c = Some features /\
    Pd.columns features = ["customer_id"; "recency_cltv_weekly"; "T_weekly"; "frequency";
                           "monetary_cltv_avg"]%string.
Proof.
  intros H. apply create_cltv_post in H
    as (_ & d1 & _ & G & F & _ & _ & _ & _ & _ & _ & Hf & HF & _).
  exists F. split; [exact HF|]. eapply features_columns. exact Hf.
Qed.


Lemma length_append (a b : string) :
  String.length (a +:+ b) = (String.length a + String.length b)%nat.
Proof. induction a as [|x a IH]; simpl; [reflexivity|]. rewrite IH. reflexivity. Qed.

Lemma append_cancel_r (a b s : string) : (a +:+ s = b +:+ s)%string -> a = b.
Proof.
  revert b. induction a as [|x a IH]; intros b H.
  - destruct b as [|y b]; [reflexivity|]. exfalso.
    apply (f_equal String.length) in H.
    rewrite !length_append in H. simpl in H. lia.
  - destruct b as [|y b].
    + exfalso. apply (f_equal String.length) in H.
      rewrite !length_append in H. simpl in H. lia.
    + simpl in H. injection H as -> H. f_equal. apply IH. exact H.
Qed.

Lemma to_int_not_nil (m : Z) :
  Z.to_int m <> Decimal.Pos Decimal.Nil /\ Z.to_int m <> Decimal.Neg Decimal.Nil.
Proof.
  destruct m as [|p|p]; simpl; split; try discriminate;
    intros H; injection H as H; exact (DecimalPos.Unsigned.to_uint_nonnil p H).
Qed.

(** The name of the column of expected sales determines the horizon. *)
Lemma exp_sales_column_inj m n : exp_sales_column m = exp_sales_column n -> m = n.
Proof.
  unfold exp_sales_column. intros H. simpl in H. injection H as H.
  change (String.append "" ?x) with x in H.
  apply append_cancel_r in H.
  apply DecimalZ.to_int_inj.
  destruct (to_int_not_nil m) as [Hm1 Hm2]. destruct (to_int_not_nil n) as [Hn1 Hn2].
  pose proof (NilZero.isi _ Hm1 Hm2) as Em. pose proof (NilZero.isi _ Hn1 Hn2) as En.
  rewrite H in Em. congruence.
Qed.

Lemma exp_sales_column_fresh m :
  m <> 3 ->
  mem (exp_sales_column m)
    ["customer_id"; "recency_cltv_weekly"; "T_weekly"; "frequency";
     "monetary_cltv_avg"; "exp_sales_3_month"] = false.
Proof.
  intros Hm. apply not_true_iff_false. rewrite mem_true.
  intros Hin.
  repeat (apply elem_of_cons in Hin as [Hin|Hin]); try discriminate Hin.
  - apply Hm. apply exp_sales_column_inj. exact Hin.
  - inversion Hin.
Qed.

(** X13. [modelling] returns the five feature columns followed by
    [exp_sales_3_month], [exp_sales_{month}_month], [exp_average_value]
    and [cltv], in this order.  For a horizon of 3 months the two columns
    of expected sales are one and the same, and the table has eight
    columns instead of nine. *)
Theorem modelling_columns (s : state) (dataframe : loc) (month : option Z)
    (result : loc) (s' : state) :
  modelling dataframe month s = Ok result s' ->
  exists table : DataFrame,
    heap s' !! result = Some table /\
    Pd.columns table
    = ["customer_id"; "recency_cltv_weekly"; "T_weekly"; "frequency";
       "monetary_cltv_avg"; "exp_sales_3_month"]%string
      ++ (if default 6 month =? 3 then [] else [exp_sales_column (default 6 month)])
      ++ ["exp_average_value"; "cltv"]%string.
Proof.
  intros H.
  apply modelling_result in H as (s1 & F & s3m & sm & av & clv & Hc & HF & ->).
  eexists. split; [eapply lookup_with_heap_insert; exact HF|].
  apply create_cltv_columns in Hc as (F' & HF' & Hcols).
  rewrite HF in HF'. injection HF' as <-.
  rewrite !columns_setitem, Hcols.
  destruct (Z.eqb_spec (default 6 month) 3) as [->|Hne]; [reflexivity|].
  change (with_column _ "exp_sales_3_month")
    with ["customer_id"; "recency_cltv_weekly"; "T_weekly"; "frequency";
          "monetary_cltv_avg"; "exp_sales_3_month"]%string.
  unfold with_column at 3. rewrite (exp_sales_column_fresh _ Hne).
  unfold with_column, exp_sales_column. reflexivity.
Qed.

Lemma exp_sales_column_not_feature m c :
  c ∈ ["frequency"; "recency_cltv_weekly"; "T_weekly"; "monetary_cltv_avg"]%string ->
  exp_sales_column m <> c.
Proof.
  intros Hc E. unfold exp_sales_column in E.
  repeat (apply elem_of_cons in Hc as [->|Hc]); try discriminate E. inversion Hc.
Qed.

Ltac read_feature H HF x Hx :=
  let s1 := fresh "s" in let d' := fresh "d" in let Hr' := fresh "Hr" in
  apply bind_inv in H as (x & s1 & Hx & H);
  apply getitem_inv in Hx as [-> (d' & Hr' & Hx)];
  rewrite HF in Hr'; injection Hr' as <-;
  repeat (rewrite getitem_setitem_ne in Hx
            by first [discriminate
                     | apply exp_sales_column_not_feature; repeat constructor]).

(** X14. [modelling] fits one BG/NBD model (penalizer 0.001) and one
    Gamma-Gamma model (penalizer 0.01) on the feature columns, and all
    four columns it adds are computed from these two models and the same
    feature columns, which it never overwrites: expected sales at 12 weeks
    and at [4 * month] weeks, the expected average value, and the lifetime
    value at [month] months. *)
Theorem modelling_computes_from_features (s : state) (dataframe : loc)
    (month : option Z) (result : loc) (s' : state) :
  modelling dataframe month s = Ok result s' ->
  exists (s1 : state) (features table : DataFrame)
         (frequency recency T monetary : column) (bgf : BGF) (ggf : GGF)
         (sales3 sales average clv : list float64),
    create_cltv dataframe s = Ok result s1 /\
    heap s1 !! result = Some features /\
    heap s' !! result = Some table /\
    (forall c, c ∈ ["customer_id"; "frequency"; "recency_cltv_weekly"; "T_weekly";
                    "monetary_cltv_avg"]%string ->
       Pd.getitem table c = Pd.getitem features c) /\
    Pd.getitem features "frequency" = Some frequency /\
    Pd.getitem features "recency_cltv_weekly" = Some recency /\
    Pd.getitem features "T_weekly" = Some T /\
    Pd.getitem features "monetary_cltv_avg" = Some monetary /\
    BetaGeoFitter_fit (1 # 1000) frequency recency T = inr bgf /\
    GammaGammaFitter_fit (1 # 100) frequency monetary = inr ggf /\
    BetaGeoFitter_predict bgf 12 frequency recency T = inr sales3 /\
    BetaGeoFitter_predict bgf (default 6 month * 4) frequency recency T = inr sales /\
    conditional_expected_average_profit ggf frequency = inr average /\
    customer_lifetime_value ggf bgf frequency recency T monetary
      (default 6 month) "W" (1 # 100) = inr clv /\
    Pd.getitem table "exp_sales_3_month" = Some (ColNum sales3) /\
    Pd.getitem table (exp_sales_column (default 6 month)) = Some (ColNum sales) /\
    Pd.getitem table "exp_average_value" = Some (ColNum average) /\
    Pd.getitem table "cltv" = Some (ColNum clv).
Proof.
  unfold modelling. intros H. apply bind_inv in H as (c0 & s1 & Hc & H).
  pose proof Hc as Hpost.
  apply create_cltv_post in Hpost
    as (_ & _ & _ & _ & F & _ & _ & _ & _ & _ & _ & _ & HF & _).
  set (m := default 6 month) in *.
  read_feature H HF f Hf. read_feature H HF rc Hrc. read_feature H HF T HT.
  call_library H Hbgf. rename x into bgf.
  read_feature H HF f' Hf'. read_feature H HF rc' Hrc'. read_feature H HF T' HT'.
  rewrite Hf in Hf'. injection Hf' as <-.
  rewrite Hrc in Hrc'. injection Hrc' as <-.
  rewrite HT in HT'. injection HT' as <-.
  call_library H Hs3. rename x into s3. write_column H HF.
  match type of H with
  | context [<[c0 := ?d]> (heap s1)] =>
      assert (HF1 : heap (with_heap s1 (<[c0 := d]> (heap s1))) !! c0 = Some d)
        by (eapply lookup_with_heap_insert; exact HF)
  end.
  read_feature H HF1 f' Hf'. read_feature H HF1 rc' Hrc'. read_feature H HF1 T' HT'.
  rewrite Hf in Hf'. injection Hf' as <-.
  rewrite Hrc in Hrc'. injection Hrc' as <-.
  rewrite HT in HT'. injection HT' as <-.
  call_library H Hs. rename x into sm. write_column H HF1.
  match type of H with
  | context [<[c0 := ?d]> (heap s1)] =>
      assert (HF2 : heap (with_heap s1 (<[c0 := d]> (heap s1))) !! c0 = Some d)
        by (eapply lookup_with_heap_insert; exact HF)
  end.
  read_feature H HF2 f' Hf'. read_feature H HF2 mon Hmon.
  rewrite Hf in Hf'. injection Hf' as <-.
  call_library H Hggf. rename x into ggf.
  read_feature H HF2 f' Hf'. rewrite Hf in Hf'. injection Hf' as <-.
  call_library H Hav. rename x into av. write_column H HF2.
  match type of H with
  | context [<[c0 := ?d]> (heap s1)] =>
      assert (HF3 : heap (with_heap s1 (<[c0 := d]> (heap s1))) !! c0 = Some d)
        by (eapply lookup_with_heap_insert; exact HF)
  end.
  read_feature H HF3 f' Hf'. read_feature H HF3 rc' Hrc'. read_feature H HF3 T' HT'.
  read_feature H HF3 mon' Hmon'.
  rewrite Hf in Hf'. injection Hf' as <-.
  rewrite Hrc in Hrc'. injection Hrc' as <-.
  rewrite HT in HT'. injection HT' as <-.
  rewrite Hmon in Hmon'. injection Hmon' as <-.
  call_library H Hclv. rename x into clv. write_column H HF3.
  apply ret_inv in H as [-> ->].
  exists s1, F. eexists. exists f, rc, T, mon, bgf, ggf, s3, sm, av, clv.
  split; [exact Hc|]. split; [exact HF|].
  split; [eapply lookup_with_heap_insert; exact HF|].
  split.
  { intros c Hin.
    repeat (apply elem_of_cons in Hin as [->|Hin]); try (inversion Hin; fail);
      repeat (rewrite getitem_setitem_ne
                by first [discriminate
                         | unfold exp_sales_column; simpl; discriminate]);
      reflexivity. }
  do 10 (split; [assumption|]).
  split.
  { rewrite !getitem_setitem_ne by discriminate.
    destruct (Z.eq_dec m 3) as [E|Hne].
    - rewrite E in *. change (exp_sales_column 3) with "exp_sales_3_month"%string.
      rewrite getitem_setitem_eq. change (3 * 4) with 12 in Hs.
      rewrite Hs3 in Hs. injection Hs as ->. reflexivity.
    - rewrite getitem_setitem_ne; [apply getitem_setitem_eq|].
      intros E. apply Hne. apply exp_sales_column_inj. exact E. }
  split.
  { rewrite !getitem_setitem_ne
      by (unfold exp_sales_column; simpl; discriminate).
    apply getitem_setitem_eq. }
  split.
  { rewrite getitem_setitem_ne by discriminate. apply getitem_setitem_eq. }
  apply getitem_setitem_eq.
Qed.

(** X15. The table that [cltv_final] returns has ten columns, always the
    same and in the same order: the five features, the expected sales at
    3 and at 6 months, the expected average value, the lifetime value and
    the segment. *)
Theorem cltv_final_columns (s : state) (dataframe : loc) (segment_count : Z)
    (segments : list string) (csv : option bool) (result : loc) (s' : state) :
  cltv_final dataframe segment_count segments csv s = Ok result s' ->
  exists table : DataFrame,
    heap s' !! result = Some table /\
    Pd.columns table
    = ["customer_id"; "recency_cltv_weekly"; "T_weekly"; "frequency";
       "monetary_cltv_avg"; "exp_sales_3_month"; "exp_sales_6_month";
       "exp_average_value"; "cltv"; "segment"]%string.
Proof.
  intros H.
  apply cltv_final_result in H
    as (s2 & table & scores & segment & Hm & Ht & _ & _ & Hheap & _).
  exists (Pd.setitem table "segment" (ColCat segment)).
  split; [rewrite Hheap; apply list_lookup_insert_eq; eapply lookup_lt_Some; exact Ht|].
  apply modelling_result in Hm as (s1 & F & s3m & sm & av & clv & Hc & HF & ->).
  rewrite (lookup_with_heap_insert _ _ _ _ HF) in Ht. injection Ht as <-.
  apply create_cltv_columns in Hc as (F' & HF' & Hcols).
  rewrite HF in HF'. injection HF' as <-.
  rewrite !columns_setitem, Hcols. reflexivity.
Qed.

Lemma cltv_final_files r q labels csv s c s' :
  cltv_final r q labels csv s = Ok c s' ->
  exists table : DataFrame,
    heap s' !! c = Some table /\
    files s' = if default true csv
               then <["cltv_flo.csv"%string := table]> (files s)
               else files s.
Proof.
  intros H. apply cltv_final_result in H
    as (s2 & table & scores & segment & Hm & Ht & _ & _ & Hheap & _ & _ & Hfiles).
  exists (Pd.setitem table "segment" (ColCat segment)).
  split; [rewrite Hheap; apply list_lookup_insert_eq; eapply lookup_lt_Some; exact Ht|].
  pose proof (pres_modelling r None s) as Hf. rewrite Hm in Hf.
  simpl in Hf. rewrite Hfiles, Hf. reflexivity.
Qed.

(** X16. [cltv_final] writes at most one file, [cltv_flo.csv], as its
    last step: when it returns, the file holds the table it returns,
    unless [csv] is false, in which case no file is written; and an error
    that the call raises with [csv=False], that is in the computation, it
    raises in the same way whatever [csv] is, with no file written. *)
Theorem cltv_final_writes_result (s : state) (dataframe : loc) (segment_count : Z)
    (segments : list string) (csv : option bool) :
  (forall (result : loc) (s' : state),
     cltv_final dataframe segment_count segments csv s = Ok result s' ->
     exists table : DataFrame,
       heap s' !! result = Some table /\
       files s' = if default true csv
                  then <["cltv_flo.csv"%string := table]> (files s)
                  else files s) /\
  (forall (e : exn) (s' : state),
     cltv_final dataframe segment_count segments (Some false) s = Raise e s' ->
     cltv_final dataframe segment_count segments csv s = Raise e s' /\
     files s' = files s).
Proof.
  split.
  - intros result s' H. apply cltv_final_files in H. exact H.
  - intros e s' H. unfold cltv_final in H |- *. cbv zeta in H |- *.
    change (default true (Some false)) with false in H.
    pose proof (pres_modelling dataframe None s) as Hf.
    destruct (modelling dataframe None s) as [c s2|e2 s2] eqn:Hm.
    2:{ erewrite bind_raise in H by exact Hm. injection H as <- <-.
        split; [erewrite bind_raise by exact Hm; reflexivity|exact Hf]. }
    rewrite (bind_run _ _ _ _ _ Hm) in H. rewrite (bind_run _ _ _ _ _ Hm).
    simpl in Hf. rewrite <- Hf.
    match type of H with
    | (?m ≫= ?f) s2 = _ =>
        assert (Hp : preserves_files m) by pres; pose proof (Hp s2) as Hf1;
        destruct (m s2) as [scores s3|e3 s3] eqn:Hsc
    end.
    2:{ erewrite bind_raise in H by exact Hsc. injection H as <- <-.
        split; [erewrite bind_raise by exact Hsc; reflexivity|exact Hf1]. }
    rewrite (bind_run _ _ _ _ _ Hsc) in H. rewrite (bind_run _ _ _ _ _ Hsc).
    simpl in Hf1. rewrite <- Hf1.
    match type of H with
    | (?m ≫= ?f) s3 = _ =>
        assert (Hp' : preserves_files m) by pres; pose proof (Hp' s3) as Hf2;
        destruct (m s3) as [segment s4|e4 s4] eqn:Hq
    end.
    2:{ erewrite bind_raise in H by exact Hq. injection H as <- <-.
        split; [erewrite bind_raise by exact Hq; reflexivity|exact Hf2]. }
    rewrite (bind_run _ _ _ _ _ Hq) in H. rewrite (bind_run _ _ _ _ _ Hq).
    simpl in Hf2. rewrite <- Hf2.
    match type of H with
    | (?m ≫= ?f) s4 = _ =>
        assert (Hp'' : preserves_files m) by pres; pose proof (Hp'' s4) as Hf3;
        destruct (m s4) as [u s5|e5 s5] eqn:Hset
    end.
    2:{ erewrite bind_raise in H by exact Hset. injection H as <- <-.
        split; [erewrite bind_raise by exact Hset; reflexivity|exact Hf3]. }
    rewrite (bind_run _ _ _ _ _ Hset) in H. discriminate H.
Qed.

(** The heap after [cltv_final]: the argument prepared, and one table
    more, the one that is returned. *)
Lemma cltv_final_heap r q labels csv s c s' :
  cltv_final r q labels csv s = Ok c s' ->
  exists (d1 features final : DataFrame),
    c = length (heap s) /\ is_Some (heap s !! r) /\
    heap s' = <[c := final]> (<[r := d1]> (heap s) ++ [features]) /\
    g_df s' = g_df s /\ g_df_org s' = g_df_org s.
Proof.
  intros H.
  apply cltv_final_result in H
    as (s2 & table & scores & segment & Hm & Ht & _ & _ & Hheap & Hg & Hgo & _).
  apply modelling_result in Hm as (s1 & F & s3m & sm & av & clv & Hc & HF & ->).
  apply create_cltv_post in Hc
    as (d & d1 & g & G & cltv & Hr & _ & _ & _ & _ & _ & _ & _ & -> & _ & _ & _
        & Hheap1 & Hg1 & Hgo1 & _).
  cbn [heap with_heap g_df g_df_org] in Hheap, Hg, Hgo.
  rewrite Hheap1, list_insert_insert_eq in Hheap.
  exists d1, cltv. eexists. split; [reflexivity|]. split; [eauto|].
  split; [exact Hheap|]. rewrite Hg, Hgo. auto.
Qed.

(** X17. [cltv_final] allocates one table, the one it returns, and
    touches no other table than its argument: every other table of the
    program is as it was, and the module variables [df] and [df_org] are
    bound as before. *)
Theorem cltv_final_frame (s : state) (dataframe : loc) (segment_count : Z)
    (segments : list string) (csv : option bool) (result : loc) (s' : state) :
  cltv_final dataframe segment_count segments csv s = Ok result s' ->
  result = length (heap s) /\
  length (heap s') = S (length (heap s)) /\
  (forall other : loc, other <> dataframe -> (other < length (heap s))%nat ->
     heap s' !! other = heap s !! other) /\
  g_df s' = g_df s /\ g_df_org s' = g_df_org s.
Proof.
  intros H.
  apply cltv_final_heap in H as (d1 & F & final & -> & _ & Hheap & Hg & Hgo).
  split; [reflexivity|]. rewrite Hheap.
  split; [rewrite length_insert, length_app, length_insert; simpl; lia|].
  split; [|split; assumption].
  intros other Hne Hlt.
  rewrite list_lookup_insert_ne by lia.
  rewrite lookup_app_l by (rewrite length_insert; exact Hlt).
  apply list_lookup_insert_ne. congruence.
Qed.

(** ** The script *)

(** X18. The script keeps the data it loaded: when it has run, [df_org]
    is bound to the table read from [dataset/flo_data_20k.csv], unchanged,
    [df] is bound to another table (the copy, which the pipeline has
    prepared in place), and the data file is as it was. *)
Theorem main_keeps_original (s : state) (result : loc) (s' : state) :
  main s = Ok result s' ->
  exists raw : DataFrame,
    files s !! "dataset/flo_data_20k.csv"%string = Some raw /\
    g_df_org s' = Some (length (heap s)) /\
    heap s' !! length (heap s) = Some raw /\
    g_df s' = Some (S (length (heap s))) /\
    files s' !! "dataset/flo_data_20k.csv"%string = Some raw.
Proof.
  unfold main. intros H.
  apply bind_inv in H as (o & s1 & Ho & H).
  apply bind_inv in Ho as (raw & s0 & Hread & Ho).
  unfold Heap.read_file in Hread.
  destruct (files s !! "dataset/flo_data_20k.csv"%string) as [raw'|] eqn:Efile;
    [|discriminate].
  injection Hread as -> ->. apply alloc_inv in Ho as [-> ->].
  apply bind_inv in H as (u & s2 & Hset & H). injection Hset as _ <-.
  apply bind_inv in H as (c & s3 & Hc & H).
  apply bind_inv in Hc as (d & s4 & Hl & Hc).
  apply load_inv in Hl as [-> Hl]. cbn [heap with_heap] in Hl.
  rewrite read_fresh in Hl. injection Hl as <-.
  apply alloc_inv in Hc as [-> ->]. cbn [heap with_heap] in H.
  apply bind_inv in H as (u' & s5 & Hset & H). injection Hset as _ <-.
  apply bind_inv in H as (g & s6 & Hg & H). apply global_df_inv in Hg as [-> Hg].
  cbn [g_df] in Hg. injection Hg as <-.
  pose proof (cltv_final_heap _ _ _ _ _ _ _ H)
    as (d1 & F & final & Hres & _ & Hheap & Hg & Hgo).
  pose proof (cltv_final_files _ _ _ _ _ _ _ H) as (table & _ & Hfiles).
  cbn [heap g_df g_df_org files with_heap default] in Hres, Hheap, Hg, Hgo, Hfiles.
  exists raw. split; [reflexivity|].
  split; [exact Hgo|].
  split.
  { rewrite Hheap, Hres, !length_app. cbn [length].
    rewrite list_lookup_insert_ne by lia.
    rewrite lookup_app_l by (rewrite length_insert, !length_app; simpl; lia).
    rewrite list_lookup_insert_ne by lia.
    rewrite lookup_app_l by (rewrite length_app; simpl; lia).
    apply read_fresh. }
  split; [rewrite Hg, length_app; f_equal; simpl; lia|].
  rewrite Hfiles, lookup_insert_ne by discriminate. exact Efile.
Qed.

(** ** Tenure exceeds recency *)

Lemma max_date_ge xs m x : Pd.max_date xs = Some m -> x ∈ xs -> x <= m.
Proof.
  destruct xs as [|y xs]; [discriminate|]. simpl. intros H Hx. injection H as <-.
  apply fold_max_ge. apply elem_of_cons in Hx. tauto.
Qed.

Lemma days_plus_two x :
  Pd.days (x + Pd.Timedelta_days 2) = Pd.days x + 2.
Proof.
  unfold Pd.days, Pd.Timedelta_days. apply Z.div_add.
  unfold Pd.ns_per_day. lia.
Qed.

(** X19. When the pipeline is run on the table bound to [df], as the
    script does, the tenure of every customer exceeds the recency by two
    days at least, since the analysis date is two days after the latest
    of all last orders: the two columns hold these numbers of days over
    7, and [T_weekly > recency_cltv_weekly] for every customer. *)
Theorem T_weekly_exceeds_recency (s : state) (dataframe cltv : loc) (s' : state) :
  g_df s = Some dataframe ->
  create_cltv dataframe s = Ok cltv s' ->
  exists (features : DataFrame) (recency T : list float64),
    heap s' !! cltv = Some features /\
    Pd.getitem features "recency_cltv_weekly" = Some (ColNum recency) /\
    Pd.getitem features "T_weekly" = Some (ColNum T) /\
    forall (i : nat) (rec : float64), recency !! i = Some rec ->
      exists (recency_days tenure_days : Z) (t : float64),
        rec = F64.div (F64.of_Z recency_days) (F64.of_Z 7) /\
        t = F64.div (F64.of_Z tenure_days) (F64.of_Z 7) /\
        T !! i = Some t /\
        recency_days + 2 <= tenure_days /\
        F64.ltb rec t = true.
Proof.
  intros Hg H.
  apply create_cltv_post in H
    as (d & d1 & g & G & tbl & _ & _ & Hr1 & _ & Hg' & HG & Hf & Hc & _).
  rewrite Hg in Hg'. injection Hg' as <-.
  rewrite Hr1 in HG. injection HG as <-.
  destruct Hf as (mid & lastc & firstc & rc & Tc & freq & val & mon
                  & _ & Hl & _ & Hrc & HTc & _ & _ & _ & ->).
  apply weeks_between_inv in Hrc as (lod & fod & -> & -> & ->).
  unfold analysis_date_of in HTc. rewrite Hl in HTc.
  apply weeks_since_inv in HTc as (fod' & Hf & ->). injection Hf as <-.
  do 3 eexists. split; [exact Hc|]. split; [reflexivity|]. split; [reflexivity|].
  intros i rec Hi.
  rewrite lookup_zip_with in Hi.
  destruct (lod !! i) as [l|] eqn:El; [|discriminate]. simpl in Hi.
  destruct (fod !! i) as [f|] eqn:Ef; [|discriminate]. simpl in Hi.
  injection Hi as <-.
  change (map ?h fod) with (h <$> fod).
  rewrite list_lookup_fmap, Ef.
  destruct (Pd.max_date lod) as [m|] eqn:Em.
  2:{ destruct lod; [discriminate El|discriminate Em]. }
  exists (Pd.days (l - f)), (Pd.days (m + Pd.Timedelta_days 2 - f)).
  eexists. split; [reflexivity|]. split; [reflexivity|]. split; [reflexivity|].
  assert (Hlm : l <= m).
  { eapply max_date_ge; [exact Em|]. eapply list_elem_of_lookup_2. exact El. }
  assert (Hdays : Pd.days (l - f) + 2 <= Pd.days (m + Pd.Timedelta_days 2 - f)).
  { replace (m + Pd.Timedelta_days 2 - f) with (m - f + Pd.Timedelta_days 2) by lia.
    rewrite days_plus_two.
    assert (Hd : Pd.days (l - f) <= Pd.days (m - f)) by (apply days_mono; lia).
    lia. }
  split; [exact Hdays|].
  set (a := Pd.days (l - f)) in *.
  set (b := Pd.days (m + Pd.Timedelta_days 2 - f)) in *.
  change (F64.ltb (Fin (inject_Z a / 7)) (Fin (inject_Z b / 7)) = true).
  apply ltb_Fin.
  assert (Hq : (inject_Z a + 2 <= inject_Z b)%Q).
  { change 2%Q with (inject_Z 2). rewrite <- inject_Z_plus, <- Zle_Qle. exact Hdays. }
  assert (E1 : (inject_Z a / 7 == inject_Z a * (1 # 7))%Q) by (unfold Qdiv; reflexivity).
  assert (E2 : (inject_Z b / 7 == inject_Z b * (1 # 7))%Q) by (unfold Qdiv; reflexivity).
  rewrite E1, E2. lra.
Qed.

(** ** The quantile cut *)

Lemma nth_Forall (P : float64 -> Prop) l i :
  Forall P l -> (i < length l)%nat -> P (nth i l NaN).
Proof.
  intros H Hi. rewrite Forall_forall in H. apply H.
  apply list_elem_of_In, nth_In. exact Hi.
Qed.

Lemma dropna_Forall (P : float64 -> Prop) xs :
  Forall (fun x => P x \/ x = NaN) xs -> Forall P (Pd.dropna xs).
Proof.
  intros H. apply Forall_forall. intros x Hx.
  apply elem_of_dropna in Hx as [Hx Hn]. rewrite Forall_forall in H.
  destruct (H x Hx) as [HP| ->]; [exact HP|discriminate Hn].
Qed.

(** The two cells that [percentile] reads are cells of the list. *)
Lemma percentile_reads (P : float64 -> Prop) l q :
  l <> [] -> Forall P l -> (0 <= q)%Q -> (q <= 1)%Q ->
  exists a b t, P a /\ P b /\ Pd.percentile l q = Pd.lerp a b t.
Proof.
  intros Hne HP H0 H1. unfold Pd.percentile.
  assert (Hlen : (0 < length l)%nat) by (destruct l; [congruence|simpl; lia]).
  set (m := (length l - 1)%nat).
  set (M := inject_Z (Z.of_nat m)).
  assert (HM : (0 <= M)%Q) by (unfold M; rewrite <- (Zle_Qle 0); lia).
  set (vi := (q * M)%Q).
  assert (Hv0 : (0 <= vi)%Q) by (unfold vi; nra).
  assert (HvM : (vi <= M)%Q) by (unfold vi; nra).
  assert (Hfl0 : 0 <= Qfloor vi).
  { change 0 with (Qfloor 0). apply Qfloor_resp_le. exact Hv0. }
  assert (Hflm : Qfloor vi <= Z.of_nat m).
  { rewrite <- (Qfloor_Z (Z.of_nat m)). apply Qfloor_resp_le. exact HvM. }
  do 3 eexists. split; [|split; [|reflexivity]];
    apply nth_Forall; try assumption; subst m; lia.
Qed.

Lemma lerp_constant a b t v :
  feq a (Fin v) -> feq b (Fin v) -> feq (Pd.lerp a b t) (Fin v).
Proof.
  intros Ha Hb. destruct a as [a| | |], b as [b| | |]; try discriminate.
  apply feq_Fin in Ha, Hb. unfold Pd.lerp.
  destruct (Qle_bool (1 # 2) t); simpl; apply feq_Fin; rewrite Ha, Hb; ring.
Qed.

(** Every quantile of a column whose values are all equal is that value
    (NaN when the column has no value). *)
Lemma quantile_constant scores v :
  Forall (fun x => feq x (Fin v) \/ x = NaN) scores ->
  exists e, forall q, (0 <= q)%Q -> (q <= 1)%Q -> feq (Pd.quantile scores q) e.
Proof.
  intros Hall. unfold Pd.quantile.
  pose proof (sort_Forall _ _ (dropna_Forall _ _ Hall)) as Hs.
  destruct (Pd.sort (Pd.dropna scores)) as [|h L].
  - exists NaN. intros q _ _. reflexivity.
  - exists (Fin v). intros q H0 H1.
    destruct (percentile_reads _ (h :: L) q ltac:(discriminate) Hs H0 H1)
      as (a & b & t & Ha & Hb & ->).
    apply lerp_constant; assumption.
Qed.

Lemma linspace_bounds q x :
  (0 < q)%nat -> x ∈ Qcut.linspace q -> (0 <= x)%Q /\ (x <= 1)%Q.
Proof.
  intros Hq Hx. unfold Qcut.linspace in Hx.
  apply list_elem_of_In, in_map_iff in Hx as (k & <- & Hk).
  apply in_seq in Hk.
  assert (Hq' : (0 < inject_Z (Z.of_nat q))%Q) by (rewrite <- (Zlt_Qlt 0); lia).
  assert (Hk0 : (0 <= inject_Z (Z.of_nat k))%Q) by (rewrite <- (Zle_Qle 0); lia).
  assert (Hkq : (inject_Z (Z.of_nat k) <= inject_Z (Z.of_nat q))%Q)
    by (rewrite <- Zle_Qle; lia).
  split.
  - apply Qle_shift_div_l; [exact Hq'|]. lra.
  - apply Qle_shift_div_r; [exact Hq'|]. lra.
Qed.

Lemma unique_subset {A} (eqb : A -> A -> bool) l x : x ∈ Pd.unique eqb l -> x ∈ l.
Proof.
  induction l as [|y l IH]; simpl; intros H; [exact H|].
  apply elem_of_cons in H as [->|H]; [left|].
  apply elem_of_filter_bool in H as [H _]. right. auto.
Qed.

Lemma unique_all_same {A} (eqb : A -> A -> bool) x l :
  Forall (fun y => eqb x y = true) l -> Pd.unique eqb (x :: l) = [x].
Proof.
  intros H. simpl. f_equal.
  assert (Hnone : forall y, y ∈ Pd.unique eqb l -> negb (eqb x y) = false).
  { intros y Hy. apply unique_subset in Hy. rewrite Forall_forall in H.
    rewrite (H y Hy). reflexivity. }
  induction (Pd.unique eqb l) as [|y us IH]; simpl; [reflexivity|].
  rewrite (Hnone y) by left. apply IH. intros z Hz. apply Hnone. right. exact Hz.
Qed.

(** A cut of equal scores in two bins or more has no distinct edges. *)
Lemma qcut_constant scores q labels v :
  2 <= q ->
  Forall (fun x => feq x (Fin v) \/ x = NaN) scores ->
  Qcut.qcut scores q labels = inl ValueError.
Proof.
  intros Hq Hall. rewrite qcut_unfold by lia. cbv zeta.
  destruct (quantile_constant scores v Hall) as [e He].
  assert (Hedges : Forall (fun b => feq b e) (Qcut.bins scores (Z.to_nat q))).
  { unfold Qcut.bins. apply Forall_forall. intros b Hb.
    apply list_elem_of_In, in_map_iff in Hb as (x & <- & Hx).
    apply list_elem_of_In, linspace_bounds in Hx as [H0 H1]; [|lia].
    apply He; assumption. }
  pose proof (length_bins scores (Z.to_nat q)) as Hlen.
  destruct (Qcut.bins scores (Z.to_nat q)) as [|b0 edges]; [discriminate Hlen|].
  apply Forall_cons in Hedges as [Hb0 Hedges].
  rewrite unique_all_same.
  2:{ eapply Forall_impl; [exact Hedges|]. intros b Hb.
      eapply feq_trans; [exact Hb0|]. apply feq_sym. exact Hb. }
  rewrite Hlen. cbn [length].
  replace (1 <? S (Z.to_nat q))%nat with true by (symmetry; apply Nat.ltb_lt; lia).
  replace (S (Z.to_nat q) =? 2)%nat with false by (symmetry; apply Nat.eqb_neq; lia).
  reflexivity.
Qed.

(** X20. When every customer that has a lifetime value has the same
    one, [cltv_final] with two segments or more stops with the ValueError
    of [pd.qcut] (the bin edges are not distinct); no file is written and
    no segment is assigned. *)
Theorem cltv_final_constant_scores (s : state) (dataframe : loc) (segment_count : Z)
    (segments : list string) (csv : option bool)
    (cltv : loc) (s1 : state) (table : DataFrame) (scores : list float64) (v : Q) :
  modelling dataframe None s = Ok cltv s1 ->
  heap s1 !! cltv = Some table ->
  Pd.getitem table "cltv" = Some (ColNum scores) ->
  Forall (fun x => feq x (Fin v) \/ x = NaN) scores ->
  Exists (fun x => feq x (Fin v)) scores ->
  2 <= segment_count ->
  cltv_final dataframe segment_count segments csv s = Raise ValueError s1 /\
  files s1 = files s.
Proof.
  intros Hm Ht Hsc Hall _ Hq. split.
  - unfold cltv_final. rewrite (bind_run _ _ _ _ _ Hm).
    rewrite (bind_run _ _ _ _ _ (numeric_cells_run _ _ _ _ _ Ht Hsc)).
    rewrite (qcut_constant scores segment_count segments v Hq Hall). reflexivity.
  - pose proof (pres_modelling dataframe None s) as Hf. rewrite Hm in Hf. exact Hf.
Qed.

Lemma linspace_last q :
  (0 < q)%nat -> exists ks q1, Qcut.linspace q = ks ++ [q1] /\ (q1 == 1)%Q.
Proof.
  intros Hq. unfold Qcut.linspace. rewrite seq_S, map_app. simpl.
  eexists _, _. split; [reflexivity|].
  apply Qmult_inv_r. intros E. 
  assert (H0 : (0 < inject_Z (Z.of_nat q))%Q) by (rewrite <- (Zlt_Qlt 0); lia).
  lra.
Qed.

(** The quantile at 1 is the largest value. *)
Lemma quantile_1_max scores q1 :
  (q1 == 1)%Q -> finite_or_missing scores ->
  forall v, Fin v ∈ scores -> F64.ltb (Pd.quantile scores q1) (Fin v) = false.
Proof.
  intros Hq1 Hfin v Hv. unfold Pd.quantile.
  pose proof (sort_sorted _ (dropna_nonnan scores)) as Hs.
  pose proof (sort_nonnan _ (dropna_nonnan scores)) as Hn.
  pose proof (sort_Forall _ _ (dropna_finite _ Hfin)) as Hf.
  assert (Hin : Fin v ∈ Pd.sort (Pd.dropna scores)).
  { apply elem_of_sort, elem_of_dropna. split; [exact Hv|reflexivity]. }
  destruct (Pd.sort (Pd.dropna scores)) as [|h L] eqn:EL; [inversion Hin|].
  set (l := h :: L) in *. unfold Pd.percentile.
  set (m := (length l - 1)%nat).
  assert (Hlen : length l = S m) by (subst m l; simpl; lia).
  set (vi := (q1 * inject_Z (Z.of_nat m))%Q).
  assert (Hvi : (vi == inject_Z (Z.of_nat m))%Q) by (unfold vi; rewrite Hq1; ring).
  assert (Hfl : Qfloor vi = Z.of_nat m) by (rewrite Hvi; apply Qfloor_Z).
  rewrite Hfl, Nat2Z.id. replace (Nat.min (S m) m) with m by lia.
  destruct (nth_finite l m Hf ltac:(lia)) as [a Ha]. rewrite Ha.
  assert (Hle : F64.le (Fin v) (Fin a)).
  { apply list_elem_of_In, (In_nth _ _ NaN) in Hin as (j & Hj & Ej).
    rewrite <- Ej, <- Ha. apply sorted_nth; [exact Hn|exact Hs|lia]. }
  apply le_Fin in Hle. unfold Pd.lerp.
  destruct (Qle_bool _ _); simpl; apply ltb_Fin_false; rewrite Hvi; ring_simplify; lra.
Qed.

(** The quantile at 0 is the smallest value. *)
Lemma quantile_0_least scores q0 :
  (q0 == 0)%Q -> finite_or_missing scores ->
  forall v, Fin v ∈ scores ->
    exists e, Pd.quantile scores q0 = Fin e /\ (e <= v)%Q.
Proof.
  intros Hq0 Hfin v Hv. unfold Pd.quantile.
  pose proof (sort_sorted _ (dropna_nonnan scores)) as Hs.
  pose proof (sort_nonnan _ (dropna_nonnan scores)) as Hn.
  pose proof (sort_Forall _ _ (dropna_finite _ Hfin)) as Hf.
  assert (Hin : Fin v ∈ Pd.sort (Pd.dropna scores)).
  { apply elem_of_sort, elem_of_dropna. split; [exact Hv|reflexivity]. }
  destruct (Pd.sort (Pd.dropna scores)) as [|h L] eqn:EL; [inversion Hin|].
  set (l := h :: L) in *. unfold Pd.percentile.
  set (m := (length l - 1)%nat).
  assert (Hlen : length l = S m) by (subst m l; simpl; lia).
  set (vi := (q0 * inject_Z (Z.of_nat m))%Q).
  assert (Hvi : (vi == 0)%Q) by (unfold vi; rewrite Hq0; ring).
  assert (Hfl : Qfloor vi = 0) by (rewrite Hvi; reflexivity).
  rewrite Hfl. change (Z.to_nat 0) with 0%nat.
  destruct (nth_finite l 0 Hf ltac:(lia)) as [a Ha]. rewrite Ha.
  destruct (nth_finite l (Nat.min 1 m) Hf ltac:(lia)) as [b Hb]. rewrite Hb.
  assert (Hle : F64.le (Fin a) (Fin v)).
  { apply list_elem_of_In, (In_nth _ _ NaN) in Hin as (j & Hj & Ej).
    rewrite <- Ej, <- Ha. apply sorted_nth; [exact Hn|exact Hs|lia]. }
  apply le_Fin in Hle. unfold Pd.lerp.
  replace (Qle_bool (1 # 2) (vi - inject_Z 0)) with false.
  2:{ symmetry. apply not_true_iff_false. rewrite Qle_bool_iff, Hvi. intros Hc.
      compute in Hc. congruence. }
  simpl. eexists. split; [reflexivity|]. rewrite Hvi. ring_simplify. exact Hle.
Qed.

Lemma searchsorted_left_app e1 e2 v :
  Qcut.searchsorted_left (e1 ++ e2) v
  = (Qcut.searchsorted_left e1 v + Qcut.searchsorted_left e2 v)%nat.
Proof. unfold Qcut.searchsorted_left. rewrite List.filter_app, length_app. reflexivity. Qed.

Lemma searchsorted_left_le edges v :
  (Qcut.searchsorted_left edges v <= length edges)%nat.
Proof. unfold Qcut.searchsorted_left. apply List.filter_length_le. Qed.

(** The bin of a finite score is one of the [q] bins. *)
Lemma bin_id_range scores q v :
  (0 < q)%nat -> finite_or_missing scores -> Fin v ∈ scores ->
  (1 <= Qcut.bin_id (Qcut.bins scores q) (Fin v) <= q)%nat.
Proof.
  intros Hq Hfin Hv. unfold Qcut.bins.
  destruct (linspace_last q Hq) as (ks & q1 & Hlast & Hq1).
  pose proof (quantile_1_max scores q1 Hq1 Hfin v Hv) as Hmax.
  assert (Hks : length ks = q).
  { apply (f_equal (@length Q)) in Hlast. unfold Qcut.linspace in Hlast.
    rewrite length_map, length_seq, length_app in Hlast. simpl in Hlast. lia. }
  assert (Hcount : (Qcut.searchsorted_left (map (Pd.quantile scores) (Qcut.linspace q))
                      (Fin v) <= q)%nat).
  { rewrite Hlast, map_app, searchsorted_left_app. cbn [map].
    unfold Qcut.searchsorted_left at 2. cbn [List.filter]. rewrite Hmax. cbn [length].
    pose proof (searchsorted_left_le (map (Pd.quantile scores) ks) (Fin v)) as Hle.
    rewrite length_map in Hle. lia. }
  destruct (linspace_head q) as (q0 & ks0 & Hhead & Hq0).
  destruct (quantile_0_least scores q0 Hq0 Hfin v Hv) as (e & He & Hev).
  revert Hcount. rewrite Hhead. cbn [map]. rewrite He. intros Hcount.
  unfold Qcut.bin_id.
  destruct (F64.eqb (Fin v) (Fin e)) eqn:E; [lia|].
  split; [|exact Hcount].
  unfold Qcut.searchsorted_left. cbn [List.filter].
  replace (F64.ltb (Fin e) (Fin v)) with true; [simpl; lia|].
  symmetry. apply ltb_Fin. simpl in E. apply not_true_iff_false in E.
  rewrite Qeq_bool_iff in E. apply Qle_lteq in Hev as [Hlt|Heq]; [exact Hlt|].
  exfalso. apply E. symmetry. exact Heq.
Qed.

Lemma qcut_inv scores q labels segment :
  1 <= q -> Qcut.qcut scores q labels = inr segment ->
  length labels = Z.to_nat q /\
  segment = map (Qcut.label_of (Qcut.bins scores (Z.to_nat q)) labels) scores.
Proof.
  intros Hq Hcut. rewrite qcut_unfold in Hcut by lia. cbv zeta in Hcut.
  destruct (_ && _); [discriminate|].
  destruct (negb (length (Pd.unique String.eqb labels) =? length labels)%nat);
    [discriminate|].
  destruct (negb _) eqn:E; [discriminate|]. injection Hcut as <-.
  apply negb_false_iff, Nat.eqb_eq in E. rewrite length_bins in E.
  split; [lia|reflexivity].
Qed.

(** X21. [cltv_final] gives a segment to every customer: when the
    lifetime values are finite or missing, each customer with a value
    receives one of the labels that were given, and each customer without
    a value (NaN) receives none. *)
Theorem cltv_final_segments_every_customer (s : state) (dataframe : loc)
    (segment_count : Z) (segments : list string) (csv : option bool)
    (result : loc) (s' : state) :
  cltv_final dataframe segment_count segments csv s = Ok result s' ->
  exists (table : DataFrame) (scores : list float64) (segment : list (option string)),
    heap s' !! result = Some table /\
    Pd.getitem table "cltv" = Some (ColNum scores) /\
    Pd.getitem table "segment" = Some (ColCat segment) /\
    (1 <= segment_count -> finite_or_missing scores ->
     length segment = length scores /\
     forall (i : nat) (score : float64), scores !! i = Some score ->
       if F64.isnan score then segment !! i = Some None
       else exists label, segment !! i = Some (Some label) /\ label ∈ segments).
Proof.
  intros H.
  apply cltv_final_result in H
    as (s2 & table & scores & segment & _ & Ht & Hsc & Hcut & Hheap & _).
  exists (Pd.setitem table "segment" (ColCat segment)), scores, segment.
  split; [rewrite Hheap; apply list_lookup_insert_eq; eapply lookup_lt_Some; exact Ht|].
  split; [rewrite getitem_setitem_ne by discriminate; exact Hsc|].
  split; [apply getitem_setitem_eq|].
  intros Hq Hfin. apply qcut_inv in Hcut as [Hlabels ->]; [|exact Hq].
  split; [apply length_map|].
  intros i score Hi. change (map ?f ?l) with (f <$> l).
  rewrite list_lookup_fmap, Hi. cbn [fmap option_fmap option_map].
  destruct score as [v| | |]; cbn [F64.isnan].
  - assert (Hin : Fin v ∈ scores) by (eapply list_elem_of_lookup_2; exact Hi).
    pose proof (bin_id_range scores (Z.to_nat segment_count) v ltac:(lia) Hfin Hin)
      as Hid.
    unfold Qcut.label_of. rewrite length_bins.
    set (id := Qcut.bin_id (Qcut.bins scores (Z.to_nat segment_count)) (Fin v)) in *.
    cbv zeta. cbn [F64.isnan orb].
    replace (id =? S (Z.to_nat segment_count))%nat with false
      by (symmetry; apply Nat.eqb_neq; lia).
    replace (id =? 0)%nat with false by (symmetry; apply Nat.eqb_neq; lia).
    cbn [orb].
    destruct (lookup_lt_is_Some_2 segments (id - 1)) as [label Hl]; [lia|].
    exists label. split; [rewrite Hl; reflexivity|].
    eapply list_elem_of_lookup_2. exact Hl.
  - exfalso. unfold finite_or_missing in Hfin. rewrite Forall_forall in Hfin.
    specialize (Hfin PInf (list_elem_of_lookup_2 _ _ _ Hi)). discriminate.
  - exfalso. unfold finite_or_missing in Hfin. rewrite Forall_forall in Hfin.
    specialize (Hfin NInf (list_elem_of_lookup_2 _ _ _ Hi)). discriminate.
  - reflexivity.
Qed.

(** ** The outlier report *)

Lemma zip_with_orb_map {A} (f g : A -> bool) xs :
  zip_with orb (map f xs) (map g xs) = map (fun x => f x || g x) xs.
Proof. induction xs as [|x xs IH]; simpl; [reflexivity|]. rewrite IH. reflexivity. Qed.

Lemma elem_of_take_rows {A} (mask : list bool) (xs : list A) y :
  y ∈ Pd.take_rows mask xs <->
  exists i, mask !! i = Some true /\ xs !! i = Some y.
Proof.
  revert xs. induction mask as [|m mask IH]; intros xs; simpl.
  - split; [intros H; inversion H|intros (i & H & _); discriminate].
  - destruct xs as [|x xs].
    + split; [intros H; inversion H|intros (i & _ & H); discriminate].
    + destruct m.
      * rewrite elem_of_cons, IH. split.
        -- intros [->|(i & H1 & H2)]; [exists 0%nat; auto|exists (S i); auto].
        -- intros ([|i] & H1 & H2); simpl in *; [left; congruence|right; eauto].
      * rewrite IH. split.
        -- intros (i & H1 & H2). exists (S i). auto.
        -- intros ([|i] & H1 & H2); simpl in *; [discriminate|eauto].
Qed.

Lemma getitem_elem d c col : Pd.getitem d c = Some col -> (c, col) ∈ d.
Proof.
  induction d as [|[k c0] d IH]; simpl; [discriminate|].
  destruct (String.eqb_spec k c) as [->|Hne].
  - intros H. injection H as ->. left.
  - intros H. right. auto.
Qed.

(** [any] over a frame answers true exactly when some column does, and
    false when every column does. *)
Lemma frame_any_true d :
  Frame.any d = inr true -> exists k col, (k, col) ∈ d /\ Series.any col = inr true.
Proof.
  induction d as [|[k c] d IH]; simpl; [discriminate|].
  destruct (Series.any c) as [e|a] eqn:Ec; [discriminate|].
  destruct (Frame.any d) as [e|b] eqn:Ed; [discriminate|].
  intros H. injection H as H. destruct a.
  - exists k, c. split; [left|exact Ec].
  - simpl in H. subst b. destruct IH as (k' & col & Hin & Hany); [reflexivity|].
    exists k', col. split; [right; exact Hin|exact Hany].
Qed.

Lemma frame_any_false d :
  Frame.any d = inr false -> forall k col, (k, col) ∈ d -> Series.any col = inr false.
Proof.
  induction d as [|[k c] d IH]; simpl; [intros _ k col H; inversion H|].
  destruct (Series.any c) as [e|a] eqn:Ec; [discriminate|].
  destruct (Frame.any d) as [e|b] eqn:Ed; [discriminate|].
  intros H. injection H as H. apply orb_false_iff in H as [-> ->].
  intros k' col Hin. apply elem_of_cons in Hin as [Heq|Hin].
  - injection Heq as -> ->. exact Ec.
  - eapply IH; [reflexivity|exact Hin].
Qed.

Lemma frame_any_plain d : plain d -> exists b, Frame.any d = inr b.
Proof.
  unfold plain. induction d as [|[k c] d IH]; intros H; simpl; [eauto|].
  apply Forall_cons in H as [Hc H]. destruct (IH H) as [b ->].
  destruct c; try discriminate Hc; simpl; eauto.
Qed.

Lemma plain_select_rows d mask : plain d -> plain (Pd.select_rows d mask).
Proof.
  unfold plain, Pd.select_rows. intros H. apply Forall_forall. intros p Hp.
  apply list_elem_of_In, in_map_iff in Hp as ([k c] & <- & Hin).
  rewrite Forall_forall in H. specialize (H (k, c) ltac:(apply list_elem_of_In; exact Hin)).
  destruct c; try discriminate H; reflexivity.
Qed.

Lemma select_rows_elem d mask k xs :
  (k, ColNum xs) ∈ d -> (k, ColNum (Pd.take_rows mask xs)) ∈ Pd.select_rows d mask.
Proof.
  intros H. unfold Pd.select_rows. apply list_elem_of_In, in_map_iff.
  exists (k, ColNum xs). split; [reflexivity|apply list_elem_of_In; exact H].
Qed.

Lemma select_rows_none d mask :
  Forall (fun m => m = false) mask -> Frame.any (Pd.select_rows d mask) <> inr true.
Proof.
  intros Hmask H. apply frame_any_true in H as (k & col & Hin & Hany).
  assert (Hempty : forall A (xs : list A), Pd.take_rows mask xs = []).
  { intros A xs. destruct (Pd.take_rows mask xs) as [|y ys] eqn:E; [reflexivity|].
    assert (Hy : y ∈ Pd.take_rows mask xs) by (rewrite E; left).
    apply elem_of_take_rows in Hy as (i & Hi & _).
    rewrite Forall_forall in Hmask.
    specialize (Hmask true (list_elem_of_lookup_2 _ _ _ Hi)). discriminate. }
  unfold Pd.select_rows in Hin.
  apply list_elem_of_In, in_map_iff in Hin as ([k' c] & Heq & _).
  injection Heq as _ <-.
  destruct c; rewrite Hempty in Hany; discriminate.
Qed.

(** The run of [check_outlier] on a numeric column: the limits, the mask
    of the cells outside them, the reduction of the selected rows. *)
Lemma check_outlier_run r c s d xs :
  heap s !! r = Some d -> Pd.getitem d c = Some (ColNum xs) ->
  check_outlier r c s
  = (lift (Frame.any (Pd.select_rows d
             (map (outside (limits xs).1 (limits xs).2) xs))) ≫=
     (fun found : bool => if found then mret true else mret false)) s.
Proof.
  intros Hr Hc. unfold check_outlier.
  rewrite (bind_run _ _ _ _ _ (outlier_thresholds_run r c s d xs Hr Hc)).
  rewrite (bind_run _ _ _ _ _ (numeric_cells_run r c s d xs Hr Hc)).
  rewrite (bind_run _ _ _ _ _ (numeric_cells_run r c s d xs Hr Hc)).
  rewrite (bind_run _ _ _ _ _ (load_run _ _ _ Hr)).
  rewrite zip_with_orb_map. reflexivity.
Qed.

Lemma check_outlier_inv r c s b s' :
  check_outlier r c s = Ok b s' ->
  s' = s /\ exists d xs,
    heap s !! r = Some d /\ Pd.getitem d c = Some (ColNum xs) /\
    Frame.any (Pd.select_rows d (map (outside (limits xs).1 (limits xs).2) xs))
    = inr b.
Proof.
  intros H. pose proof H as H0. unfold check_outlier in H.
  apply bind_inv in H as ([low up] & s1 & Ht & _).
  unfold outlier_thresholds in Ht. apply bind_inv in Ht as (xs & s2 & Hc & _).
  apply numeric_cells_inv in Hc as [-> (d & Hr & Hc)].
  rewrite (check_outlier_run r c s d xs Hr Hc) in H0.
  destruct (Frame.any _) as [e|found] eqn:E; [discriminate H0|].
  simpl in H0. destruct found; injection H0 as <- <-; eauto 10.
Qed.

(** X22. [check_outlier] only reads, and it never reports an outlier
    that is not there: when it answers True, some cell of the column lies
    above the upper limit or below the lower limit. *)
Theorem check_outlier_sound (s : state) (dataframe : loc) (column : string)
    (answer : bool) (s' : state) :
  check_outlier dataframe column s = Ok answer s' ->
  s' = s /\
  exists (d : DataFrame) (cells : list float64),
    heap s !! dataframe = Some d /\
    Pd.getitem d column = Some (ColNum cells) /\
    (answer = true ->
     exists (i : nat) (x : float64),
       cells !! i = Some x /\
       (F64.gtb x (limits cells).2 = true \/ F64.ltb x (limits cells).1 = true)).
Proof.
  intros H. apply check_outlier_inv in H as [-> (d & xs & Hr & Hc & Hany)].
  split; [reflexivity|]. exists d, xs. split; [exact Hr|]. split; [exact Hc|].
  intros ->.
  destruct (existsb (outside (limits xs).1 (limits xs).2) xs) eqn:E.
  - apply existsb_exists in E as (x & Hx & Hout).
    apply list_elem_of_In, list_elem_of_lookup in Hx as [i Hi].
    exists i, x. split; [exact Hi|]. apply orb_true_iff. exact Hout.
  - exfalso. eapply select_rows_none; [|exact Hany].
    apply Forall_forall. intros m Hm.
    apply list_elem_of_In, in_map_iff in Hm as (x & <- & Hx).
    apply not_true_iff_false. intros Hout.
    apply not_true_iff_false in E. apply E.
    apply existsb_exists. eauto.
Qed.

Lemma outside_not_missing low up x :
  F64.gtb x up = true \/ F64.ltb x low = true -> F64.isnan x = false.
Proof.
  unfold F64.gtb. intros [H|H]; destruct x; try reflexivity;
    [destruct up|destruct low]; discriminate H.
Qed.

(** X23. On a table of numeric and text columns, [check_outlier] reports
    every outlier that is not zero: when a cell of the column lies outside
    the limits and is not 0, the answer is True. *)
Theorem check_outlier_complete (s : state) (dataframe : loc) (column : string)
    (d : DataFrame) (cells : list float64) (i : nat) (x : float64) :
  heap s !! dataframe = Some d ->
  NoDup (Pd.columns d) ->
  plain d ->
  Pd.getitem d column = Some (ColNum cells) ->
  cells !! i = Some x ->
  F64.gtb x (limits cells).2 = true \/ F64.ltb x (limits cells).1 = true ->
  F64.eqb x (Fin 0) = false ->
  check_outlier dataframe column s = Ok true s.
Proof.
  intros Hr _ Hplain Hc Hi Hout Hnz.
  rewrite (check_outlier_run _ _ _ _ _ Hr Hc).
  set (mask := map (outside (limits cells).1 (limits cells).2) cells).
  destruct (frame_any_plain _ (plain_select_rows d mask Hplain)) as [b Hb].
  rewrite Hb. destruct b; [reflexivity|]. exfalso.
  pose proof (frame_any_false _ Hb column (ColNum (Pd.take_rows mask cells))
                (select_rows_elem _ _ _ _ (getitem_elem _ _ _ Hc))) as Hcol.
  simpl in Hcol. injection Hcol as Hcol.
  apply not_true_iff_false in Hcol. apply Hcol.
  apply existsb_exists. exists x. split.
  - apply list_elem_of_In, elem_of_take_rows. exists i. split; [|exact Hi].
    unfold mask. change (map ?f ?l) with (f <$> l).
    rewrite list_lookup_fmap, Hi. simpl. f_equal.
    apply orb_true_iff. exact Hout.
  - unfold Series.truthy. rewrite Hnz, (outside_not_missing _ _ _ Hout). reflexivity.
Qed.

Lemma setitem_same d c col : Pd.getitem d c = Some col -> Pd.setitem d c col = d.
Proof.
  induction d as [|[k c0] d IH]; simpl; [discriminate|].
  destruct (String.eqb k c); [intros H; injection H as ->; reflexivity|].
  intros H. rewrite IH by exact H. reflexivity.
Qed.

(** X24. The report and the capping agree on a column without zeros:
    when [check_outlier] answers False for such a column,
    [replace_with_thresholds] leaves the table as it is. *)
Theorem check_outlier_false_then_nothing_to_cap (s : state) (dataframe : loc)
    (column : string) (d : DataFrame) (cells : list float64) (s' : state) :
  heap s !! dataframe = Some d ->
  NoDup (Pd.columns d) ->
  Pd.getitem d column = Some (ColNum cells) ->
  Forall (fun x => F64.eqb x (Fin 0) = false) cells ->
  check_outlier dataframe column s = Ok false s' ->
  replace_with_thresholds dataframe column s = Ok tt s.
Proof.
  intros Hr _ Hc Hnz H.
  apply check_outlier_inv in H as [-> (d' & xs & Hr' & Hc' & Hany)].
  rewrite Hr in Hr'. injection Hr' as <-. rewrite Hc in Hc'. injection Hc' as <-.
  rewrite (replace_with_thresholds_run _ _ _ _ _ Hr Hc).
  set (mask := map (outside (limits cells).1 (limits cells).2) cells) in *.
  pose proof (frame_any_false _ Hany column (ColNum (Pd.take_rows mask cells))
                (select_rows_elem _ _ _ _ (getitem_elem _ _ _ Hc))) as Hcol.
  simpl in Hcol. injection Hcol as Hcol.
  assert (Hin : forall i x, cells !! i = Some x ->
            outside (limits cells).1 (limits cells).2 x = false).
  { intros i x Hi. apply not_true_iff_false. intros Hout.
    apply not_true_iff_false in Hcol. apply Hcol.
    apply existsb_exists. exists x. split.
    - apply list_elem_of_In, elem_of_take_rows. exists i. split; [|exact Hi].
      unfold mask. change (map ?f ?l) with (f <$> l).
      rewrite list_lookup_fmap, Hi. simpl. f_equal. exact Hout.
    - unfold Series.truthy. rewrite Forall_forall in Hnz.
      rewrite (Hnz x (list_elem_of_lookup_2 _ _ _ Hi)).
      unfold outside in Hout. apply orb_true_iff in Hout.
      rewrite (outside_not_missing _ _ _ Hout). reflexivity. }
  assert (Hcap : capped cells = cells).
  { apply list_eq. intros i. destruct (cells !! i) as [x|] eqn:Hi.
    - rewrite (capped_lookup _ _ _ Hi). f_equal.
      specialize (Hin i x Hi). unfold outside in Hin.
      apply orb_false_iff in Hin as [Hup Hlow].
      unfold clip. rewrite Hlow, Hup. reflexivity.
    - apply lookup_ge_None. rewrite length_capped. apply lookup_ge_None. exact Hi. }
  rewrite Hcap, (setitem_same _ _ _ Hc), with_heap_insert_id by exact Hr.
  reflexivity.
Qed.

End Pipeline.

(** * The properties on sample tables *)

(** C1 on the spread column: the limits are -12.5 and 23.5, and the
    customer with 1000 orders is capped to round(23.5, 0) = 24. *)
Lemma replace_with_thresholds_caps_witness :
  let s := Example.state_of Example.spread in
  heap s !! 0%nat = Some Example.spread /\
  Pd.getitem Example.spread "order_num_total_ever_online"
    = Some (ColNum Example.spread_counts) /\
  (exists low high : Q,
     outlier_thresholds 0 "order_num_total_ever_online" (1 # 100) (99 # 100) s
     = Ok (Fin low, Fin high) s /\
     (low == -25 # 2)%Q /\ (high == 47 # 2)%Q) /\
  exists ys,
    replace_with_thresholds 0 "order_num_total_ever_online" s
    = Ok tt (with_heap s
               (<[0%nat := Pd.setitem Example.spread "order_num_total_ever_online"
                             (ColNum ys)]> (heap s))) /\
    ys !! 99%nat = Some (Fin 10) /\
    ys !! 100%nat = Some (Fin 24).
Proof.
  intros s. split; [reflexivity|]. split; [reflexivity|].
  destruct (replace_with_thresholds_caps s 0 Example.spread
              "order_num_total_ever_online" Example.spread_counts eq_refl eq_refl)
    as [Hlimits (ys & Hrun & _ & Hcells)].
  split.
  { rewrite Hlimits. do 2 eexists. split; [vm_compute; reflexivity|].
    split; vm_compute; reflexivity. }
  exists ys. split; [exact Hrun|].
  destruct (Hcells 99%nat (Fin 10) eq_refl) as [Hy _].
  destruct (Hcells 100%nat (Fin 1000) eq_refl) as [Hz _].
  rewrite Hy, Hz. split; vm_compute; reflexivity.
Defined.

(** C2 fails on a table other than the one bound to [df].  The docstring
    of [create_cltv] promises features "based on the input DataFrame", and
    the analysis date is indeed read from the argument; but the rows are
    read from the module variable [df].  Called on the two other customers
    while [df] holds the prepared sample customers, [create_cltv] returns
    the identifiers, frequencies and monetary averages of the sample
    customers, not those of the customers it was given (frequencies 7 and
    2, averages 70 and 60), and a tenure measured from the first orders of
    the former to the analysis date of the latter. *)
Lemma create_cltv_on_other_table :
  let s := Example.two_tables in
  g_df s = Some 0%nat /\
  exists cltv s' argument features,
    create_cltv (lib := Example.libraries) 1 s = Ok cltv s' /\
    heap s' !! 1%nat = Some argument /\
    heap s' !! cltv = Some features /\
    Pd.getitem argument "master_id" = Some (ColObj ["c-101"; "c-102"]) /\
    Pd.getitem argument "total_order_num" = Some (Example.nums [7; 2]) /\
    Pd.getitem argument "customer_value_total" = Some (Example.nums [490; 120]) /\
    analysis_date_of argument = Some (Example.date "2021-04-22") /\
    features =
      [("customer_id", ColObj ["c-001"; "c-002"]);
       ("recency_cltv_weekly", ColNum [Fin (70 # 7); Fin (0 # 7)]);
       ("T_weekly", ColNum [Fin (111 # 7); Fin (52 # 7)]);
       ("frequency", Example.nums [3; 1]);
       ("monetary_cltv_avg", ColNum [Fin (300 # 3); Fin 50])]%string.
Proof.
  intros s. split; [reflexivity|].
  do 4 eexists.
  split; [vm_compute; reflexivity|].
  repeat split; vm_compute; reflexivity.
Qed.

(** The same claim holds when the argument is the table bound to [df]:
    the two sample customers. *)
Lemma create_cltv_features_witness :
  let s := Example.state_of Example.customers in
  g_df s = Some 0%nat /\
  exists cltv s',
    create_cltv (lib := Example.libraries) 0 s = Ok cltv s' /\
    exists prepared_table,
      heap s' !! 0%nat = Some prepared_table /\
      Pd.getitem prepared_table "total_order_num" = Some (Example.nums [3; 1]).
Proof.
  intros s. split; [reflexivity|].
  set (o := create_cltv (lib := Example.libraries) 0 s).
  assert (Ho : o = Ok 1%nat (final_state o)) by (vm_compute; reflexivity).
  exists 1%nat, (final_state o). split; [exact Ho|].
  destruct (create_cltv_features (lib := Example.libraries) s 0 1 (final_state o)
              eq_refl Ho)
    as (tbl & mid & fo & lo & on & off & voff & von & Htbl & _).
  exists tbl. split; [exact Htbl|].
  assert (E : Some tbl = heap (final_state o) !! 0%nat) by (symmetry; exact Htbl).
  vm_compute in E. injection E as ->. reflexivity.
Defined.

(** C3 with two labels for six segments. *)
Lemma cltv_final_label_mismatch_witness :
  let s := Example.state_of Example.customers in
  Z.of_nat (length ["A"; "B"]%string) <> 6 /\
  exists e s',
    cltv_final (lib := Example.libraries) 0 6 ["A"; "B"]%string None s = Raise e s' /\
    files s' = files s.
Proof.
  intros s. split; [discriminate|].
  apply (cltv_final_label_mismatch (lib := Example.libraries)). discriminate.
Defined.

(** C4 on the two sample customers: tenures 72/7 and 13/7 weeks against
    recencies 70/7 and 0 weeks. *)
Lemma T_weekly_ge_recency_witness :
  let s := Example.state_of Example.customers in
  let o := create_cltv (lib := Example.libraries) 0 s in
  o = Ok 1%nat (final_state o) /\
  g_df s = Some 0%nat /\
  analysis_date_of (default [] (heap (final_state o) !! 0%nat))
    = Some (Example.date "2021-03-14") /\
  Forall (fun last_date => last_date < Example.date "2021-03-14")
    [Example.date "2021-03-12"; Example.date "2021-03-01"] /\
  F64.geb (Fin (72 # 7)) (Fin (70 # 7)) = true /\
  F64.geb (Fin (13 # 7)) (Fin (0 # 7)) = true.
Proof.
  intros s o.
  assert (Ho : o = Ok 1%nat (final_state o)) by (vm_compute; reflexivity).
  assert (Hbefore : Forall (fun last_date => last_date < Example.date "2021-03-14")
                      [Example.date "2021-03-12"; Example.date "2021-03-01"])
    by (repeat constructor).
  assert (H : forall (i : nat) (rec t : float64),
             [Fin (70 # 7); Fin (0 # 7)] !! i = Some rec ->
             [Fin (72 # 7); Fin (13 # 7)] !! i = Some t ->
             F64.geb t rec = true).
  { apply (T_weekly_ge_recency (lib := Example.libraries) s 0 1 (final_state o) 0
             (default [] (heap (final_state o) !! 0%nat))
             (default [] (heap (final_state o) !! 0%nat))
             (default [] (heap (final_state o) !! 1%nat))
             [Example.date "2021-03-12"; Example.date "2021-03-01"]
             (Example.date "2021-03-14")).
    - exact Ho.
    - reflexivity.
    - vm_compute. reflexivity.
    - vm_compute. reflexivity.
    - vm_compute. reflexivity.
    - vm_compute. reflexivity.
    - vm_compute. reflexivity.
    - exact Hbefore.
    - vm_compute. reflexivity.
    - vm_compute. reflexivity. }
  split; [exact Ho|]. split; [reflexivity|].
  split; [vm_compute; reflexivity|]. split; [exact Hbefore|].
  split; [apply (H 0%nat); reflexivity|apply (H 1%nat); reflexivity].
Defined.

(** C5 fails as stated: in the skewed table the column of online orders is
    numeric and the customer with 100 orders lies above the upper limit 0,
    yet [data_prep] leaves the column as it is (it has two distinct values
    only), where capping would turn the 100 into 0. *)
Lemma numeric_column_left_unclipped :
  let s := Example.state_of Example.skewed in
  Pd.getitem Example.skewed "order_num_total_ever_online"
    = Some (ColNum Example.skewed_counts) /\
  Example.skewed_counts !! 100%nat = Some (Fin 100) /\
  F64.gtb (Fin 100) (limits Example.skewed_counts).2 = true /\
  capped Example.skewed_counts !! 100%nat = Some (Fin 0) /\
  exists s' d1,
    data_prep (lib := Example.libraries) 0 s = Ok 0%nat s' /\
    heap s' !! 0%nat = Some d1 /\
    Pd.getitem d1 "order_num_total_ever_online" = Some (ColNum Example.skewed_counts).
Proof.
  intros s. split; [reflexivity|]. split; [reflexivity|].
  split; [vm_compute; reflexivity|]. split; [vm_compute; reflexivity|].
  eexists. eexists. split; [vm_compute; reflexivity|].
  split; vm_compute; reflexivity.
Qed.

(** C5 as amended, on the spread column: it has eleven distinct values
    and [data_prep] caps it. *)
Lemma data_prep_caps_columns_witness :
  let s := Example.state_of Example.spread in
  exists s',
    data_prep (lib := Example.libraries) 0 s = Ok 0%nat s' /\
    (10 <=? Pd.nunique (ColNum Example.spread_counts))%nat = true /\
    capped Example.spread_counts !! 100%nat = Some (Fin 24) /\
    exists d1,
      heap s' !! 0%nat = Some d1 /\
      Pd.getitem d1 "order_num_total_ever_online"
      = Some (ColNum (if (10 <=? Pd.nunique (ColNum Example.spread_counts))%nat
                      then capped Example.spread_counts
                      else Example.spread_counts)).
Proof.
  intros s.
  set (o := data_prep (lib := Example.libraries) 0 s).
  assert (Ho : o = Ok 0%nat (final_state o)) by (vm_compute; reflexivity).
  exists (final_state o). split; [exact Ho|].
  split; [vm_compute; reflexivity|]. split; [vm_compute; reflexivity|].
  apply (data_prep_caps_columns (lib := Example.libraries) s 0 Example.spread
           "order_num_total_ever_online" Example.spread_counts 0 (final_state o)).
  - reflexivity.
  - refine (bool_decide_unpack (NoDup (Pd.columns Example.spread)) _).
    vm_compute. exact I.
  - reflexivity.
  - reflexivity.
  - discriminate.
  - discriminate.
  - exact Ho.
Defined.

(** C6 on three scores and a rotation of them. *)
Lemma qcut_Permutation_witness :
  let x := [Fin 5; Fin 1; Fin 3] in
  let x' := [Fin 1; Fin 3; Fin 5] in
  Permutation x x' /\
  Forall2 feq (Qcut.bins x 3) (Qcut.bins x' 3).
Proof.
  intros x x'.
  assert (Hp : Permutation x x').
  { unfold x, x'. apply (Permutation_cons_append [Fin 1; Fin 3] (Fin 5)). }
  split; [exact Hp|].
  exact (proj1 (qcut_Permutation x x' 3 ["L"; "M"; "H"]%string Hp)).
Defined.


(** C8 fails as stated: with [df] bound to the prepared customers, the
    calls on two other tables return different [T_weekly] columns, because
    the analysis date is read from the argument. *)
Lemma T_weekly_depends_on_argument :
  let s := Example.three_tables in
  g_df s = Some 0%nat /\
  exists c1 s1 c2 s2 t1 t2,
    create_cltv (lib := Example.libraries) 1 s = Ok c1 s1 /\
    create_cltv (lib := Example.libraries) 2 s = Ok c2 s2 /\
    heap s1 !! c1 = Some t1 /\
    heap s2 !! c2 = Some t2 /\
    Pd.getitem t1 "T_weekly" = Some (ColNum [Fin (72 # 7); Fin (13 # 7)]) /\
    Pd.getitem t2 "T_weekly" = Some (ColNum [Fin (151 # 7); Fin (92 # 7)]) /\
    t1 <> t2.
Proof.
  intros s. split; [reflexivity|].
  do 6 eexists.
  split; [vm_compute; reflexivity|]. split; [vm_compute; reflexivity|].
  split; [vm_compute; reflexivity|]. split; [vm_compute; reflexivity|].
  split; [vm_compute; reflexivity|]. split; [vm_compute; reflexivity|].
  intros E. vm_compute in E. discriminate E.
Qed.

(** C8 as amended, on the same two calls. *)
Lemma create_cltv_reads_global_df_witness :
  let s := Example.three_tables in
  exists c1 s1 c2 s2 t1 t2,
    create_cltv (lib := Example.libraries) 1 s = Ok c1 s1 /\
    create_cltv (lib := Example.libraries) 2 s = Ok c2 s2 /\
    heap s1 !! c1 = Some t1 /\
    heap s2 !! c2 = Some t2 /\
    forall col, col <> "T_weekly"%string -> Pd.getitem t1 col = Pd.getitem t2 col.
Proof.
  intros s.
  set (o1 := create_cltv (lib := Example.libraries) 1 s).
  set (o2 := create_cltv (lib := Example.libraries) 2 s).
  assert (H1 : o1 = Ok 3%nat (final_state o1)) by (vm_compute; reflexivity).
  assert (H2 : o2 = Ok 3%nat (final_state o2)) by (vm_compute; reflexivity).
  exists 3%nat, (final_state o1), 3%nat, (final_state o2).
  exists (default [] (heap (final_state o1) !! 3%nat)).
  exists (default [] (heap (final_state o2) !! 3%nat)).
  assert (Ht1 : heap (final_state o1) !! 3%nat
                = Some (default [] (heap (final_state o1) !! 3%nat)))
    by (vm_compute; reflexivity).
  assert (Ht2 : heap (final_state o2) !! 3%nat
                = Some (default [] (heap (final_state o2) !! 3%nat)))
    by (vm_compute; reflexivity).
  split; [exact H1|]. split; [exact H2|]. split; [exact Ht1|]. split; [exact Ht2|].
  refine (proj1 (create_cltv_reads_global_df (lib := Example.libraries)
                   s 0 1 2 3 3 (final_state o1) (final_state o2) _ _
                   eq_refl _ _ H1 H2 Ht1 Ht2)); discriminate.
Defined.

(** C9, where the claim fails: [cltv_final] has no default segment count
    and no default labels.  On the two sample customers a call without
    them raises TypeError where a default would cut into F..S, and a call
    with two labels of the caller's cuts into those two. *)
Lemma cltv_final_has_no_default_segments :
  let s := Example.state_of Example.customers in
  call_cltv_final (lib := Example.libraries) 0 None None None s = Raise TypeError s /\
  call_cltv_final (lib := Example.libraries) 0 None None None s
    <> call_cltv_final (lib := Example.libraries)
         0 (Some 6) (Some default_segments) None s /\
  exists result s' table,
    call_cltv_final (lib := Example.libraries)
      0 (Some 2) (Some ["low"; "high"]%string) None s = Ok result s' /\
    heap s' !! result = Some table /\
    Pd.getitem table "segment" = Some (ColCat [Some "high"; Some "low"]%string).
Proof.
  intros s. split; [reflexivity|]. split.
  - intros E. vm_compute in E. discriminate E.
  - eexists. eexists. eexists. split; [vm_compute; reflexivity|].
    split; vm_compute; reflexivity.
Qed.

(** C9 as amended, on a run of the script over the sample file: the call
    at module level gives 6 and F..S, and the customer with the lowest
    lifetime value is in F. *)
Lemma pipeline_defaults_witness :
  exists result s' table scores segment lowest,
    main (lib := Example.libraries) Example.before_script = Ok result s' /\
    heap s' !! result = Some table /\
    Pd.getitem table "cltv" = Some (ColNum scores) /\
    Pd.getitem table "segment" = Some (ColCat segment) /\
    scores !! 1%nat = Some (Fin lowest) /\
    segment !! 1%nat = Some (Some "F"%string).
Proof.
  set (o := main (lib := Example.libraries) Example.before_script).
  assert (Ho : o = Ok 2%nat (final_state o)) by (vm_compute; reflexivity).
  destruct (pipeline_defaults (lib := Example.libraries)) as (_ & _ & _ & Hcall & Hmain).
  destruct (Hmain Example.before_script 2%nat (final_state o) Ho) as (df & s0 & Hrun).
  destruct (Hcall df 6 _ None s0 2%nat (final_state o) Hrun)
    as (table & ggf & bgf & f & rc & T & mon & scores & segment
        & Ht & Hsc & _ & Hseg & Horder).
  assert (E : Some table = heap (final_state o) !! 2%nat) by (symmetry; exact Ht).
  vm_compute in E. injection E as E.
  pose proof Hsc as Es. rewrite E in Es. vm_compute in Es. injection Es as Es.
  pose proof Hseg as El. rewrite E in El. vm_compute in El. injection El as El.
  subst scores.
  exists 2%nat, (final_state o), table. eexists. exists segment. eexists.
  split; [exact Ho|]. split; [exact Ht|]. split; [exact Hsc|]. split; [exact Hseg|].
  split; [reflexivity|].
  refine (proj1 (Horder _ _ _ _ _ _) 1%nat eq_refl).
  - lia.
  - refine (bool_decide_unpack (NoDup _) _). vm_compute. exact I.
  - repeat constructor.
  - apply list_elem_of_lookup_2 with 1%nat. reflexivity.
  - intros w Hw. apply elem_of_cons in Hw as [Hw|Hw];
      [|apply elem_of_cons in Hw as [Hw|Hw]; [|apply elem_of_nil in Hw; contradiction]];
      injection Hw as ->; vm_compute; discriminate.
Defined.

(** C10 on the two sample customers: the caller's table has changed. *)
Lemma cltv_final_mutates_argument_witness :
  let s := Example.state_of Example.customers in
  exists result s',
    cltv_final (lib := Example.libraries) 0 6 default_segments None s = Ok result s' /\
    result <> 0%nat /\
    heap s !! 0%nat = Some Example.customers /\
    heap s' !! 0%nat = Some Example.customers_prepared.
Proof.
  intros s.
  set (o := cltv_final (lib := Example.libraries) 0 6 default_segments None s).
  assert (Ho : o = Ok 1%nat (final_state o)) by (vm_compute; reflexivity).
  exists 1%nat, (final_state o). split; [exact Ho|].
  destruct (cltv_final_mutates_argument (lib := Example.libraries)
              s 0 6 default_segments None 1 (final_state o) Ho)
    as (Hne & before & after & Hb & Ha & _).
  split; [exact Hne|]. split; [reflexivity|].
  vm_compute. reflexivity.
Defined.

(** * The further properties on sample tables *)

Ltac unique_labels :=
  match goal with
  | |- NoDup ?l => refine (bool_decide_unpack (NoDup l) _); vm_compute; exact I
  end.

(** X1 on the spread column followed by a missing value: the last cell is
    NaN before the capping and after it. *)
Lemma replace_with_thresholds_keeps_missing_values_witness :
  let s := Example.state_of Example.gapped in
  Example.counts_with_gap !! 101%nat = Some NaN /\
  exists ys,
    replace_with_thresholds 0 "order_num_total_ever_online" s
    = Ok tt (with_heap s
               (<[0%nat := Pd.setitem Example.gapped "order_num_total_ever_online"
                             (ColNum ys)]> (heap s))) /\
    length ys = 102%nat /\
    exists y, ys !! 101%nat = Some y /\ F64.isnan y = true.
Proof.
  intros s. split; [reflexivity|].
  destruct (replace_with_thresholds_keeps_missing_values s 0 Example.gapped
              "order_num_total_ever_online" Example.counts_with_gap eq_refl eq_refl)
    as (ys & Hrun & Hlen & Hcells).
  exists ys. split; [exact Hrun|]. split; [exact Hlen|].
  exact (Hcells 101%nat NaN eq_refl).
Defined.

(** X2 on the spread column: the customers with one order, at the 0.01
    quantile, keep their count. *)
Lemma replace_with_thresholds_keeps_central_cells_witness :
  let s := Example.state_of Example.spread in
  Example.spread_counts !! 0%nat = Some (Fin 1) /\
  exists ys,
    replace_with_thresholds 0 "order_num_total_ever_online" s
    = Ok tt (with_heap s
               (<[0%nat := Pd.setitem Example.spread "order_num_total_ever_online"
                             (ColNum ys)]> (heap s))) /\
    ys !! 0%nat = Some (Fin 1).
Proof.
  intros s. split; [reflexivity|].
  destruct (replace_with_thresholds_keeps_central_cells s 0 Example.spread
              "order_num_total_ever_online" Example.spread_counts eq_refl eq_refl)
    as (ys & Hrun & Hcells).
  exists ys. split; [exact Hrun|].
  apply (Hcells 0%nat (Fin 1) eq_refl); repeat split; vm_compute; reflexivity.
Defined.


(** X4 on the spread column, a column of whole numbers. *)
Lemma replace_with_thresholds_keeps_integers_witness :
  let s := Example.state_of Example.spread in
  Forall (fun x => is_integer x \/ x = NaN) Example.spread_counts /\
  exists ys,
    replace_with_thresholds 0 "order_num_total_ever_online" s
    = Ok tt (with_heap s
               (<[0%nat := Pd.setitem Example.spread "order_num_total_ever_online"
                             (ColNum ys)]> (heap s))) /\
    Forall (fun y => is_integer y \/ y = NaN) ys.
Proof.
  intros s.
  assert (Hint : Forall (fun x => is_integer x \/ x = NaN) Example.spread_counts)
    by apply integers_of_Z.
  split; [exact Hint|].
  exact (replace_with_thresholds_keeps_integers s 0 Example.spread
           "order_num_total_ever_online" Example.spread_counts eq_refl eq_refl Hint).
Defined.


(** X6 on the spread table: the column of online orders is numeric, the
    others are categorical, none is cardinal. *)
Lemma grab_col_names_partition_witness :
  let categorical :=
    ["first_order_date"; "last_order_date"; "order_num_total_ever_offline";
     "customer_value_total_ever_offline"; "customer_value_total_ever_online"]%string in
  let numeric := ["order_num_total_ever_online"]%string in
  grab_col_names Example.spread 10 20 = (categorical, [], numeric) /\
  Permutation (categorical ++ [] ++ numeric) (Pd.columns Example.spread).
Proof.
  intros categorical numeric.
  assert (Hg : grab_col_names Example.spread 10 20 = (categorical, [], numeric))
    by (vm_compute; reflexivity).
  split; [exact Hg|].
  refine (proj1 (grab_col_names_partition Example.spread 10 20 _ _ _ _ Hg)).
  unique_labels.
Defined.

(** X7 on the twelve customers: once prepared, the table holds twelve
    distinct dates of last order, and a second [data_prep] stops. *)
Lemma data_prep_rejects_datetime_column_witness :
  let s := Example.state_of Example.twelve_customers in
  let s1 := final_state (data_prep (lib := Example.libraries) 0 s) in
  data_prep (lib := Example.libraries) 0 s = Ok 0%nat s1 /\
  exists s2,
    data_prep (lib := Example.libraries) 0 s1 = Raise TypeError s2 /\
    files s2 = files s1.
Proof.
  intros s s1. split; [vm_compute; reflexivity|].
  pose (d := default [] (heap s1 !! 0%nat)).
  pose (xs := match Pd.getitem d "last_order_date" with
              | Some (ColDate xs) => xs
              | _ => []
              end).
  apply (data_prep_rejects_datetime_column (lib := Example.libraries)
           s1 0 d "last_order_date" xs).
  - vm_compute. reflexivity.
  - unique_labels.
  - vm_compute. reflexivity.
  - apply Nat.leb_le. vm_compute. reflexivity.
Defined.

(** X8 on the sample customers. *)
Lemma data_prep_succeeds_witness :
  let s := Example.state_of Example.customers in
  exists s' d1,
    data_prep (lib := Example.libraries) 0 s = Ok 0%nat s' /\
    heap s' !! 0%nat = Some d1 /\
    prepared (lib := Example.libraries) Example.customers d1.
Proof.
  intros s.
  apply (data_prep_succeeds (lib := Example.libraries) s 0 Example.customers).
  - reflexivity.
  - unique_labels.
  - repeat constructor.
  - intros c Hc. unfold required_columns in Hc.
    repeat (apply elem_of_cons in Hc as [->|Hc]);
      [eexists; reflexivity..|inversion Hc].
  - intros c Hc Hd. vm_compute in Hc.
    repeat (apply elem_of_cons in Hc as [->|Hc]);
      try discriminate Hd; try (inversion Hc; fail);
      do 2 eexists;
      (split; [reflexivity|split; [discriminate|vm_compute; reflexivity]]).
Defined.

(** X9 on the sample customers: nine columns before, eleven after. *)
Lemma data_prep_columns_witness :
  let s := Example.state_of Example.customers in
  exists s' d1,
    data_prep (lib := Example.libraries) 0 s = Ok 0%nat s' /\
    heap s' !! 0%nat = Some d1 /\
    Pd.columns d1 = (Pd.columns Example.customers
                     ++ ["total_order_num"; "customer_value_total"])%list.
Proof.
  intros s.
  set (o := data_prep (lib := Example.libraries) 0 s).
  assert (Ho : o = Ok 0%nat (final_state o)) by (vm_compute; reflexivity).
  destruct (data_prep_columns (lib := Example.libraries) s 0 Example.customers 0
              (final_state o) eq_refl Ho) as (d1 & Hd1 & Hcols).
  exists (final_state o), d1. split; [exact Ho|]. split; [exact Hd1|].
  rewrite Hcols. reflexivity.
Defined.

(** X10 on the sample customers: the identifiers are as they were. *)
Lemma data_prep_keeps_text_columns_witness :
  let s := Example.state_of Example.customers in
  exists s' d1,
    data_prep (lib := Example.libraries) 0 s = Ok 0%nat s' /\
    heap s' !! 0%nat = Some d1 /\
    Pd.getitem d1 "master_id" = Some (ColObj ["c-001"; "c-002"]%string).
Proof.
  intros s.
  set (o := data_prep (lib := Example.libraries) 0 s).
  assert (Ho : o = Ok 0%nat (final_state o)) by (vm_compute; reflexivity).
  destruct (data_prep_keeps_text_columns (lib := Example.libraries)
              s 0 Example.customers "master_id" ["c-001"; "c-002"]%string 0
              (final_state o) eq_refl eq_refl eq_refl) as (d1 & Hd1 & Hcol);
    [discriminate|discriminate|exact Ho|].
  exists (final_state o), d1. auto.
Defined.


(** X12 on the twelve customers: the first run returns, the second
    stops. *)
Lemma cltv_final_not_rerunnable_witness :
  let s := Example.state_of Example.twelve_customers in
  let first_run := cltv_final (lib := Example.libraries) 0 6 default_segments None s in
  first_run = Ok 1%nat (final_state first_run) /\
  exists s'',
    cltv_final (lib := Example.libraries) 0 6 default_segments None
      (final_state first_run)
    = Raise TypeError s'' /\
    files s'' = files (final_state first_run).
Proof.
  intros s first_run.
  assert (Ho : first_run = Ok 1%nat (final_state first_run))
    by (vm_compute; reflexivity).
  split; [exact Ho|].
  destruct (cltv_final_not_rerunnable (lib := Example.libraries)
              s 0 6 default_segments None 1 (final_state first_run)
              Example.twelve_customers eq_refl)
    as (after & last_order & Hafter & Hlast & Hrerun);
    [unique_labels|exact Ho|].
  apply Hrerun.
  assert (Ea : Some after = heap (final_state first_run) !! 0%nat)
    by (symmetry; exact Hafter).
  vm_compute in Ea. injection Ea as ->.
  vm_compute in Hlast. injection Hlast as <-.
  apply Nat.leb_le. vm_compute. reflexivity.
Defined.

(** X13 on the sample customers, for a horizon of 3 months: one column
    of expected sales. *)
Lemma modelling_columns_witness :
  let s := Example.state_of Example.customers in
  exists result s' table,
    modelling (lib := Example.libraries) 0 (Some 3) s = Ok result s' /\
    heap s' !! result = Some table /\
    Pd.columns table
    = ["customer_id"; "recency_cltv_weekly"; "T_weekly"; "frequency";
       "monetary_cltv_avg"; "exp_sales_3_month"; "exp_average_value"; "cltv"]%string.
Proof.
  intros s.
  set (o := modelling (lib := Example.libraries) 0 (Some 3) s).
  assert (Ho : o = Ok 1%nat (final_state o)) by (vm_compute; reflexivity).
  destruct (modelling_columns (lib := Example.libraries) s 0 (Some 3) 1
              (final_state o) Ho) as (table & Ht & Hcols).
  exists 1%nat, (final_state o), table. split; [exact Ho|]. split; [exact Ht|].
  exact Hcols.
Defined.

(** X14 on the sample customers, for the default horizon: the expected
    sales at 6 months are the prediction at 24 weeks from the frequencies
    3 and 1. *)
Lemma modelling_computes_from_features_witness :
  let s := Example.state_of Example.customers in
  exists result s' table recency T sales,
    modelling (lib := Example.libraries) 0 None s = Ok result s' /\
    heap s' !! result = Some table /\
    Pd.getitem table "frequency" = Some (Example.nums [3; 1]) /\
    Pd.getitem table "recency_cltv_weekly" = Some recency /\
    Pd.getitem table "T_weekly" = Some T /\
    BetaGeoFitter_predict (Libraries := Example.libraries) tt 24
      (Example.nums [3; 1]) recency T = inr sales /\
    Pd.getitem table "exp_sales_6_month" = Some (ColNum sales).
Proof.
  intros s.
  set (o := modelling (lib := Example.libraries) 0 None s).
  assert (Ho : o = Ok 1%nat (final_state o)) by (vm_compute; reflexivity).
  destruct (modelling_computes_from_features (lib := Example.libraries)
              s 0 None 1 (final_state o) Ho)
    as (s1 & features & table & f & rc & T & mon & bgf & ggf & s3 & sm & av & clv
        & _ & _ & Ht & Hsame & Hf & Hrc & HT & _ & _ & _ & _ & Hsm & _ & _ & _ & Hcol & _).
  exists 1%nat, (final_state o), table, rc, T, sm.
  split; [exact Ho|]. split; [exact Ht|].
  assert (Ef : Some f = Some (Example.nums [3; 1])).
  { rewrite <- Hf, <- (Hsame "frequency"%string) by (repeat constructor).
    assert (Et : Some table = heap (final_state o) !! 1%nat) by (symmetry; exact Ht).
    vm_compute in Et. injection Et as ->. vm_compute. reflexivity. }
  injection Ef as ->.
  split; [rewrite (Hsame "frequency"%string) by (repeat constructor); exact Hf|].
  split; [rewrite (Hsame "recency_cltv_weekly"%string) by (repeat constructor); exact Hrc|].
  split; [rewrite (Hsame "T_weekly"%string) by (repeat constructor); exact HT|].
  destruct bgf. split; [exact Hsm|exact Hcol].
Defined.

(** X15 on the sample customers. *)
Lemma cltv_final_columns_witness :
  let s := Example.state_of Example.customers in
  exists result s' table,
    cltv_final (lib := Example.libraries) 0 6 default_segments None s = Ok result s' /\
    heap s' !! result = Some table /\
    Pd.columns table
    = ["customer_id"; "recency_cltv_weekly"; "T_weekly"; "frequency";
       "monetary_cltv_avg"; "exp_sales_3_month"; "exp_sales_6_month";
       "exp_average_value"; "cltv"; "segment"]%string.
Proof.
  intros s.
  set (o := cltv_final (lib := Example.libraries) 0 6 default_segments None s).
  assert (Ho : o = Ok 1%nat (final_state o)) by (vm_compute; reflexivity).
  destruct (cltv_final_columns (lib := Example.libraries) s 0 6 default_segments None 1
              (final_state o) Ho) as (table & Ht & Hcols).
  exists 1%nat, (final_state o), table. auto.
Defined.

(** X16 on the sample customers: the run with six labels writes the
    table it returns, the run with two labels for six segments stops with
    no file written. *)
Lemma cltv_final_writes_result_witness :
  let s := Example.state_of Example.customers in
  (exists result s' table,
     cltv_final (lib := Example.libraries) 0 6 default_segments None s = Ok result s' /\
     heap s' !! result = Some table /\
     files s' = <["cltv_flo.csv"%string := table]> (files s)) /\
  (exists s',
     cltv_final (lib := Example.libraries) 0 6 ["low"; "high"]%string None s
     = Raise ValueError s' /\
     files s' = files s).
Proof.
  intros s. split.
  - set (o := cltv_final (lib := Example.libraries) 0 6 default_segments None s).
    assert (Ho : o = Ok 1%nat (final_state o)) by (vm_compute; reflexivity).
    destruct (proj1 (cltv_final_writes_result (lib := Example.libraries)
                       s 0 6 default_segments None) 1%nat (final_state o) Ho)
      as (table & Ht & Hfiles).
    exists 1%nat, (final_state o), table.
    split; [exact Ho|]. split; [exact Ht|exact Hfiles].
  - set (o := cltv_final (lib := Example.libraries)
                0 6 ["low"; "high"]%string (Some false) s).
    assert (Ho : o = Raise ValueError (final_state o)) by (vm_compute; reflexivity).
    exists (final_state o).
    exact (proj2 (cltv_final_writes_result (lib := Example.libraries)
                    s 0 6 ["low"; "high"]%string None) ValueError (final_state o) Ho).
Defined.

(** X17 on a call for the other customers while [df] holds the sample
    customers: the table bound to [df] is as it was. *)
Lemma cltv_final_frame_witness :
  let s := Example.two_tables in
  exists result s',
    cltv_final (lib := Example.libraries) 1 6 default_segments None s = Ok result s' /\
    result = 2%nat /\
    heap s' !! 0%nat = Some Example.customers_prepared /\
    g_df s' = Some 0%nat.
Proof.
  intros s.
  set (o := cltv_final (lib := Example.libraries) 1 6 default_segments None s).
  assert (Ho : o = Ok 2%nat (final_state o)) by (vm_compute; reflexivity).
  destruct (cltv_final_frame (lib := Example.libraries) s 1 6 default_segments None 2
              (final_state o) Ho) as (Hres & _ & Hkeep & Hg & _).
  exists 2%nat, (final_state o). split; [exact Ho|]. split; [reflexivity|].
  split; [|exact Hg].
  rewrite (Hkeep 0%nat); [reflexivity|discriminate|simpl; lia].
Defined.

(** X18 on a run of the script over the sample file. *)
Lemma main_keeps_original_witness :
  let s := Example.before_script in
  exists result s',
    main (lib := Example.libraries) s = Ok result s' /\
    g_df_org s' = Some 0%nat /\
    heap s' !! 0%nat = Some Example.customers /\
    g_df s' = Some 1%nat /\
    files s' !! "dataset/flo_data_20k.csv"%string = Some Example.customers.
Proof.
  intros s.
  set (o := main (lib := Example.libraries) s).
  assert (Ho : o = Ok 2%nat (final_state o)) by (vm_compute; reflexivity).
  destruct (main_keeps_original (lib := Example.libraries) s 2 (final_state o) Ho)
    as (raw & Hfile & Hgo & Hraw & Hg & Hfile').
  assert (Er : Some raw = Some Example.customers) by (rewrite <- Hfile; reflexivity).
  injection Er as ->.
  exists 2%nat, (final_state o). auto.
Defined.

(** X19 on the sample customers: tenures 72/7 and 13/7 weeks against
    recencies 70/7 and 0 weeks. *)
Lemma T_weekly_exceeds_recency_witness :
  let s := Example.state_of Example.customers in
  exists cltv s' features,
    create_cltv (lib := Example.libraries) 0 s = Ok cltv s' /\
    heap s' !! cltv = Some features /\
    Pd.getitem features "recency_cltv_weekly"
      = Some (ColNum [Fin (70 # 7); Fin (0 # 7)]) /\
    Pd.getitem features "T_weekly" = Some (ColNum [Fin (72 # 7); Fin (13 # 7)]) /\
    F64.ltb (Fin (70 # 7)) (Fin (72 # 7)) = true /\
    F64.ltb (Fin (0 # 7)) (Fin (13 # 7)) = true.
Proof.
  intros s.
  set (o := create_cltv (lib := Example.libraries) 0 s).
  assert (Ho : o = Ok 1%nat (final_state o)) by (vm_compute; reflexivity).
  destruct (T_weekly_exceeds_recency (lib := Example.libraries) s 0 1 (final_state o)
              eq_refl Ho) as (features & recency & T & Hf & Hrec & HT & Hcells).
  assert (Ef : Some features = heap (final_state o) !! 1%nat) by (symmetry; exact Hf).
  vm_compute in Ef. injection Ef as ->.
  assert (Er : Some (ColNum recency) = Some (ColNum [Fin (70 # 7); Fin (0 # 7)]))
    by (rewrite <- Hrec; vm_compute; reflexivity).
  assert (Et : Some (ColNum T) = Some (ColNum [Fin (72 # 7); Fin (13 # 7)]))
    by (rewrite <- HT; vm_compute; reflexivity).
  injection Er as ->. injection Et as ->.
  exists 1%nat, (final_state o). eexists.
  split; [exact Ho|]. split; [vm_compute; reflexivity|].
  split; [vm_compute; reflexivity|]. split; [vm_compute; reflexivity|].
  destruct (Hcells 0%nat _ eq_refl) as (a0 & b0 & t0 & _ & _ & Ht0 & _ & Hlt0).
  destruct (Hcells 1%nat _ eq_refl) as (a1 & b1 & t1 & _ & _ & Ht1 & _ & Hlt1).
  injection Ht0 as <-. injection Ht1 as <-.
  split; assumption.
Defined.

(** X20 on the twins: the two lifetime values are equal, and the cut in
    six segments fails. *)
Lemma cltv_final_constant_scores_witness :
  let s := Example.state_of Example.twins in
  let o := modelling (lib := Example.libraries) 0 None s in
  o = Ok 1%nat (final_state o) /\
  cltv_final (lib := Example.libraries) 0 6 default_segments None s
  = Raise ValueError (final_state o) /\
  files (final_state o) = files s.
Proof.
  intros s o.
  assert (Ho : o = Ok 1%nat (final_state o)) by (vm_compute; reflexivity).
  split; [exact Ho|].
  pose (table := default [] (heap (final_state o) !! 1%nat)).
  pose (scores := match Pd.getitem table "cltv" with
                  | Some (ColNum xs) => xs
                  | _ => []
                  end).
  pose (v := match scores with Fin q :: _ => q | _ => 0%Q end).
  apply (cltv_final_constant_scores (lib := Example.libraries) s 0 6 default_segments
           None 1 (final_state o) table scores v).
  - exact Ho.
  - vm_compute. reflexivity.
  - vm_compute. reflexivity.
  - vm_compute. repeat constructor; left; reflexivity.
  - vm_compute. apply Exists_cons_hd. reflexivity.
  - lia.
Defined.

(** X21 on the sample customers: both receive a label. *)
Lemma cltv_final_segments_every_customer_witness :
  let s := Example.state_of Example.customers in
  exists result s' table segment,
    cltv_final (lib := Example.libraries) 0 6 default_segments None s = Ok result s' /\
    heap s' !! result = Some table /\
    Pd.getitem table "segment" = Some (ColCat segment) /\
    length segment = 2%nat /\
    exists label, segment !! 0%nat = Some (Some label) /\ label ∈ default_segments.
Proof.
  intros s.
  set (o := cltv_final (lib := Example.libraries) 0 6 default_segments None s).
  assert (Ho : o = Ok 1%nat (final_state o)) by (vm_compute; reflexivity).
  destruct (cltv_final_segments_every_customer (lib := Example.libraries)
              s 0 6 default_segments None 1 (final_state o) Ho)
    as (table & scores & segment & Ht & Hsc & Hseg & Hall).
  exists 1%nat, (final_state o), table, segment.
  split; [exact Ho|]. split; [exact Ht|]. split; [exact Hseg|].
  assert (Et : Some table = heap (final_state o) !! 1%nat) by (symmetry; exact Ht).
  vm_compute in Et. injection Et as ->.
  vm_compute in Hsc. injection Hsc as <-.
  destruct Hall as [Hlen Hcells]; [lia|repeat constructor|].
  split; [exact Hlen|].
  exact (Hcells 0%nat _ eq_refl).
Defined.

(** X22 on the spread table: the report says True, and the customer
    with 1000 orders is indeed above the upper limit. *)
Lemma check_outlier_sound_witness :
  let s := Example.state_of Example.spread in
  check_outlier 0 "order_num_total_ever_online" s = Ok true s /\
  exists i x,
    Example.spread_counts !! i = Some x /\
    (F64.gtb x (limits Example.spread_counts).2 = true \/
     F64.ltb x (limits Example.spread_counts).1 = true).
Proof.
  intros s.
  assert (Hrun : check_outlier 0 "order_num_total_ever_online" s = Ok true s)
    by (vm_compute; reflexivity).
  split; [exact Hrun|].
  destruct (check_outlier_sound s 0 "order_num_total_ever_online" true s Hrun)
    as (_ & d & cells & Hr & Hc & Hex).
  assert (Ed : Some d = Some Example.spread) by (rewrite <- Hr; reflexivity).
  injection Ed as ->.
  assert (Ec : Some (ColNum cells) = Some (ColNum Example.spread_counts))
    by (rewrite <- Hc; reflexivity).
  injection Ec as ->.
  exact (Hex eq_refl).
Defined.

(** X23 on the spread table: the customer with 1000 orders is above the
    upper limit, and the report says so. *)
Lemma check_outlier_complete_witness :
  let s := Example.state_of Example.spread in
  Example.spread_counts !! 100%nat = Some (Fin 1000) /\
  F64.gtb (Fin 1000) (limits Example.spread_counts).2 = true /\
  check_outlier 0 "order_num_total_ever_online" s = Ok true s.
Proof.
  intros s.
  assert (Hout : F64.gtb (Fin 1000) (limits Example.spread_counts).2 = true)
    by (vm_compute; reflexivity).
  split; [reflexivity|]. split; [exact Hout|].
  apply (check_outlier_complete s 0 "order_num_total_ever_online" Example.spread
           Example.spread_counts 100 (Fin 1000)).
  - reflexivity.
  - unique_labels.
  - repeat constructor.
  - reflexivity.
  - reflexivity.
  - left. exact Hout.
  - reflexivity.
Defined.

(** X24 on the sample customers: the counts 3 and 1 lie within the
    limits, the report says False, and capping changes nothing. *)
Lemma check_outlier_false_then_nothing_to_cap_witness :
  let s := Example.state_of Example.customers in
  check_outlier 0 "order_num_total_ever_online" s = Ok false s /\
  replace_with_thresholds 0 "order_num_total_ever_online" s = Ok tt s.
Proof.
  intros s.
  assert (Hrun : check_outlier 0 "order_num_total_ever_online" s = Ok false s)
    by (vm_compute; reflexivity).
  split; [exact Hrun|].
  apply (check_outlier_false_then_nothing_to_cap s 0 "order_num_total_ever_online"
           Example.customers [Fin 3; Fin 1] s).
  - reflexivity.
  - unique_labels.
  - reflexivity.
  - repeat constructor.
  - exact Hrun.
Defined.
